(** * Aviation analytics dashboard: the cleaning, filtering and aggregation
    pipeline of [dashboard3.py]

    The script loads a CSV file into an in-memory SQLite table, derives four
    typed columns with one SQL query ([query_cleaned]), filters the resulting
    data frame with pandas ([df_filtered]), writes it back to SQLite and runs
    one query of a fixed catalog ([queries]) that feeds a chart.

    The embedding follows that layering:
    - [SQLite]: the scalar functions, casts, aggregates and ordering of SQLite
      that the queries use;
    - [Python]: the pieces of Python and pandas the script relies on ([int],
      [Series.min], [isin], [astype(int)], exceptions);
    - [Dashboard]: the script itself.

    Conventions.  Text is ASCII, so that characters and bytes coincide.  A
    REAL (binary64) value is represented by the rational number it stands
    for.  A conversion to REAL (the cast of a text, the conversion of an
    integer, the result of [ROUND]) and an operation on REALs yield the
    binary64 number nearest to the exact result ([SQLite.binary64]); the
    infinities are not represented.  [AVG] alone is computed on exact
    rationals: the order and the precision in which SQLite adds differ
    between its releases, and its result is the exact mean wherever the
    binary64 sums are exact, as on whole numbers below 2^53.  Raw CSV
    columns hold TEXT or NULL. *)

From Stdlib Require Import ZArith QArith Qround Qabs List Bool Lia Lqa.
From Stdlib Require Qcanon.
From Stdlib Require Import Strings.String Strings.Ascii.
From Stdlib Require Import Sorting.Permutation Sorting.Sorted.
Import ListNotations.

Open Scope string_scope.
Open Scope Z_scope.

(* ================================================================== *)
(** * SQLite *)
(* ================================================================== *)

Module SQLite.

(** ** Characters *)

Definition code (c : ascii) : Z := Z.of_N (N_of_ascii c).

Definition is_digit (c : ascii) : bool := (48 <=? code c) && (code c <=? 57).

Definition digit_val (c : ascii) : Z := code c - 48.

(** [sqlite3Isspace]: space, TAB, LF, VT, FF, CR. *)
Definition is_space (c : ascii) : bool :=
  (code c =? 32) || ((9 <=? code c) && (code c <=? 13)).

(** ASCII case folding, as used by LIKE. *)
Definition to_lower (c : ascii) : ascii :=
  if (65 <=? code c) && (code c <=? 90)
  then ascii_of_N (N_of_ascii c + 32) else c.

Fixpoint all_digits (s : string) : bool :=
  match s with
  | EmptyString => true
  | String c s' => is_digit c && all_digits s'
  end.

(** A non-empty run of decimal digits: the [<int>] of the duration shapes. *)
Definition is_numeral (s : string) : bool :=
  negb (s =? "")%string && all_digits s.

(** Value of a digit string, most significant digit first. *)
Fixpoint digits_value_from (acc : Z) (s : string) : Z :=
  match s with
  | EmptyString => acc
  | String c s' => digits_value_from (10 * acc + digit_val c) s'
  end.

Definition digits_value (s : string) : Z := digits_value_from 0 s.

(** ** Text functions *)

Definition slen (s : string) : Z := Z.of_nat (String.length s).

(** [REPLACE(X, Y, Z)] on text, for a non-empty pattern [Y]; SQLite returns
    [X] unchanged when [Y] is empty. *)
Fixpoint replace_from (fuel : nat) (s pat by_ : string) : string :=
  match fuel with
  | O => s
  | S fuel' =>
      match s with
      | EmptyString => EmptyString
      | String c s' =>
          if prefix pat s
          then by_ ++ replace_from fuel'
                        (substring (String.length pat)
                                   (String.length s - String.length pat) s)
                        pat by_
          else String c (replace_from fuel' s' pat by_)
      end
  end.

Definition replace (s pat by_ : string) : string :=
  if (pat =? "")%string then s
  else replace_from (S (String.length s)) s pat by_.

(** [INSTR(X, Y)]: 1-based position of the first occurrence of [Y] in [X],
    0 when there is none. *)
Fixpoint instr_from (pos : Z) (s pat : string) : Z :=
  if prefix pat s then pos
  else match s with
       | EmptyString => 0
       | String _ s' => instr_from (pos + 1) s' pat
       end.

Definition instr (s pat : string) : Z := instr_from 1 s pat.

(** [SUBSTR(X, Y, Z)], following [substrFunc]: [Y] is 1-based, a negative
    [Y] counts from the end, and a negative [Z] selects the characters that
    precede position [Y]. *)
Definition substr (s : string) (y z : Z) : string :=
  let len := slen s in
  let negP2 := z <? 0 in
  let p2 := Z.abs z in
  let '(p1, p2) :=
    if y <? 0 then
      let p1 := y + len in
      if p1 <? 0 then (0, Z.max 0 (p2 + p1)) else (p1, p2)
    else if 0 <? y then (y - 1, p2)
    else if 0 <? p2 then (0, p2 - 1)
    else (0, p2) in
  let '(p1, p2) :=
    if negP2 then
      let p1' := p1 - p2 in
      if p1' <? 0 then (0, p2 + p1') else (p1', p2)
    else (p1, p2) in
  substring (Z.to_nat p1) (Z.to_nat p2) s.

(** [X LIKE P]: [%] matches any run of characters, [_] any one character,
    every other character matches itself up to ASCII case. *)
Fixpoint like_chars (p : string) : string -> bool :=
  match p with
  | EmptyString => fun s => (s =? "")%string
  | String pc p' =>
      if Ascii.eqb pc "%" then
        fix star (s : string) : bool :=
          like_chars p' s ||
          match s with
          | EmptyString => false
          | String _ s' => star s'
          end
      else if Ascii.eqb pc "_" then
        fun s => match s with
                 | EmptyString => false
                 | String _ s' => like_chars p' s'
                 end
      else
        fun s => match s with
                 | EmptyString => false
                 | String c s' =>
                     Ascii.eqb (to_lower pc) (to_lower c) && like_chars p' s'
                 end
  end.

Definition like (s p : string) : bool := like_chars p s.

(** ** Numeric values

    A non-NULL numeric value is an INTEGER (64-bit) or a REAL; [option num]
    adds NULL. *)

Inductive num : Type :=
| NInt (z : Z)
| NReal (q : Q).

Definition min_int64 : Z := - 2 ^ 63.
Definition max_int64 : Z := 2 ^ 63 - 1.

Definition fits_int64 (z : Z) : bool := (min_int64 <=? z) && (z <=? max_int64).

Definition clamp64 (z : Z) : Z := Z.max min_int64 (Z.min max_int64 z).

Definition num_Q (n : num) : Q :=
  match n with
  | NInt z => inject_Z z
  | NReal q => q
  end.

(** [floor (log2 (n / d))] for positive [n] and [d]. *)
Definition log2_floor (n d : Z) : Z :=
  let k := Z.log2 n - Z.log2 d in
  if n * 2 ^ Z.max 0 (- k) <? d * 2 ^ Z.max 0 k then k - 1 else k.

(** [n / d] rounded to the nearest integer, a half going to the even
    one. *)
Definition round_half_even (n d : Z) : Z :=
  let m := n / d in
  let r := n mod d in
  if 2 * r <? d then m
  else if d <? 2 * r then m + 1
  else if Z.even m then m else m + 1.

(** The binary64 number nearest to [q] (IEEE 754 round to nearest, ties to
    even): a significand of at most 53 bits times a power of two that is at
    least [2 ^ -1074].  A value beyond the largest binary64 number, which
    IEEE arithmetic turns into an infinity, is rounded like any other. *)
Definition binary64 (q : Q) : Q :=
  let r := Qred q in
  let n := Z.abs (Qnum r) in
  let d := Z.pos (Qden r) in
  if n =? 0 then 0%Q
  else
    let e := Z.max (log2_floor n d - 52) (- 1074) in
    let m := round_half_even (n * 2 ^ Z.max 0 (- e)) (d * 2 ^ Z.max 0 e) in
    let v := Z.sgn (Qnum r) * m in
    Qred (if 0 <=? e then inject_Z (v * 2 ^ e)
          else (v # Z.to_pos (2 ^ (- e)))%Q).

(** The REAL an operand of a floating-point operation stands for: an
    INTEGER is converted first. *)
Definition to_real (n : num) : Q :=
  match n with
  | NInt z => binary64 (inject_Z z)
  | NReal q => q
  end.

(** Integer arithmetic that overflows 64 bits is redone on REALs. *)
Definition num_arith (fz : Z -> Z -> Z) (fq : Q -> Q -> Q) (a b : num) : num :=
  match a, b with
  | NInt x, NInt y =>
      if fits_int64 (fz x y) then NInt (fz x y)
      else NReal (binary64 (fq (to_real a) (to_real b)))
  | _, _ => NReal (binary64 (fq (to_real a) (to_real b)))
  end.

Definition lift2 {A} (f : A -> A -> A) (a b : option A) : option A :=
  match a, b with
  | Some x, Some y => Some (f x y)
  | _, _ => None
  end.

Definition mul : option num -> option num -> option num :=
  lift2 (num_arith Z.mul Qmult).
Definition add : option num -> option num -> option num :=
  lift2 (num_arith Z.add Qplus).

(** ** Casts of text *)

Fixpoint skip_spaces (s : string) : string :=
  match s with
  | EmptyString => EmptyString
  | String c s' => if is_space c then skip_spaces s' else s
  end.

(** Splits a string into its longest prefix of digits and the rest. *)
Fixpoint span_digits (s : string) : string * string :=
  match s with
  | EmptyString => (EmptyString, EmptyString)
  | String c s' =>
      if is_digit c
      then let '(d, r) := span_digits s' in (String c d, r)
      else (EmptyString, s)
  end.

Definition split_sign (s : string) : bool * string :=
  match s with
  | String c s' =>
      if Ascii.eqb c "-" then (true, s')
      else if Ascii.eqb c "+" then (false, s')
      else (false, s)
  | EmptyString => (false, s)
  end.

Definition signed (neg : bool) (z : Z) : Z := if neg then - z else z.

(** [CAST(text AS INT)]: leading spaces are skipped, the longest prefix that
    reads as an integer is converted, the rest is ignored; no such prefix
    gives 0, and a value outside 64 bits is clamped ([sqlite3Atoi64]). *)
Definition cast_int (s : string) : Z :=
  let '(neg, r) := split_sign (skip_spaces s) in
  clamp64 (signed neg (digits_value (fst (span_digits r)))).

(** [10 ^ e] as a rational, for any integer [e]. *)
Definition pow10 (e : Z) : Q :=
  if 0 <=? e then inject_Z (10 ^ e) else (1 # Z.to_pos (10 ^ (- e)))%Q.

(** The exponent part [e[+-]ddd] of a real literal; it counts only when at
    least one digit follows. *)
Definition exponent (s : string) : Z :=
  match s with
  | String c s' =>
      if Ascii.eqb (to_lower c) "e" then
        let '(neg, r) := split_sign s' in
        let d := fst (span_digits r) in
        if (d =? "")%string then 0 else signed neg (digits_value d)
      else 0
  | EmptyString => 0
  end.

(** [CAST(text AS FLOAT)]: as [cast_int], for the longest prefix that reads
    as a real number [ddd.ddd e[+-]ddd]; no such prefix gives 0.0
    ([sqlite3AtoF]).  The result is the binary64 number nearest to the
    decimal value, which [sqlite3AtoF] returns whenever that value is
    itself a binary64 number of at most 18 digits. *)
Definition cast_real (s : string) : Q :=
  let '(neg, r) := split_sign (skip_spaces s) in
  let '(ip, r1) := span_digits r in
  let '(fp, r2) :=
    match r1 with
    | String c r1' =>
        if Ascii.eqb c "." then span_digits r1' else (EmptyString, r1)
    | EmptyString => (EmptyString, r1)
    end in
  let m := digits_value (ip ++ fp) in
  binary64 (inject_Z (signed neg m) * pow10 (exponent r2 - slen fp))%Q.

(** ** Dates *)

Definition digit_char (d : Z) : ascii := ascii_of_N (Z.to_N (48 + d mod 10)).

(** [%0<w>d] for a non-negative number. *)
Fixpoint pad_num (w : nat) (z : Z) : string :=
  match w with
  | O => EmptyString
  | S w' => pad_num w' (z / 10) ++ String (digit_char z) EmptyString
  end.

(** [getDigits]: exactly [n] digits, read as a number in [lo, hi]. *)
Definition get_digits (n : nat) (lo hi : Z) (s : string) : option Z :=
  let d := substring 0 n s in
  if (String.length d =? n)%nat && all_digits d
     && (lo <=? digits_value d) && (digits_value d <=? hi)
  then Some (digits_value d) else None.

(** [parseYyyyMmDd] on a text of the form [YYYY-MM-DD]: the month must lie in
    1..12 and the day in 1..31, whatever the month. *)
Definition parse_ymd (s : string) : option (Z * Z * Z) :=
  if (String.length s =? 10)%nat
     && (substring 4 1 s =? "-")%string && (substring 7 1 s =? "-")%string
  then
    match get_digits 4 0 9999 s,
          get_digits 2 1 12 (substring 5 2 s),
          get_digits 2 1 31 (substring 8 2 s) with
    | Some y, Some m, Some d => Some (y, m, d)
    | _, _, _ => None
    end
  else None.

(** [computeJD]: the Julian day number, in milliseconds, of a
    year-month-day triple.  The C code divides [int]s, which truncates. *)
Definition computeJD (ymd : Z * Z * Z) : Z :=
  let '(y0, m0, d) := ymd in
  let '(y, m) := if m0 <=? 2 then (y0 - 1, m0 + 12) else (y0, m0) in
  let a := Z.quot y 100 in
  let b := 2 - a + Z.quot a 4 in
  let x1 := Z.quot (36525 * (y + 4716)) 100 in
  let x2 := Z.quot (306001 * (m + 1)) 10000 in
  (x1 + x2 + d + b) * 86400000 - 131716800000.

Definition validJulianDay (jd : Z) : bool :=
  (0 <=? jd) && (jd <=? 464269060799999).

(** [(int) q]: a C cast of a REAL to [int] truncates toward zero. *)
Definition Qtrunc (q : Q) : Z :=
  if Qle_bool 0%Q q then Qfloor q else Qceiling q.

(** [computeYMD]: the year-month-day triple of a Julian day number. *)
Definition computeYMD (jd : Z) : Z * Z * Z :=
  let z := Z.quot (jd + 43200000) 86400000 in
  let alpha :=
    Qtrunc ((inject_Z z + (3204475 # 100)) / (3652425 # 100))%Q - 52 in
  let a := z + 1 + alpha - Z.quot (alpha + 100) 4 + 25 in
  let b := a + 1524 in
  let c := Qtrunc ((inject_Z b - (1221 # 10)) / (36525 # 100))%Q in
  let d := Z.quot (36525 * Z.land c 32767) 100 in
  let e := Qtrunc (inject_Z (b - d) / (306001 # 10000))%Q in
  let x1 := Qtrunc ((306001 # 10000) * inject_Z e)%Q in
  let day := b - d - x1 in
  let month := if e <? 14 then e - 1 else e - 13 in
  let year := if 2 <? month then c - 4716 else c - 4715 in
  (year, month, day).

(** A text that reads as the number minus zero in the form
    [-0e-<digits>], blanks around it allowed. *)
Definition minus_zero (s : string) : bool :=
  match skip_spaces s with
  | String a (String b (String c (String d r))) =>
      Ascii.eqb a "-" && Ascii.eqb b "0" && Ascii.eqb (to_lower c) "e"
      && Ascii.eqb d "-"
      && negb (fst (span_digits r) =? "")%string
      && (skip_spaces (snd (span_digits r)) =? "")%string
  | _ => false
  end.

(** [DATE(X)] on the texts the cleaning query assembles: at most ten
    characters, two of them dashes that at most two characters separate.
    Such a text is a time string only in the form [YYYY-MM-DD] (the forms
    with a time of day or [now] do not fit), and it is a number, which
    [DATE] reads as a Julian day, only as minus zero in the form
    [-0e-<digits>], the day [-4713-11-24]; a negative Julian day is no
    date.  Every other text gives NULL.

    A day after the 28th is carried into the following month by going
    through the Julian day number; SQLite releases that predate this
    normalisation print the fields as parsed, which [normalize = false]
    selects. *)
Definition date (normalize : bool) (s : string) : option string :=
  match parse_ymd s with
  | None => if minus_zero s then Some "-4713-11-24" else None
  | Some (y, m, d) =>
      let jd := computeJD (y, m, d) in
      if validJulianDay jd then
        let '(y', m', d') :=
          if normalize && (28 <? d) then computeYMD jd else (y, m, d) in
        Some (pad_num 4 y' ++ "-" ++ pad_num 2 m' ++ "-" ++ pad_num 2 d')
      else None
  end.

(** ** Values, comparison and sorting *)

Inductive value : Type :=
| VNull
| VNum (n : num)
| VText (s : string).

Abbreviation VInt z := (VNum (NInt z)).
Abbreviation VReal q := (VNum (NReal q)).

Definition of_num (n : option num) : value :=
  match n with
  | None => VNull
  | Some n => VNum n
  end.

Definition of_text (s : option string) : value :=
  match s with
  | None => VNull
  | Some s => VText s
  end.

(** [X || Y]: NULL when either side is NULL. *)
Definition concat (a b : option string) : option string :=
  match a, b with
  | Some x, Some y => Some (x ++ y)
  | _, _ => None
  end.

(** The order used by GROUP BY and ORDER BY: NULL first, then numbers by
    value, then text by [memcmp]. *)
Definition value_compare (a b : value) : comparison :=
  match a, b with
  | VNull, VNull => Eq
  | VNull, _ => Lt
  | _, VNull => Gt
  | VNum x, VNum y => Qcompare (num_Q x) (num_Q y)
  | VNum _, VText _ => Lt
  | VText _, VNum _ => Gt
  | VText x, VText y => String.compare x y
  end.

Definition row : Type := list value.

Definition col (i : nat) (r : row) : value := nth i r VNull.

Inductive direction : Type := ASC | DESC.

(** One ORDER BY term: a column of the result and a direction. *)
Definition term_compare (t : nat * direction) (a b : row) : comparison :=
  match snd t with
  | ASC => value_compare (col (fst t) a) (col (fst t) b)
  | DESC => value_compare (col (fst t) b) (col (fst t) a)
  end.

Fixpoint order_compare (ts : list (nat * direction)) (a b : row) : comparison :=
  match ts with
  | [] => Eq
  | t :: ts' =>
      match term_compare t a b with
      | Eq => order_compare ts' a b
      | c => c
      end
  end.

Definition not_after (c : comparison) : bool :=
  match c with
  | Gt => false
  | _ => true
  end.

Section Sort.
Context {A : Type} (leb : A -> A -> bool).

Fixpoint insert (x : A) (l : list A) : list A :=
  match l with
  | [] => [x]
  | y :: l' => if leb x y then x :: l else y :: insert x l'
  end.

(** Insertion sort; rows that compare equal keep their relative order. *)
Definition sort (l : list A) : list A := fold_right insert [] l.
End Sort.

Fixpoint key_compare (a b : list value) : comparison :=
  match a, b with
  | [], [] => Eq
  | [], _ :: _ => Lt
  | _ :: _, [] => Gt
  | x :: a', y :: b' =>
      match value_compare x y with
      | Eq => key_compare a' b'
      | c => c
      end
  end.

Definition key_eqb (a b : list value) : bool :=
  match key_compare a b with
  | Eq => true
  | _ => false
  end.

Definition key_leb (a b : list value) : bool := not_after (key_compare a b).

(** The distinct keys of a list, each at its first occurrence. *)
Fixpoint distinct (ks : list (list value)) : list (list value) :=
  match ks with
  | [] => []
  | k :: ks' => k :: filter (fun k' => negb (key_eqb k' k)) (distinct ks')
  end.

(** ** Aggregates *)

Definition count {A} (g : list A) : value := VInt (Z.of_nat (List.length g)).

Fixpoint non_null {A} (l : list (option A)) : list A :=
  match l with
  | [] => []
  | None :: l' => non_null l'
  | Some x :: l' => x :: non_null l'
  end.

(** The REAL accumulator of [SUM] and [AVG]: the values are added one by
    one, in the order of the rows, each addition being rounded. *)
Definition real_sum (vs : list num) : Q :=
  fold_left (fun s v => binary64 (s + to_real v)%Q) vs 0%Q.

(** [AVG(X)]: the sum of the non-NULL values over their number, as a REAL;
    NULL when every value is NULL. *)
Definition avg (l : list (option num)) : option num :=
  match non_null l with
  | [] => None
  | vs =>
      Some (NReal (binary64 (real_sum vs
                             / binary64 (inject_Z (Z.of_nat (List.length vs))))))
  end.

(** The exponent field of a binary64 number, without its bias:
    [floor (log2 |q|)], and -1023 for zero and the subnormal numbers. *)
Definition exponent_field (q : Q) : Z :=
  let r := Qred q in
  let n := Z.abs (Qnum r) in
  if n =? 0 then - 1023
  else Z.max (- 1023) (log2_floor n (Z.pos (Qden r))).

(** Half a unit of the [n]-th decimal, as printf takes it from its table of
    binary64 constants; beyond nine decimals the constant [1.0e-10]
    multiplies it once for every ten. *)
Definition rounder (n : Z) : Q :=
  (binary64 (5 # Z.to_pos (10 ^ (n mod 10 + 1)))
   * Qpower (binary64 (1 # Z.to_pos (10 ^ 10))) (n / 10))%Q.

(** printf raises a value by this fraction of itself before it cuts the
    decimals, so that a decimal like 2.675, whose binary64 number lies
    below it, is rounded up. *)
Definition nudge : Q := binary64 (3 # Z.to_pos (10 ^ 16)).

(** printf writes 16 significant digits and zeros after them: the number of
    decimals, [n] at most, that [v] is written with. *)
Fixpoint decimals (n : nat) (v : Q) : nat :=
  match n with
  | O => O
  | S n' =>
      if Qle_bool (inject_Z (10 ^ 16)) (v * inject_Z (10 ^ Z.of_nat n))
      then decimals n' v
      else n
  end.

(** What [printf("%.*f", n, q)] writes for [0 <= q], as a number: half a
    unit of the last decimal and the nudge are added, and the decimals
    beyond are cut. *)
Definition printed (n : Z) (q : Q) : Q :=
  let r :=
    if n + Z.quot (exponent_field q) 3 <? 15
    then (rounder n + q * nudge)%Q
    else rounder n in
  let v := (q + r)%Q in
  let p := Z.of_nat (decimals (Z.to_nat n) v) in
  (Qfloor (v * inject_Z (10 ^ p)) # Z.to_pos (10 ^ p))%Q.

(** [ROUND(X, n)]: a REAL beyond [2 ^ 52] has no decimals and stays; with
    [n = 0] half a unit is added and the decimals are cut; otherwise the
    value is printed with [n] decimals, 30 at most, and read back as a
    REAL. *)
Definition round (x : option num) (n : Z) : option num :=
  match x with
  | None => None
  | Some v =>
      let r := to_real v in
      let n := Z.max 0 (Z.min 30 n) in
      let neg := negb (Qle_bool 0 r) in
      Some (NReal
              (if Qle_bool (Qabs r) (inject_Z (2 ^ 52)) then
                 if n =? 0 then
                   inject_Z
                     (Qtrunc (binary64 (r + (if neg then - (1 # 2) else 1 # 2))))
                 else
                   let w := binary64 (printed n (Qabs r)) in
                   if neg then (- w)%Q else w
               else r))
  end.

(** ** SELECT statements

    The two statement forms of the catalog over a table of [r] records: a
    plain projection, and a grouped aggregation with optional ORDER BY and
    LIMIT.  The select list of a grouped statement is given as a function of
    the group's key and rows. *)

Inductive select (r : Type) : Type :=
| Project (columns : r -> row)
| GroupBy (key : r -> list value)
          (columns : list value -> list r -> row)
          (order_by : list (nat * direction))
          (limit : option nat).

Arguments Project {r} columns.
Arguments GroupBy {r} key columns order_by limit.

Section Run.
Context {r : Type}.

(** The groups of a table, in ascending key order. *)
Definition groups (key : r -> list value) (t : list r)
  : list (list value * list r) :=
  map (fun k => (k, filter (fun x => key_eqb (key x) k) t))
      (sort key_leb (distinct (map key t))).

Definition apply_limit (limit : option nat) (rows : list row) : list row :=
  match limit with
  | None => rows
  | Some n => firstn n rows
  end.

(** ORDER BY.  SQL leaves open in which order rows come out that the
    ORDER BY terms do not tell apart; the stable sort keeps them in group
    order here, and SQLite's sorter may return them otherwise.  No
    statement below depends on the order of such rows. *)
Definition order_rows (ts : list (nat * direction)) (rows : list row)
  : list row :=
  sort (fun a b => not_after (order_compare ts a b)) rows.

Definition run (q : select r) (t : list r) : list row :=
  match q with
  | Project columns => map columns t
  | GroupBy key columns order_by limit =>
      apply_limit limit
        (order_rows order_by
           (map (fun g => columns (fst g) (snd g)) (groups key t)))
  end.
End Run.

End SQLite.

(* ================================================================== *)
(** * Python and pandas *)
(* ================================================================== *)

Module Python.

Inductive exn : Type := ValueError | TypeError | IndexError | KeyError.

(** The outcome of evaluating an expression: a value, or a raised
    exception that nothing in the script catches. *)
Inductive result (A : Type) : Type :=
| Ok (a : A)
| Raise (e : exn).

Arguments Ok {A} a.
Arguments Raise {A} e.

Definition bind {A B} (m : result A) (k : A -> result B) : result B :=
  match m with
  | Ok a => k a
  | Raise e => Raise e
  end.

Notation "x <- m ;; k" := (bind m (fun x => k))
  (at level 61, m at next level, right associativity).

(** Element-wise evaluation, left to right, stopping at the first raise. *)
Fixpoint mapM {A B} (f : A -> result B) (l : list A) : result (list B) :=
  match l with
  | [] => Ok []
  | x :: l' => y <- f x ;; ys <- mapM f l' ;; Ok (y :: ys)
  end.

(** [d[k]] on a dict given by its items in insertion order. *)
Fixpoint getitem {V} (d : list (string * V)) (k : string) : result V :=
  match d with
  | [] => Raise KeyError
  | (k', v) :: d' => if (k' =? k)%string then Ok v else getitem d' k
  end.

(** ** [int] *)

(** The ASCII characters [int] skips around a literal: space, TAB, LF, VT,
    FF and CR. *)
Definition is_space (c : ascii) : bool :=
  let n := SQLite.code c in
  (n =? 32) || ((9 <=? n) && (n <=? 13)).

Fixpoint lstrip (s : list ascii) : list ascii :=
  match s with
  | [] => []
  | c :: s' => if is_space c then lstrip s' else s
  end.

Definition strip (s : string) : list ascii :=
  rev (lstrip (rev (lstrip (list_ascii_of_string s)))).

(** Decimal digits, with single underscores allowed between digits. *)
Fixpoint int_digits (after_digit : bool) (acc : Z) (s : list ascii)
  : option Z :=
  match s with
  | [] => if after_digit then Some acc else None
  | c :: s' =>
      if SQLite.is_digit c
      then int_digits true (10 * acc + SQLite.digit_val c) s'
      else if Ascii.eqb c "_" && after_digit then int_digits false acc s'
      else None
  end.

(** [int(s)] for a [str]: surrounding whitespace is dropped, a sign may
    lead, and the rest must be a decimal literal; anything else raises
    [ValueError]. *)
Definition int_of_str (s : string) : result Z :=
  let '(neg, ds) :=
    match strip s with
    | c :: r =>
        if Ascii.eqb c "-" then (true, r)
        else if Ascii.eqb c "+" then (false, r)
        else (false, c :: r)
    | [] => (false, [])
    end in
  match int_digits false 0 ds with
  | Some z => Ok (SQLite.signed neg z)
  | None => Raise ValueError
  end.

(** [int(x)] for an element of an object column: [None] raises
    [TypeError]. *)
Definition int_of_object (x : option string) : result Z :=
  match x with
  | None => Raise TypeError
  | Some s => int_of_str s
  end.

(** [int(x)] for a number truncates toward zero. *)
Definition int_of_num (n : SQLite.num) : Z :=
  match n with
  | SQLite.NInt z => z
  | SQLite.NReal q => SQLite.Qtrunc q
  end.

(** ** Series *)

(** [Series.astype(int)] on an object column. *)
Definition astype_int (col : list (option string)) : result (list Z) :=
  mapM int_of_object col.

(** [Series.isin(values)]: a missing value is in no list of strings. *)
Definition isin (x : option string) (values : list string) : bool :=
  match x with
  | None => false
  | Some s => existsb (String.eqb s) values
  end.

Section Reduce.
Context {A : Type} (better : A -> A -> bool).

(** [Series.min()] / [Series.max()] with [skipna=True]: a fold over the
    values that are present; [None] stands for the NaN that pandas
    returns when there is none. *)
Definition reduce (col : list (option A)) : option A :=
  match SQLite.non_null col with
  | [] => None
  | x :: xs => Some (fold_left (fun m y => if better y m then y else m) xs x)
  end.
End Reduce.

Definition str_min : list (option string) -> option string :=
  reduce String.ltb.
Definition str_max : list (option string) -> option string :=
  reduce (fun a b => String.ltb b a).

Definition num_lt (a b : SQLite.num) : bool :=
  negb (Qle_bool (SQLite.num_Q b) (SQLite.num_Q a)).

Definition num_min : list (option SQLite.num) -> option SQLite.num :=
  reduce num_lt.
Definition num_max : list (option SQLite.num) -> option SQLite.num :=
  reduce (fun a b => num_lt b a).

(** [int(s.min())] on a column of strings: [int] of NaN raises
    [ValueError]. *)
Definition int_of_str_stat (m : option string) : result Z :=
  match m with
  | None => Raise ValueError
  | Some s => int_of_str s
  end.

(** [int(s.min())] on a numeric column. *)
Definition int_of_num_stat (m : option SQLite.num) : result Z :=
  match m with
  | None => Raise ValueError
  | Some n => Ok (int_of_num n)
  end.

(** [x >= lo] and [x <= hi] on a numeric cell: both are [False] on NaN. *)
Definition ge_cell (x : option SQLite.num) (lo : Z) : bool :=
  match x with
  | None => false
  | Some n => Qle_bool (inject_Z lo) (SQLite.num_Q n)
  end.

Definition le_cell (x : option SQLite.num) (hi : Z) : bool :=
  match x with
  | None => false
  | Some n => Qle_bool (SQLite.num_Q n) (inject_Z hi)
  end.

(** The dtype a numeric result column gets in [read_sql_query]: [int64]
    when every value is an INTEGER, [float64] (with NaN for NULL)
    otherwise. *)
Definition is_int (x : option SQLite.num) : bool :=
  match x with
  | Some (SQLite.NInt _) => true
  | _ => false
  end.

(** An [int64] value stored in a [float64] column is rounded to the
    nearest binary64 number. *)
Definition to_float (x : option SQLite.num) : option SQLite.num :=
  option_map (fun n => SQLite.NReal (Qred (SQLite.to_real n))) x.

Definition numeric_column (col : list (option SQLite.num))
  : list (option SQLite.num) :=
  if forallb is_int col then col else map to_float col.

End Python.

(* ================================================================== *)
(** * The dashboard script *)
(* ================================================================== *)

Module Dashboard.

Import SQLite Python.

(** ** Tables *)

(** A row of [flights], the table loaded from the CSV file. *)
Record raw_record : Type := {
  Company : option string;
  Cabin_Class : option string;
  Origin : option string;
  Destination : option string;
  Flight_Price : option string;
  Duration_Time : option string;
  Date : option string;
  Departure_Time : option string
}.

(** A row of [df_cleaned]: the raw columns and the four derived ones. *)
Record cleaned_record : Type := {
  raw : raw_record;
  Price_Float : option num;
  Duration_Minutes : option num;
  Travel_Date : option string;
  Departure_Hour : option string
}.

(** ** Field parsers: the column expressions of [query_cleaned] *)

(** [CAST(REPLACE([Flight Price], ',', '') AS FLOAT)] *)
Definition parse_price (s : option string) : option num :=
  option_map (fun x => NReal (cast_real (replace x "," ""))) s.

(** The [CASE] expression of [Duration_Minutes].  A NULL operand makes both
    LIKE tests NULL, so the ELSE branch runs and yields NULL. *)
Definition parse_duration (s : option string) : option num :=
  match s with
  | None => None
  | Some x =>
      if like x "%h %m" then
        add (mul (Some (NInt (cast_int (substr x 1 (instr x "h" - 1)))))
                 (Some (NInt 60)))
            (Some (NInt (cast_int (substr x (instr x "h" + 2) (slen x)))))
      else if like x "%h" then
        mul (Some (NInt (cast_int (substr x 1 (instr x "h" - 1)))))
            (Some (NInt 60))
      else Some (NInt (cast_int (replace x "m" "")))
  end.

(** The text handed to [DATE]: year, month and day cut out of fixed
    positions and joined with dashes. *)
Definition reordered_date (x : string) : string :=
  substr x 7 4 ++ "-" ++ substr x 4 2 ++ "-" ++ substr x 1 2.

(** [SUBSTR([Departure Time], 1, 2)] *)
Definition parse_departure_hour (s : option string) : option string :=
  option_map (fun x => substr x 1 2) s.

Section Pipeline.

(** Whether the SQLite library in use normalises out-of-month days in
    [DATE]; see [SQLite.date]. *)
Variable normalize_dates : bool.

(** [DATE(SUBSTR([Date], 7, 4) || '-' || SUBSTR([Date], 4, 2) || '-' ||
    SUBSTR([Date], 1, 2))] *)
Definition parse_date (s : option string) : option string :=
  match s with
  | None => None
  | Some x => date normalize_dates (reordered_date x)
  end.

(** ** Relation builder *)

(** One result row of [query_cleaned], before pandas assigns dtypes. *)
Definition query_cleaned (r : raw_record) : cleaned_record :=
  {| raw := r;
     Price_Float := parse_price (Flight_Price r);
     Duration_Minutes := parse_duration (Duration_Time r);
     Travel_Date := parse_date (Date r);
     Departure_Hour := parse_departure_hour (Departure_Time r) |}.

Definition set_numeric (r : cleaned_record) (pd : option num * option num)
  : cleaned_record :=
  {| raw := raw r;
     Price_Float := fst pd;
     Duration_Minutes := snd pd;
     Travel_Date := Travel_Date r;
     Departure_Hour := Departure_Hour r |}.

(** [df_cleaned = pd.read_sql_query(query_cleaned, conn)]: the query has
    no WHERE clause, and the numeric columns get their dtype. *)
Definition df_cleaned (flights : list raw_record) : list cleaned_record :=
  let rows := map query_cleaned flights in
  let prices := numeric_column (map Price_Float rows) in
  let durations := numeric_column (map Duration_Minutes rows) in
  map (fun x => set_numeric (fst x) (snd x))
      (combine rows (combine prices durations)).

(** ** Filter options *)

(** [sorted(col.dropna().unique())] *)
Definition options (col : list (option string)) : list string :=
  sort String.leb (nodup string_dec (non_null col)).

(** Lines 39-44: with at most one cabin class there is no widget, and the
    message shown instead reads [all_classes[0]]. *)
Definition selected_classes (df : list cleaned_record)
           (widget : list string) : result (list string) :=
  let all_classes := options (map (fun r => Cabin_Class (raw r)) df) in
  if (1 <? List.length all_classes)%nat then Ok widget
  else match all_classes with
       | [] => Raise IndexError
       | _ :: _ => Ok all_classes
       end.

Record bounds : Type := {
  min_hour : Z; max_hour : Z;
  min_price : Z; max_price : Z;
  min_duration : Z; max_duration : Z
}.

(** Lines 52-62: the six slider bounds, in the order the script computes
    them. *)
Definition derive_bounds (df : list cleaned_record) : result bounds :=
  h0 <- int_of_str_stat (str_min (map Departure_Hour df)) ;;
  h1 <- int_of_str_stat (str_max (map Departure_Hour df)) ;;
  p0 <- int_of_num_stat (num_min (map Price_Float df)) ;;
  p1 <- int_of_num_stat (num_max (map Price_Float df)) ;;
  d0 <- int_of_num_stat (num_min (map Duration_Minutes df)) ;;
  d1 <- int_of_num_stat (num_max (map Duration_Minutes df)) ;;
  Ok {| min_hour := h0; max_hour := h1;
        min_price := p0; max_price := p1;
        min_duration := d0; max_duration := d1 |}.

(** ** Filter engine *)

(** What the sidebar widgets return. *)
Record filter_spec : Type := {
  selected_airlines : list string;
  selected_cabin_classes : list string;
  selected_origins : list string;
  selected_destinations : list string;
  departure_hour_range : Z * Z;
  price_range : Z * Z;
  duration_range : Z * Z
}.

(** The boolean mask of [df_filtered] at one row, given the row's
    departure hour as converted by [astype(int)]. *)
Definition keep (spec : filter_spec) (r : cleaned_record) (hour : Z) : bool :=
  isin (Company (raw r)) (selected_airlines spec)
  && isin (Cabin_Class (raw r)) (selected_cabin_classes spec)
  && isin (Origin (raw r)) (selected_origins spec)
  && isin (Destination (raw r)) (selected_destinations spec)
  && (fst (departure_hour_range spec) <=? hour)
  && (hour <=? snd (departure_hour_range spec))
  && ge_cell (Price_Float r) (fst (price_range spec))
  && le_cell (Price_Float r) (snd (price_range spec))
  && ge_cell (Duration_Minutes r) (fst (duration_range spec))
  && le_cell (Duration_Minutes r) (snd (duration_range spec)).

(** Lines 64-75.  The mask is computed over whole columns before any row
    is selected, so [astype(int)] sees every departure hour of
    [df_cleaned]. *)
Definition df_filtered (df : list cleaned_record) (spec : filter_spec)
  : result (list cleaned_record) :=
  hours <- astype_int (map Departure_Hour df) ;;
  Ok (map fst (filter (fun x => keep spec (fst x) (snd x))
                      (combine df hours))).

(** ** Aggregate catalog *)

Definition Route (r : cleaned_record) : option string :=
  concat (concat (Origin (raw r)) (Some " → ")) (Destination (raw r)).

Definition Hour (r : cleaned_record) : option string :=
  concat (Departure_Hour r) (Some ":00").

Definition queries : list (string * select cleaned_record) :=
  [ ("Average Price per Airline",
     GroupBy (fun r => [of_text (Company (raw r))])
             (fun k g => k ++ [of_num (round (avg (map Price_Float g)) 2)])
             [(1%nat, DESC)] None);
    ("Flight Count per Route",
     GroupBy (fun r => [of_text (Route r)])
             (fun k g => k ++ [count g])
             [(1%nat, DESC)] None);
    ("Average Duration per Route",
     GroupBy (fun r => [of_text (Route r)])
             (fun k g =>
                k ++ [of_num (round (avg (map Duration_Minutes g)) 2)])
             [(1%nat, DESC)] None);
    ("Cabin Class Share",
     GroupBy (fun r => [of_text (Cabin_Class (raw r))])
             (fun k g => k ++ [count g])
             [] None);
    ("Flights per Airline",
     GroupBy (fun r => [of_text (Company (raw r))])
             (fun k g => k ++ [count g])
             [(1%nat, DESC)] None);
    ("Price Trends Over Time",
     GroupBy (fun r => [of_text (Travel_Date r)])
             (fun k g => k ++ [of_num (round (avg (map Price_Float g)) 2)])
             [(0%nat, ASC)] None);
    ("Departure Hour Popularity",
     GroupBy (fun r => [of_text (Hour r)])
             (fun k g => k ++ [count g])
             [(1%nat, DESC)] None);
    ("Cabin Class per Airline",
     GroupBy (fun r => [of_text (Company (raw r));
                        of_text (Cabin_Class (raw r))])
             (fun k g => k ++ [count g])
             [(0%nat, ASC); (2%nat, DESC)] None);
    ("Price Distribution by Airline",
     Project (fun r => [of_text (Company (raw r)); of_num (Price_Float r)]));
    ("Busiest Airports (Top 15)",
     GroupBy (fun r => [of_text (Origin (raw r))])
             (fun k g =>
                k ++ [count g;
                      of_num (round (avg (map Price_Float g)) 2)])
             [(1%nat, DESC)] (Some 15%nat));
    ("Price vs Duration Scatter Plot",
     Project (fun r => [of_num (Price_Float r);
                        of_num (Duration_Minutes r);
                        of_text (Company (raw r))])) ]%list.

(** [run_query] against [flights_clean_filtered], the table written from
    [df_filtered]. *)
Definition run_query (query : select cleaned_record)
           (flights_clean_filtered : list cleaned_record) : list row :=
  run query flights_clean_filtered.

(** ** Chart dispatch *)

Definition chart_titles : list (string * string) :=
  [ ("Average Price per Airline", "Average Flight Price by Airline");
    ("Flight Count per Route", "Most Popular Routes by Flight Count");
    ("Average Duration per Route", "Average Flight Duration by Route");
    ("Cabin Class Share", "Distribution of Cabin Classes");
    ("Flights per Airline", "Total Flights by Airline");
    ("Price Trends Over Time", "Daily Average Price Over Time");
    ("Departure Hour Popularity", "Departure Time Popularity");
    ("Cabin Class per Airline", "Airline-wise Cabin Class Breakdown");
    ("Price Distribution by Airline",
     "Price Distribution & Outliers by Airline");
    ("Busiest Airports (Top 15)",
     "Top 15 Busiest Departure Airports & Their Avg Price");
    ("Price vs Duration Scatter Plot",
     "Price vs Duration Scatter Plot by Airline");
    ("Monthly Flight Volume",
     "Monthly Flight Volume & Average Price Trend") ].

Inductive chart : Type :=
| bar | pie | line | stacked_bar | box | bar_and_line | scatter_trendline
| annotation (text : string).

(** What is handed to [st.plotly_chart]. *)
Record figure : Type := {
  kind : chart;
  title : option string;
  data : list row
}.

Definition titled (k : chart) (chart_option : string) (df_viz : list row)
  : result figure :=
  t <- getitem chart_titles chart_option ;;
  Ok {| kind := k; title := Some t; data := df_viz |}.

(** Line 158: [df_viz = run_query(queries[chart_option])]. *)
Definition df_viz (chart_option : string)
           (flights_clean_filtered : list cleaned_record) : result (list row) :=
  query <- getitem queries chart_option ;;
  Ok (run_query query flights_clean_filtered).

(** Lines 158-240: the query is looked up and run first, then the chart is
    chosen by comparing [chart_option] with each name in turn. *)
Definition plot (chart_option : string)
           (flights_clean_filtered : list cleaned_record) : result figure :=
  df_viz <- df_viz chart_option flights_clean_filtered ;;
  if (chart_option =? "Average Price per Airline")%string
  then titled bar chart_option df_viz
  else if (chart_option =? "Flight Count per Route")%string
  then titled bar chart_option df_viz
  else if (chart_option =? "Average Duration per Route")%string
  then titled bar chart_option df_viz
  else if (chart_option =? "Cabin Class Share")%string
  then titled pie chart_option df_viz
  else if (chart_option =? "Flights per Airline")%string
  then titled bar chart_option df_viz
  else if (chart_option =? "Price Trends Over Time")%string
  then titled line chart_option df_viz
  else if (chart_option =? "Departure Hour Popularity")%string
  then titled bar chart_option df_viz
  else if (chart_option =? "Cabin Class per Airline")%string
  then titled stacked_bar chart_option df_viz
  else if (chart_option =? "Price Distribution by Airline")%string
  then titled box chart_option df_viz
  else if (chart_option =? "Busiest Airports (Top 15)")%string
  then titled bar_and_line chart_option df_viz
  else if (chart_option =? "Price vs Duration Scatter Plot")%string
  then titled scatter_trendline chart_option df_viz
  else Ok {| kind := annotation "Chart type not implemented yet.";
             title := None; data := [] |}.

End Pipeline.

End Dashboard.

(* ================================================================== *)
(** * Properties of the pipeline *)
(* ================================================================== *)

Import SQLite Python Dashboard.

(** ** Notions of the specification and sample data *)

(** The keys of [queries]. *)
Definition catalog_names : list string := map fst queries.

(** A row of [flights] from its eight cells. *)
Definition flight (company cabin origin destination price duration date time
                   : option string) : raw_record :=
  {| Company := company; Cabin_Class := cabin; Origin := origin;
     Destination := destination; Flight_Price := price;
     Duration_Time := duration; Date := date; Departure_Time := time |}.

(** A flight whose price cell is empty in the CSV file. *)
Definition flight_without_price : raw_record :=
  flight (Some "IndiGo") (Some "Economy") (Some "DEL") (Some "BOM")
         None (Some "2h 10m") (Some "05-03-2024") (Some "09:30").

(** A flight leaving at [time]. *)
Definition flight_at (time : string) : raw_record :=
  flight (Some "IndiGo") (Some "Economy") (Some "DEL") (Some "BOM")
         (Some "4,500") (Some "2h 10m") (Some "05-03-2024") (Some time).

(** Three flights, the second with an hour that is not zero-padded. *)
Definition unpadded_flights : list raw_record :=
  [flight_at "09:00"; flight_at "1:30"; flight_at "23:00"].

(** The widgets left at their defaults for such flights. *)
Definition select_all : filter_spec :=
  {| selected_airlines := ["IndiGo"];
     selected_cabin_classes := ["Economy"];
     selected_origins := ["DEL"];
     selected_destinations := ["BOM"];
     departure_hour_range := (0, 23);
     price_range := (0, 100000);
     duration_range := (0, 10000) |}.

(** The same with every airline deselected. *)
Definition select_no_airline : filter_spec :=
  {| selected_airlines := [];
     selected_cabin_classes := ["Economy"];
     selected_origins := ["DEL"];
     selected_destinations := ["BOM"];
     departure_hour_range := (0, 23);
     price_range := (0, 100000);
     duration_range := (0, 10000) |}.

(** Some categorical attribute has nothing selected. *)
Definition empty_category (spec : filter_spec) : Prop :=
  selected_airlines spec = [] \/ selected_cabin_classes spec = []
  \/ selected_origins spec = [] \/ selected_destinations spec = [].

(** What [REPLACE(X, c, '')] computes for a one-character pattern. *)
Fixpoint remove_char (c : ascii) (s : string) : string :=
  match s with
  | EmptyString => EmptyString
  | String d s' =>
      if Ascii.eqb c d then remove_char c s' else String d (remove_char c s')
  end.

(** A text that no number can start: empty, or led by a character that is
    neither blank, sign, digit nor decimal point. *)
Definition starts_no_number (s : string) : bool :=
  match s with
  | EmptyString => true
  | String c _ =>
      negb (SQLite.is_space c || Ascii.eqb c "-" || Ascii.eqb c "+"
            || is_digit c || Ascii.eqb c ".")
  end.

(** A string's digits end where the string ends or a non-digit stands. *)
Definition ends_digits (r : string) : bool :=
  match r with
  | EmptyString => true
  | String c _ => negb (is_digit c)
  end.

(** The last character of a text. *)
Fixpoint last_char (s : string) : option ascii :=
  match s with
  | EmptyString => None
  | String c EmptyString => Some c
  | String _ s' => last_char s'
  end.

(** The text ends with [c], up to ASCII case. *)
Definition last_is (c : ascii) (s : string) : bool :=
  match last_char s with
  | Some d => Ascii.eqb (to_lower c) (to_lower d)
  | None => false
  end.

(** The rows put in one group with [x]. *)
Definition group_of {r} (key : r -> list value) (x : r) (t : list r) : list r :=
  filter (fun y => key_eqb (key y) (key x)) t.

(** The rows a grouped statement computes, before ORDER BY and LIMIT. *)
Definition group_rows {r} (key : r -> list value)
           (columns : list value -> list r -> row) (t : list r) : list row :=
  map (fun g => columns (fst g) (snd g)) (groups key t).

(** Equality of cells is decidable. *)
Definition cell_eq_dec (x y : option string) : {x = y} + {x <> y} :=
  match x, y with
  | None, None => left eq_refl
  | Some a, Some b =>
      match string_dec a b with
      | left e => left (f_equal Some e)
      | right n =>
          right (fun e : Some a = Some b =>
                   n (f_equal (fun c => match c with
                                        | Some s => s
                                        | None => a
                                        end) e))
      end
  | Some a, None =>
      right (fun e : Some a = None =>
               eq_ind (Some a) (fun c => match c with
                                         | Some _ => True
                                         | None => False
                                         end) I None e)
  | None, Some b =>
      right (fun e : None = Some b =>
               eq_ind None (fun c => match c with
                                     | Some _ => False
                                     | None => True
                                     end) I (Some b) e)
  end.











(** A cleaned row of [company] with the raw price [price]. *)
Definition priced (company : string) (price : option string) : cleaned_record :=
  query_cleaned true
    (flight (Some company) (Some "Economy") (Some "DEL") (Some "BOM")
            price (Some "2h 10m") (Some "05-03-2024") (Some "09:30")).

(** Three rows of one airline, the second without a price. *)
Definition three_prices : list cleaned_record :=
  [priced "IndiGo" (Some "100"); priced "IndiGo" None;
   priced "IndiGo" (Some "200")].



(** The [Departure_Count] column. *)
Definition departures (out : row) : Z :=
  match col 1 out with
  | VInt z => z
  | _ => 0
  end.

(** [a] may stand before [b] in descending order of departures. *)
Definition more_departures (a b : row) : bool :=
  departures b <=? departures a.

(** [n] flights leaving [origin]. *)
Definition departing (origin : string) (n : nat) : list cleaned_record :=
  repeat (query_cleaned true
            (flight (Some "IndiGo") (Some "Economy") (Some origin) (Some "BOM")
                    (Some "4,500") (Some "2h 10m") (Some "05-03-2024")
                    (Some "09:30"))) n.

(** Twenty airport codes, in alphabetical order. *)
Definition twenty_origins : list string :=
  ["AMD"; "ATQ"; "BBI"; "BLR"; "BOM"; "CCU"; "COK"; "DEL"; "GAU"; "GOI";
   "HYD"; "IDR"; "IXC"; "JAI"; "LKO"; "MAA"; "NAG"; "PAT"; "PNQ"; "TRV"].

(** Twenty origins with 1, 2, ..., 20 departures, the busiest last in
    alphabetical order. *)
Definition twenty_airports : list cleaned_record :=
  flat_map (fun x => departing (fst x) (snd x))
           (combine twenty_origins (seq 1 20)).

(** The Gregorian calendar, for the specification's "valid calendar
    date". *)
Definition is_leap (y : Z) : bool :=
  ((y mod 4 =? 0) && negb (y mod 100 =? 0)) || (y mod 400 =? 0).

(** The number of days of month [m] in year [y]. *)
Definition days_in_month (y m : Z) : Z :=
  if m =? 2 then (if is_leap y then 29 else 28)
  else if (m =? 4) || (m =? 6) || (m =? 9) || (m =? 11) then 30
  else 31.

(** [computeYMD] on integers: each truncated REAL quotient written as an
    integer division. *)
Definition computeYMD_Z (jd : Z) : Z * Z * Z :=
  let z := (jd + 43200000) / 86400000 in
  let alpha := (4 * z + 128179) / 146097 - 52 in
  let a := z + 1 + alpha - (alpha + 100) / 4 + 25 in
  let b := a + 1524 in
  let c := (20 * b - 2442) / 7305 in
  let d := (36525 * c) / 100 in
  let e := (10000 * (b - d)) / 306001 in
  let x1 := (306001 * e) / 10000 in
  let day := b - d - x1 in
  let month := if e <? 14 then e - 1 else e - 13 in
  let year := if 2 <? month then c - 4716 else c - 4715 in
  (year, month, day).

(** 400 Gregorian years, in milliseconds. *)
Definition period : Z := 146097 * 86400000.

(** Equality of year-month-day triples. *)
Definition triple_eqb (a b : Z * Z * Z) : bool :=
  let '(a1, a2, a3) := a in
  let '(b1, b2, b3) := b in
  (a1 =? b1) && (a2 =? b2) && (a3 =? b3).

(** The days 29 to 31 that year [y] has go through the Julian day number
    and back unchanged. *)
Definition roundtrip_ok (y : Z) : bool :=
  forallb (fun m =>
    forallb (fun d =>
      if d <=? days_in_month y m
      then triple_eqb (computeYMD_Z (computeJD (y, m, d))) (y, m, d)
      else true)
      [29; 30; 31])
    [1; 2; 3; 4; 5; 6; 7; 8; 9; 10; 11; 12].

(** The day-month-year text of three numbers. *)
Definition dmy (d m y : Z) : string :=
  pad_num 2 d ++ "-" ++ pad_num 2 m ++ "-" ++ pad_num 4 y.

(** The ISO text of three numbers. *)
Definition iso (y m d : Z) : string :=
  pad_num 4 y ++ "-" ++ pad_num 2 m ++ "-" ++ pad_num 2 d.

(** ** Notions for further properties of the program *)

(** [a] is at most [b] as numbers. *)
Definition num_le (a b : num) : Prop := (num_Q a <= num_Q b)%Q.

(** The mask of [df_filtered] at a row whose departure hour converts. *)
Definition passes (spec : filter_spec) (r : cleaned_record) : bool :=
  match int_of_object (Departure_Hour r) with
  | Ok h => keep spec r h
  | Raise _ => false
  end.

(** The sizes of the groups of [t] for the keys [ks], added up. *)
Fixpoint group_sizes {r} (key : r -> list value) (ks : list (list value))
         (t : list r) : nat :=
  match ks with
  | [] => 0
  | k :: ks' =>
      List.length (filter (fun x => key_eqb (key x) k) t)
      + group_sizes key ks' t
  end.

(** The count held at column [i] of a result row. *)
Definition count_at (i : nat) (out : row) : Z :=
  match col i out with
  | VInt z => z
  | _ => 0
  end.

(** The counts of column [i], added up. *)
Definition total (i : nat) (rows : list row) : Z :=
  fold_right Z.add 0 (map (count_at i) rows).

(** [name] returns rows that each count at least one flight at column [i]
    and together count every row of the table. *)
Definition counts_rows (i : nat) (name : string) (t : list cleaned_record)
  : Prop :=
  exists rows,
    df_viz name t = Ok rows
    /\ total i rows = Z.of_nat (List.length t)
    /\ Forall (fun out => 1 <= count_at i out) rows.

(** The rows stand in descending order of the count at column [i]. *)
Definition descending_counts (i : nat) (rows : list row) : Prop :=
  StronglySorted (fun a b => count_at i b <= count_at i a) rows.

(** The text [a] may stand before the text [b] in ascending order; a
    missing text stands before every text. *)
Definition text_before (a b : value) : Prop :=
  match a, b with
  | VNull, VNull => True
  | VNull, VText _ => True
  | VText x, VText y => String.leb x y = true
  | _, _ => False
  end.

(** The rows stand in ascending order of the text at column [i]. *)
Definition ascending_texts (i : nat) (rows : list row) : Prop :=
  StronglySorted (fun a b => text_before (col i a) (col i b)) rows.

(** The character [c] occurs in the text. *)
Fixpoint has_char (c : ascii) (s : string) : bool :=
  match s with
  | EmptyString => false
  | String d s' => Ascii.eqb c d || has_char c s'
  end.

(** The filter specification of the untouched sidebar: every multiselect
    holds all its options ([default=all_...]) and every slider spans the
    derived bounds ([value=(min, max)]). *)
Definition default_spec (df : list cleaned_record) (b : bounds) : filter_spec :=
  {| selected_airlines := options (map (fun r => Company (raw r)) df);
     selected_cabin_classes := options (map (fun r => Cabin_Class (raw r)) df);
     selected_origins := options (map (fun r => Origin (raw r)) df);
     selected_destinations := options (map (fun r => Destination (raw r)) df);
     departure_hour_range := (min_hour b, max_hour b);
     price_range := (min_price b, max_price b);
     duration_range := (min_duration b, max_duration b) |}.

(** A cell holds a whole number. *)
Definition whole (x : option num) : Prop :=
  exists n z, x = Some n /\ (num_Q n == inject_Z z)%Q.

(** The catalog entries that return the airline, with the column that
    holds it. *)
Definition airline_entries : list (string * nat) :=
  [ ("Average Price per Airline", 0%nat);
    ("Flights per Airline", 0%nat);
    ("Cabin Class per Airline", 0%nat);
    ("Price Distribution by Airline", 0%nat);
    ("Price vs Duration Scatter Plot", 2%nat) ].

(** Column [i] of every row the statement produces is the airline of a
    row it was computed from. *)
Definition shows_airline (i : nat) (q : select cleaned_record) : Prop :=
  match q with
  | Project columns =>
      forall x, col i (columns x) = of_text (Company (raw x))
  | GroupBy key columns _ _ =>
      forall x g, col i (columns (key x) g) = of_text (Company (raw x))
  end.

(** The selection [s1] is at most as wide as [s2]: every multiselect
    holds a subset, every slider a sub-range. *)
Definition narrower (s1 s2 : filter_spec) : Prop :=
  incl (selected_airlines s1) (selected_airlines s2)
  /\ incl (selected_cabin_classes s1) (selected_cabin_classes s2)
  /\ incl (selected_origins s1) (selected_origins s2)
  /\ incl (selected_destinations s1) (selected_destinations s2)
  /\ fst (departure_hour_range s2) <= fst (departure_hour_range s1)
  /\ snd (departure_hour_range s1) <= snd (departure_hour_range s2)
  /\ fst (price_range s2) <= fst (price_range s1)
  /\ snd (price_range s1) <= snd (price_range s2)
  /\ fst (duration_range s2) <= fst (duration_range s1)
  /\ snd (duration_range s1) <= snd (duration_range s2).

(** A flight whose duration cell is empty in the CSV file. *)
Definition flight_without_duration : raw_record :=
  flight (Some "IndiGo") (Some "Economy") (Some "DEL") (Some "BOM")
         (Some "4,500") None (Some "05-03-2024") (Some "09:30").

(** One flight of each of three airlines. *)
Definition three_airlines : list cleaned_record :=
  [priced "AirAsia" (Some "3,900"); priced "IndiGo" (Some "4,500");
   priced "Vistara" (Some "6,100")].

(** Two flights with zero-padded departure times. *)
Definition padded_flights : list raw_record :=
  [flight_at "09:00"; flight_at "23:00"].

(** ** The colour of an airline *)

(** A cell that takes part in a comparison of [sorted]: a text compares,
    a missing value raises [TypeError]. *)
Definition comparable (c : option string) : result string :=
  match c with
  | Some s => Ok s
  | None => Raise TypeError
  end.

(** [sorted(cells)] for the distinct cells of a text column: a list of
    fewer than two cells is returned without any comparison, and a
    comparison with a missing value raises. *)
Definition sorted (cells : list (option string))
  : result (list (option string)) :=
  match cells with
  | [] | [_] => Ok cells
  | _ => texts <- mapM comparable cells ;;
         Ok (map Some (sort String.leb texts))
  end.

(** [enumerate(l)] *)
Definition enumerate {A} (l : list A) : list (nat * A) :=
  combine (seq 0 (List.length l)) l.

Section Colors.
(** [px.colors.qualitative.Plotly], a constant list that is not empty. *)
Variable first_color : string.
Variable more_colors : list string.

Definition color_palette : list string := first_color :: more_colors.

(** Line 79. *)
Definition unique_airlines (df_filtered : list cleaned_record)
  : result (list (option string)) :=
  sorted (nodup cell_eq_dec (map (fun r => Company (raw r)) df_filtered)).

(** Line 81: the dictionary as the list of its items, in insertion
    order. *)
Definition airline_color_map (df_filtered : list cleaned_record)
  : result (list (option string * string)) :=
  airlines <- unique_airlines df_filtered ;;
  Ok (map (fun ia =>
             (snd ia,
              nth (Nat.modulo (fst ia) (List.length color_palette))
                  color_palette first_color))
          (enumerate airlines)).
End Colors.

(** ** Lists and results *)

Lemma map_fst_combine_le {A B} (l : list A) (l' : list B) :
  (List.length l <= List.length l')%nat -> map fst (combine l l') = l.
Proof.
  revert l'; induction l as [|x l IH]; intros [|y l'] H; simpl in *;
    try reflexivity; try lia.
  f_equal; apply IH; lia.
Qed.

Lemma numeric_column_length (c : list (option num)) :
  List.length (numeric_column c) = List.length c.
Proof.
  unfold numeric_column; destruct (forallb is_int c); auto using length_map.
Qed.

Lemma getitem_missing {V} (d : list (string * V)) (k : string) :
  ~ In k (map fst d) -> getitem d k = Raise KeyError.
Proof.
  induction d as [|[k' v] d IH]; simpl; intros H; [reflexivity|].
  destruct (String.eqb_spec k' k) as [->|_]; [tauto|].
  apply IH; tauto.
Qed.

Lemma getitem_found {V} (d : list (string * V)) (k : string) (v : V) :
  getitem d k = Ok v -> In (k, v) d.
Proof.
  induction d as [|[k' v'] d IH]; simpl; [discriminate|].
  destruct (String.eqb_spec k' k) as [->|_]; intros H.
  - injection H as ->; auto.
  - auto.
Qed.

Lemma mapM_raises {A B} (f : A -> result B) (l : list A) (x : A) (e : exn) :
  In x l -> f x = Raise e -> exists e', mapM f l = Raise e'.
Proof.
  induction l as [|y l IH]; simpl; [tauto|].
  intros [->|Hin] Hx.
  - rewrite Hx; simpl; eauto.
  - destruct (f y); simpl; eauto.
    destruct (IH Hin Hx) as [e' ->]; simpl; eauto.
Qed.

Lemma mapM_all_ok {A B} (f : A -> result B) (l : list A) :
  (forall x, In x l -> exists y, f x = Ok y) -> exists l', mapM f l = Ok l'.
Proof.
  induction l as [|x l IH]; simpl; intros H; eauto.
  destruct (H x (or_introl eq_refl)) as [y ->]; simpl.
  destruct IH as [l' ->]; simpl; eauto.
Qed.

(** ** The relation builder *)

Section Builder.
Variable normalize_dates : bool.
Variable flights : list raw_record.

Let rows := map (query_cleaned normalize_dates) flights.

Lemma df_cleaned_fst :
  map fst (combine rows
             (combine (numeric_column (map Price_Float rows))
                      (numeric_column (map Duration_Minutes rows)))) = rows.
Proof.
  apply map_fst_combine_le.
  rewrite length_combine, !numeric_column_length, !length_map; lia.
Qed.

(** The columns pandas leaves alone come straight from the query. *)
Lemma df_cleaned_untouched {B} (f : cleaned_record -> B) :
  (forall r pd, f (set_numeric r pd) = f r) ->
  map f (df_cleaned normalize_dates flights) = map f rows.
Proof.
  intros Hf; unfold df_cleaned; fold rows.
  rewrite map_map.
  rewrite (map_ext _ (fun x => f (fst x))) by (intros; apply Hf).
  rewrite <- (map_map fst f), df_cleaned_fst; reflexivity.
Qed.

Lemma df_cleaned_raw : map raw (df_cleaned normalize_dates flights) = flights.
Proof.
  rewrite df_cleaned_untouched by reflexivity.
  unfold rows; rewrite map_map; simpl; apply map_id.
Qed.

Lemma df_cleaned_hours :
  map Departure_Hour (df_cleaned normalize_dates flights)
  = map (fun f => parse_departure_hour (Departure_Time f)) flights.
Proof.
  rewrite df_cleaned_untouched by reflexivity.
  unfold rows; rewrite map_map; reflexivity.
Qed.
End Builder.

(** C3.  The relation builder is a map: the cleaned relation has one record
    per raw record, in the same order and carrying the raw columns
    unchanged, for every input including the empty one and whatever the
    fields parse to. *)
Theorem cleaned_row_count (normalize_dates : bool) (flights : list raw_record) :
  List.length (df_cleaned normalize_dates flights) = List.length flights
  /\ map raw (df_cleaned normalize_dates flights) = flights.
Proof.
  split; [|apply df_cleaned_raw].
  rewrite <- (df_cleaned_raw normalize_dates flights) at 2.
  symmetry; apply length_map.
Qed.

(** ** Chart selection *)

(** C10.  A name that is not a key of [queries] never reaches the chart
    dispatch: looking its query up raises [KeyError], so no figure, and in
    particular no placeholder, is produced. *)
Theorem unknown_catalog_name_raises
        (chart_option : string) (filtered : list cleaned_record) :
  ~ In chart_option catalog_names ->
  plot chart_option filtered = Raise KeyError.
Proof.
  intros H; unfold plot, df_viz.
  rewrite (getitem_missing queries chart_option H); reflexivity.
Qed.

Lemma unknown_catalog_name_raises_witness :
  ~ In "Monthly Flight Volume" catalog_names
  /\ plot "Monthly Flight Volume" [] = Raise KeyError.
Proof.
  assert (H : ~ In "Monthly Flight Volume" catalog_names).
  { simpl; intros H.
    repeat (destruct H as [H|H]; [discriminate H|]); exact H. }
  split; [exact H|].
  exact (unknown_catalog_name_raises "Monthly Flight Volume" [] H).
Defined.

(** Every figure that is produced is the chart of a catalog entry: the
    final [else] of the dispatch is never taken. *)
Lemma plot_never_placeholder
      (chart_option : string) (filtered : list cleaned_record) (f : figure) :
  plot chart_option filtered = Ok f ->
  In chart_option catalog_names /\ title f <> None.
Proof.
  unfold plot, df_viz; intros H.
  destruct (getitem queries chart_option) as [q|e] eqn:Hq; [|discriminate].
  apply getitem_found in Hq.
  split; [apply (in_map fst) in Hq; exact Hq|].
  simpl in Hq.
  repeat (destruct Hq as [Hq|Hq];
          [injection Hq as <- _; cbn in H; injection H as <-; discriminate|]).
  contradiction.
Qed.

(** ** Slider bounds *)

Lemma reduce_none {A} (better : A -> A -> bool) (col : list (option A)) :
  non_null col = [] -> reduce better col = None.
Proof. unfold reduce; intros ->; reflexivity. Qed.

(** C5, as the code has it.  There is no fallback: when the departure hour,
    price or duration column has no defined value, which includes the empty
    relation, [min] and [max] are NaN and [int] raises. *)
Theorem bounds_of_undefined_column_raise (df : list cleaned_record) :
  non_null (map Departure_Hour df) = []
  \/ non_null (map Price_Float df) = []
  \/ non_null (map Duration_Minutes df) = [] ->
  exists e, derive_bounds df = Raise e.
Proof.
  intros H; unfold derive_bounds.
  destruct (int_of_str_stat (str_min (map Departure_Hour df)))
    as [h0|e] eqn:H0; simpl; [|eauto].
  destruct (int_of_str_stat (str_max (map Departure_Hour df)))
    as [h1|e] eqn:H1; simpl; [|eauto].
  destruct H as [H|[H|H]].
  - unfold str_min in H0; rewrite (reduce_none _ _ H) in H0; discriminate.
  - unfold num_min; rewrite (reduce_none _ _ H); simpl; eauto.
  - destruct (int_of_num_stat (num_min (map Price_Float df))); simpl; eauto.
    destruct (int_of_num_stat (num_max (map Price_Float df))); simpl; eauto.
    unfold num_min; rewrite (reduce_none _ _ H); simpl; eauto.
Qed.

Lemma bounds_of_undefined_column_raise_witness :
  exists e, derive_bounds (df_cleaned true [flight_without_price]) = Raise e.
Proof.
  apply (bounds_of_undefined_column_raise
           (df_cleaned true [flight_without_price])).
  right; left; reflexivity.
Defined.

(** C5 as stated fails: neither the empty relation nor a price column that
    is entirely undefined yields bounds. *)
Lemma bounds_fallback_counterexample :
  derive_bounds (df_cleaned true []) = Raise ValueError
  /\ derive_bounds (df_cleaned true [flight_without_price]) = Raise ValueError.
Proof. split; reflexivity. Qed.

(** On the empty relation the script stops even earlier, at the message
    about the single cabin class. *)
Lemma selected_classes_empty (widget : list string) :
  selected_classes [] widget = Raise IndexError.
Proof. reflexivity. Qed.

(** ** Departure hours and the filter *)

Lemma digit_char_val (z : Z) :
  is_digit (digit_char z) = true /\ digit_val (digit_char z) = z mod 10.
Proof.
  assert (H : 0 <= z mod 10 < 10) by (apply Z.mod_pos_bound; lia).
  unfold digit_char; set (d := z mod 10) in *.
  assert (Hd : d = 0 \/ d = 1 \/ d = 2 \/ d = 3 \/ d = 4 \/ d = 5 \/ d = 6
               \/ d = 7 \/ d = 8 \/ d = 9) by lia.
  repeat (destruct Hd as [->|Hd]; [split; reflexivity|]).
  subst d; rewrite Hd; split; reflexivity.
Qed.

Lemma pad_num_2 (z : Z) :
  pad_num 2 z
  = String (digit_char (z / 10)) (String (digit_char z) EmptyString).
Proof. reflexivity. Qed.

Lemma substr_first_two (a b : ascii) (rest : string) :
  substr (String a (String b rest)) 1 2 = String a (String b EmptyString).
Proof. destruct rest; reflexivity. Qed.

Lemma int_of_two_digits (z : Z) :
  0 <= z < 100 -> int_of_str (pad_num 2 z) = Ok z.
Proof.
  intros Hz; rewrite pad_num_2.
  destruct (digit_char_val (z / 10)) as [Ha Hav].
  destruct (digit_char_val z) as [Hb Hbv].
  assert (Hsp : forall c, is_digit c = true ->
                          Python.is_space c = false
                          /\ Ascii.eqb c "-" = false
                          /\ Ascii.eqb c "+" = false).
  { intros c; destruct c as [[] [] [] [] [] [] [] []];
      try discriminate; repeat split. }
  destruct (Hsp _ Ha) as (Sa & Ma & Pa), (Hsp _ Hb) as (Sb & _ & _).
  unfold int_of_str, strip; simpl.
  rewrite Sa; simpl. rewrite Sb; simpl.
  rewrite Ma, Pa; cbn -[Z.mul Z.add].
  rewrite Ha; cbn -[Z.mul Z.add]. rewrite Hb; cbn -[Z.mul Z.add].
  rewrite Hav, Hbv; f_equal.
  rewrite (Z.mod_small (z / 10)) by (split; [apply Z.div_pos|
    apply Z.div_lt_upper_bound]; lia).
  pose proof (Z.div_mod z 10); lia.
Qed.

(** C6, as the code has it.  [parse_departure_hour] cuts the first two
    characters out as text and checks nothing.  When every departure time
    starts with a zero-padded hour [00]..[23], those two characters convert
    to that hour and the filter returns a relation. *)
Theorem padded_hours_filter_ok
        (normalize_dates : bool) (flights : list raw_record)
        (spec : filter_spec) :
  (forall f, In f flights ->
             exists h rest, 0 <= h <= 23
                            /\ Departure_Time f = Some (pad_num 2 h ++ rest)) ->
  (forall f, In f flights ->
             exists h, 0 <= h <= 23
                       /\ parse_departure_hour (Departure_Time f)
                          = Some (pad_num 2 h)
                       /\ int_of_object (parse_departure_hour (Departure_Time f))
                          = Ok h)
  /\ exists kept, df_filtered (df_cleaned normalize_dates flights) spec = Ok kept.
Proof.
  intros H.
  assert (Hh : forall f, In f flights ->
             exists h, 0 <= h <= 23
                       /\ parse_departure_hour (Departure_Time f)
                          = Some (pad_num 2 h)
                       /\ int_of_object (parse_departure_hour (Departure_Time f))
                          = Ok h).
  { intros f Hf; destruct (H f Hf) as (h & rest & Hr & ->).
    exists h; split; [exact Hr|].
    rewrite pad_num_2; simpl; rewrite substr_first_two, <- pad_num_2.
    split; [reflexivity|]; simpl; apply int_of_two_digits; lia. }
  split; [exact Hh|].
  unfold df_filtered, astype_int; rewrite df_cleaned_hours.
  destruct (mapM_all_ok int_of_object
              (map (fun f => parse_departure_hour (Departure_Time f)) flights))
    as [hours ->]; simpl; eauto.
  intros x Hx; apply in_map_iff in Hx; destruct Hx as (f & <- & Hf).
  destruct (Hh f Hf) as (h & _ & _ & ->); eauto.
Qed.

Lemma padded_hours_filter_ok_witness :
  (forall f, In f [flight_at "09:00"; flight_at "23:45"] ->
             exists h, 0 <= h <= 23
                       /\ parse_departure_hour (Departure_Time f)
                          = Some (pad_num 2 h)
                       /\ int_of_object (parse_departure_hour (Departure_Time f))
                          = Ok h)
  /\ exists kept,
      df_filtered (df_cleaned true [flight_at "09:00"; flight_at "23:45"])
                  select_all = Ok kept.
Proof.
  apply (padded_hours_filter_ok true
           [flight_at "09:00"; flight_at "23:45"] select_all).
  intros f [<-|[<-|[]]].
  - exists 9, ":00"; split; [lia|reflexivity].
  - exists 23, ":45"; split; [lia|reflexivity].
Defined.

(** C6 as stated fails: an hour that is not zero-padded stays text that is
    no integer, the bounds can still be derived, and the filter then raises;
    an hour beyond 23 is accepted as it is. *)
Lemma departure_hour_counterexample :
  parse_departure_hour (Some "1:30") = Some "1:"
  /\ (exists b, derive_bounds (df_cleaned true unpadded_flights) = Ok b)
  /\ df_filtered (df_cleaned true unpadded_flights) select_all
     = Raise ValueError
  /\ int_of_object (parse_departure_hour (Some "99:00")) = Ok 99.
Proof.
  split; [reflexivity|]. split; [eexists; reflexivity|].
  split; reflexivity.
Qed.

(** ** Empty selections *)

Lemma isin_nil (x : option string) : isin x [] = false.
Proof. destruct x; reflexivity. Qed.

Lemma keep_empty_category (spec : filter_spec) (r : cleaned_record) (h : Z) :
  empty_category spec -> keep spec r h = false.
Proof.
  unfold keep; intros [H|[H|[H|H]]]; rewrite H, isin_nil;
    repeat rewrite ?andb_false_r, ?andb_false_l; reflexivity.
Qed.

Lemma filter_none {A} (p : A -> bool) (l : list A) :
  (forall x, In x l -> p x = false) -> filter p l = [].
Proof.
  induction l as [|x l IH]; simpl; intros H; [reflexivity|].
  rewrite (H x) by auto; apply IH; auto.
Qed.

(** Every catalog entry returns no row on the empty table: each aggregate
    is grouped, so there is no lone row of zero counts either. *)
Lemma catalog_on_empty_table (name : string) (query : select cleaned_record) :
  getitem queries name = Ok query -> run_query query [] = [].
Proof.
  intros H; apply getitem_found in H; simpl in H.
  repeat (destruct H as [H|H]; [injection H as _ <-; reflexivity|]).
  contradiction.
Qed.

(** The filter converts every departure hour of the cleaned relation, so
    one hour that does not convert makes it raise for every selection. *)
Lemma filter_raises_on_bad_hour
      (df : list cleaned_record) (spec : filter_spec)
      (r : cleaned_record) (e : exn) :
  In r df -> int_of_object (Departure_Hour r) = Raise e ->
  exists e', df_filtered df spec = Raise e'.
Proof.
  intros Hin He; unfold df_filtered, astype_int.
  destruct (mapM_raises int_of_object (map Departure_Hour df)
              (Departure_Hour r) e (in_map _ _ _ Hin) He) as [e' ->].
  simpl; eauto.
Qed.

(** C7, as the code has it.  On a cleaned relation whose departure hours
    all convert to integers, an empty selection for any categorical
    attribute leaves no row, and every catalog entry then returns an empty
    result. *)
Theorem empty_selection_empty_results
        (df : list cleaned_record) (spec : filter_spec) (hours : list Z) :
  astype_int (map Departure_Hour df) = Ok hours ->
  empty_category spec ->
  df_filtered df spec = Ok []
  /\ forall name query,
      getitem queries name = Ok query -> run_query query [] = [].
Proof.
  intros Hh He; split; [|exact catalog_on_empty_table].
  unfold df_filtered; rewrite Hh; simpl.
  rewrite filter_none; [reflexivity|].
  intros [r h] _; apply keep_empty_category; exact He.
Qed.

Lemma empty_selection_empty_results_witness :
  df_filtered (df_cleaned true [flight_at "09:00"; flight_at "23:45"])
              select_no_airline = Ok []
  /\ forall name query,
      getitem queries name = Ok query -> run_query query [] = [].
Proof.
  apply (empty_selection_empty_results
           (df_cleaned true [flight_at "09:00"; flight_at "23:45"])
           select_no_airline [9; 23]).
  - reflexivity.
  - left; reflexivity.
Defined.

(** C7 as stated fails: with no airline selected, a relation holding an
    hour that is no integer makes the filter raise instead of returning the
    empty relation, although the slider bounds were derived. *)
Lemma empty_selection_counterexample :
  selected_airlines select_no_airline = []
  /\ (exists b, derive_bounds (df_cleaned true unpadded_flights) = Ok b)
  /\ df_filtered (df_cleaned true unpadded_flights) select_no_airline
     = Raise ValueError.
Proof.
  split; [reflexivity|]. split; [eexists; reflexivity|reflexivity].
Qed.

(** ** Text and casts *)

#[local] Arguments Z.mul : simpl nomatch.
#[local] Arguments Z.add : simpl nomatch.
#[local] Arguments Z.sub : simpl nomatch.

Lemma substring_0_length (s : string) : substring 0 (String.length s) s = s.
Proof. induction s; simpl; congruence. Qed.

Lemma substring_0_0 (s : string) : substring 0 0 s = EmptyString.
Proof. destruct s; reflexivity. Qed.

Lemma substring_0_ge (n : nat) (s : string) :
  (String.length s <= n)%nat -> substring 0 n s = s.
Proof.
  revert n; induction s as [|c s IH]; intros [|n] H; simpl in *;
    try reflexivity; try lia.
  f_equal; apply IH; lia.
Qed.

Lemma substring_0_app (a b : string) :
  substring 0 (String.length a) (a ++ b) = a.
Proof.
  induction a as [|c a IH]; simpl; [apply substring_0_0|congruence].
Qed.

Lemma substring_skip_app (a b : string) (n m : nat) :
  substring (String.length a + n) m (a ++ b) = substring n m b.
Proof. induction a as [|c a IH]; simpl; auto. Qed.

Lemma length_append (a b : string) :
  String.length (a ++ b) = (String.length a + String.length b)%nat.
Proof. induction a; simpl; congruence. Qed.

Lemma prefix_empty (s : string) : prefix EmptyString s = true.
Proof. destruct s; reflexivity. Qed.

Lemma prefix_char (c d : ascii) (s : string) :
  prefix (String c EmptyString) (String d s) = Ascii.eqb c d.
Proof.
  simpl; destruct (ascii_dec c d) as [->|H].
  - rewrite Ascii.eqb_refl; apply prefix_empty.
  - symmetry; apply Ascii.eqb_neq; exact H.
Qed.

Lemma replace_from_char (c : ascii) (s : string) (fuel : nat) :
  (String.length s < fuel)%nat ->
  replace_from fuel s (String c EmptyString) EmptyString = remove_char c s.
Proof.
  revert fuel; induction s as [|d s IH]; intros [|fuel] H; simpl in H;
    try lia; [reflexivity|].
  cbn [replace_from remove_char]; rewrite prefix_char.
  destruct (Ascii.eqb c d).
  - cbn [String.length Nat.sub substring append].
    rewrite Nat.sub_0_r, substring_0_length; apply IH; lia.
  - f_equal; apply IH; lia.
Qed.

Lemma replace_char (c : ascii) (s : string) :
  replace s (String c EmptyString) EmptyString = remove_char c s.
Proof. unfold replace; cbn [String.eqb]; apply replace_from_char; lia. Qed.

Lemma remove_char_app (c : ascii) (a b : string) :
  remove_char c (a ++ b) = remove_char c a ++ remove_char c b.
Proof.
  induction a as [|d a IH]; simpl; [reflexivity|].
  destruct (Ascii.eqb c d); simpl; congruence.
Qed.

(** What a digit is not. *)
Lemma digit_facts (c : ascii) :
  is_digit c = true ->
  SQLite.is_space c = false
  /\ Ascii.eqb c "-" = false /\ Ascii.eqb c "+" = false
  /\ Ascii.eqb "," c = false /\ Ascii.eqb "m" c = false
  /\ Ascii.eqb "h" c = false /\ Ascii.eqb " " c = false
  /\ to_lower c = c.
Proof.
  destruct c as [[] [] [] [] [] [] [] []]; try discriminate;
    repeat split.
Qed.

Lemma remove_char_digits (c : ascii) (s : string) :
  (forall d, is_digit d = true -> Ascii.eqb c d = false) ->
  all_digits s = true -> remove_char c s = s.
Proof.
  intros Hc; induction s as [|d s IH]; simpl; [reflexivity|].
  intros H; apply andb_true_iff in H; destruct H as [Hd Hs].
  rewrite (Hc d Hd); f_equal; auto.
Qed.

Lemma all_digits_app (a b : string) :
  all_digits (a ++ b) = all_digits a && all_digits b.
Proof.
  induction a as [|c a IH]; simpl; [reflexivity|].
  rewrite IH; apply andb_assoc.
Qed.

Lemma span_digits_app (d r : string) :
  all_digits d = true -> ends_digits r = true -> span_digits (d ++ r) = (d, r).
Proof.
  intros Hd Hr; induction d as [|c d IH]; simpl in *.
  - destruct r as [|c r]; simpl in *; [reflexivity|].
    apply negb_true_iff in Hr; rewrite Hr; reflexivity.
  - apply andb_true_iff in Hd; destruct Hd as [Hc Hd].
    rewrite Hc, (IH Hd); reflexivity.
Qed.

Lemma numeral_not_empty (d : string) :
  is_numeral d = true ->
  exists c d', d = String c d' /\ is_digit c = true /\ all_digits d' = true.
Proof.
  unfold is_numeral; destruct d as [|c d']; simpl; [discriminate|].
  intros H; apply andb_true_iff in H; destruct H; eauto.
Qed.

Lemma numeral_all_digits (d : string) :
  is_numeral d = true -> all_digits d = true.
Proof. unfold is_numeral; intros H; apply andb_true_iff in H; tauto. Qed.

Lemma digits_value_from_bounds (s : string) (acc : Z) :
  0 <= acc -> all_digits s = true -> acc <= digits_value_from acc s.
Proof.
  revert acc; induction s as [|c s IH]; simpl; intros acc Ha H; [lia|].
  apply andb_true_iff in H; destruct H as [Hc Hs].
  assert (0 <= digit_val c).
  { unfold is_digit, digit_val in *; lia. }
  specialize (IH (10 * acc + digit_val c) ltac:(lia) Hs); lia.
Qed.

Lemma digits_value_nonneg (s : string) :
  all_digits s = true -> 0 <= digits_value s.
Proof. intros H; apply (digits_value_from_bounds s 0); [lia|exact H]. Qed.

(** The text a cast reads when it starts with a numeral. *)
Lemma cast_prefix (d r : string) :
  is_numeral d = true -> ends_digits r = true ->
  split_sign (skip_spaces (d ++ r)) = (false, d ++ r)
  /\ span_digits (d ++ r) = (d, r).
Proof.
  intros Hd Hr; split; [|apply span_digits_app; auto using numeral_all_digits].
  destruct (numeral_not_empty d Hd) as (c & d' & -> & Hc & _).
  destruct (digit_facts c Hc) as (Hs & Hm & Hp & _).
  simpl; rewrite Hs; simpl; rewrite Hm, Hp; reflexivity.
Qed.

Lemma clamp64_id (z : Z) : 0 <= z <= max_int64 -> clamp64 z = z.
Proof. unfold clamp64, max_int64, min_int64; lia. Qed.

Lemma cast_int_numeral (d r : string) :
  is_numeral d = true -> ends_digits r = true ->
  digits_value d <= max_int64 ->
  cast_int (d ++ r) = digits_value d.
Proof.
  intros Hd Hr Hb; unfold cast_int.
  destruct (cast_prefix d r Hd Hr) as [-> ->]; simpl.
  apply clamp64_id; split; [|exact Hb].
  apply digits_value_nonneg, numeral_all_digits, Hd.
Qed.

Lemma Qred_inject_Z (z : Z) : Qred (inject_Z z) = inject_Z z.
Proof. apply Qcanon.Qred_identity; simpl; apply Z.gcd_1_r. Qed.

Lemma append_empty_r (s : string) : s ++ EmptyString = s.
Proof. induction s; simpl; congruence. Qed.

(** Rounding depends on the value only, not on the fraction that
    represents it. *)
Lemma binary64_comp (p q : Q) : (p == q)%Q -> binary64 p = binary64 q.
Proof.
  intros H; unfold binary64; rewrite (Qred_complete p q H); reflexivity.
Qed.

(** An integer of fewer than 54 bits is a binary64 number. *)
Lemma binary64_whole (z : Z) :
  Z.abs z < 2 ^ 53 -> binary64 (inject_Z z) = inject_Z z.
Proof.
  intros Hz; unfold binary64; rewrite Qred_inject_Z; cbn [Qnum Qden inject_Z].
  destruct (Z.eqb_spec (Z.abs z) 0) as [E|E].
  { replace z with 0 by lia; reflexivity. }
  assert (Hn : 0 < Z.abs z) by lia.
  set (n := Z.abs z) in *.
  pose proof (Z.log2_spec n Hn) as [Hlo Hhi].
  pose proof (Z.log2_nonneg n) as Hk.
  set (k := Z.log2 n) in *.
  assert (Hk53 : k < 53).
  { apply (Z.pow_lt_mono_r_iff 2); lia. }
  assert (Hlog : log2_floor n 1 = k).
  { unfold log2_floor; fold k; change (Z.log2 1) with 0.
    rewrite Z.sub_0_r, Z.max_l, Z.max_r by lia.
    change (2 ^ 0) with 1.
    destruct (Z.ltb_spec (n * 1) (1 * 2 ^ k)); [lia|reflexivity]. }
  rewrite Hlog, (Z.max_l (k - 52)) by lia.
  rewrite (Z.max_r 0 (- (k - 52))), (Z.max_l 0 (k - 52)) by lia.
  change (2 ^ 0) with 1; rewrite Z.mul_1_r.
  assert (Hp : 0 < 2 ^ (- (k - 52))) by (apply Z.pow_pos_nonneg; lia).
  set (p := 2 ^ (- (k - 52))) in *.
  assert (Hm : round_half_even (n * p) 1 = n * p).
  { unfold round_half_even; rewrite Z.div_1_r, Z.mod_1_r; reflexivity. }
  rewrite Hm.
  transitivity (Qred (inject_Z z)); [|apply Qred_inject_Z].
  apply Qred_complete.
  destruct (Z.leb_spec 0 (k - 52)).
  - assert (k = 52) by lia; subst p.
    replace (- (k - 52)) with 0 by lia; replace (k - 52) with 0 by lia.
    unfold Qeq, inject_Z; cbn [Qnum Qden]; change (2 ^ 0) with 1.
    unfold n; lia.
  - unfold Qeq, inject_Z; cbn [Qnum Qden].
    rewrite Z2Pos.id by exact Hp.
    unfold n; nia.
Qed.





Lemma cast_real_numeral (d : string) :
  is_numeral d = true -> digits_value d < 2 ^ 53 ->
  cast_real d = inject_Z (digits_value d).
Proof.
  intros Hd Hv; unfold cast_real.
  destruct (cast_prefix d EmptyString Hd eq_refl) as [H1 H2].
  rewrite append_empty_r in H1, H2; rewrite H1, H2, append_empty_r.
  cbn [exponent slen String.length Z.of_nat Z.sub pow10 Z.leb Z.compare
       signed Z.pow Z.pow_pos Pos.iter Z.mul Pos.mul].
  pose proof (digits_value_nonneg d (numeral_all_digits d Hd)) as Hn.
  transitivity (binary64 (inject_Z (digits_value d)));
    [|apply binary64_whole; lia].
  apply binary64_comp; unfold Qeq, Qmult, inject_Z; simpl; lia.
Qed.

Lemma cast_real_no_number (s : string) :
  starts_no_number s = true -> cast_real s = 0%Q.
Proof.
  destruct s as [|c s]; [reflexivity|]; unfold starts_no_number; intros H.
  apply negb_true_iff in H.
  do 4 (apply orb_false_iff in H; destruct H as [H ?]).
  unfold cast_real; cbn [skip_spaces]; rewrite H; unfold split_sign.
  rewrite H3, H2; cbn [span_digits]; rewrite H1, H0; reflexivity.
Qed.

(** C2, as the code has it.  [parse_price] drops every comma and casts the
    rest to a REAL; the cast cannot fail, so a text always gives a number.
    A text of digits and commas gives the whole number its digits spell, as
    long as that number is below 2^53 and so is a binary64 number; a text
    that no number starts gives 0.0.  Only a missing price is undefined. *)
Theorem parse_price_total :
  parse_price (Some "12,345.50") = Some (NReal (24691 # 2))
  /\ (forall s, is_numeral (remove_char "," s) = true ->
                digits_value (remove_char "," s) < 2 ^ 53 ->
                parse_price (Some s)
                = Some (NReal (inject_Z (digits_value (remove_char "," s)))))
  /\ (forall s, exists q, parse_price (Some s) = Some (NReal q))
  /\ (forall s, starts_no_number (remove_char "," s) = true ->
                parse_price (Some s) = Some (NReal 0))
  /\ parse_price None = None.
Proof.
  split; [reflexivity|]. split; [|split; [|split]].
  - intros s Hs Hv; unfold parse_price; simpl; do 2 f_equal.
    rewrite replace_char; apply cast_real_numeral; assumption.
  - intros s; eexists; reflexivity.
  - intros s H; unfold parse_price; simpl.
    rewrite replace_char, (cast_real_no_number _ H); reflexivity.
  - reflexivity.
Qed.

(** C2 as stated fails: an empty or non-numeric text gives the price 0.0,
    which is a number and not an undefined value. *)
Lemma parse_price_counterexample :
  parse_price (Some "") = Some (NReal 0)
  /\ parse_price (Some "abc") = Some (NReal 0).
Proof. split; reflexivity. Qed.

Lemma parse_price_total_witness :
  parse_price (Some "1,234,567") = Some (NReal (inject_Z 1234567)).
Proof.
  apply (proj1 (proj2 parse_price_total) "1,234,567"); [reflexivity|].
  vm_compute; reflexivity.
Defined.

(** ** Durations *)

Lemma like_star_cons (p : string) (c : ascii) (s : string) :
  like_chars (String "%" p) (String c s)
  = like_chars p (String c s) || like_chars (String "%" p) s.
Proof. reflexivity. Qed.

(** [%p] matches every text that ends with a match of [p]. *)
Lemma like_percent_suffix (p a b : string) :
  like_chars p b = true -> like_chars (String "%" p) (a ++ b) = true.
Proof.
  intros H; induction a as [|c a IH].
  - destruct b; simpl in *; rewrite H; reflexivity.
  - simpl append; rewrite like_star_cons, IH; apply orb_true_r.
Qed.

Lemma like_h_cons (p : string) (c : ascii) (s : string) :
  like_chars (String "h" p) (String c s)
  = Ascii.eqb "h" (to_lower c) && like_chars p s.
Proof. reflexivity. Qed.

(** Digits are skipped by a pattern that asks for an [h] first. *)
Lemma like_h_skips_digits (p d r : string) :
  all_digits d = true ->
  like_chars (String "%" (String "h" p)) (d ++ r)
  = like_chars (String "%" (String "h" p)) r.
Proof.
  induction d as [|c d IH]; simpl append; intros H; [reflexivity|].
  simpl in H; apply andb_true_iff in H; destruct H as [Hc Hd].
  rewrite like_star_cons, (IH Hd).
  destruct (digit_facts c Hc) as (_ & _ & _ & _ & _ & Hh & _ & Hl).
  rewrite like_h_cons, Hl, Hh; reflexivity.
Qed.

Lemma instr_from_digits (d r : string) (pos : Z) :
  all_digits d = true ->
  instr_from pos (d ++ String "h" r) "h" = pos + slen d.
Proof.
  revert pos; induction d as [|c d IH]; intros pos H.
  - simpl append; unfold instr_from; rewrite prefix_char; simpl;
      unfold slen; simpl; lia.
  - simpl in H; apply andb_true_iff in H; destruct H as [Hc Hd].
    destruct (digit_facts c Hc) as (_ & _ & _ & _ & _ & Hh & _).
    simpl append; cbn [instr_from]; rewrite prefix_char, Hh, (IH _ Hd).
    unfold slen; cbn [String.length]; lia.
Qed.

Lemma instr_digits (d r : string) :
  all_digits d = true -> instr (d ++ String "h" r) "h" = slen d + 1.
Proof. intros H; unfold instr; rewrite instr_from_digits by exact H; lia. Qed.

Lemma substr_head (a b : string) (z : Z) :
  z = slen a -> substr (a ++ b) 1 z = a.
Proof.
  intros ->; unfold substr, slen.
  destruct (Z.ltb_spec (Z.of_nat (String.length a)) 0) as [H|_]; [lia|].
  cbn [Z.ltb Z.compare]; cbv iota beta.
  rewrite Z.abs_eq, Nat2Z.id by lia; apply substring_0_app.
Qed.

Lemma substr_tail (a b : string) (y z : Z) :
  y = slen a + 1 -> slen b <= z -> substr (a ++ b) y z = b.
Proof.
  intros -> Hz; unfold substr, slen in *.
  destruct (Z.ltb_spec (Z.of_nat (String.length a) + 1) 0) as [H|_]; [lia|].
  destruct (Z.ltb_spec 0 (Z.of_nat (String.length a) + 1)) as [_|H]; [|lia].
  destruct (Z.ltb_spec z 0) as [H|_]; [lia|]; cbv iota beta.
  replace (Z.to_nat (Z.of_nat (String.length a) + 1 - 1))
    with (String.length a + 0)%nat by lia.
  rewrite substring_skip_app; apply substring_0_ge; lia.
Qed.

Lemma append_assoc (a b c : string) : (a ++ b) ++ c = a ++ b ++ c.
Proof. induction a; simpl; congruence. Qed.

Lemma mul_60 (h : Z) :
  0 <= h -> h * 60 <= max_int64 ->
  mul (Some (NInt h)) (Some (NInt 60)) = Some (NInt (h * 60)).
Proof.
  intros H0 H1; unfold mul, lift2, num_arith, fits_int64.
  destruct (Z.leb_spec min_int64 (h * 60)) as [_|H];
    [|unfold min_int64 in H; lia].
  destruct (Z.leb_spec (h * 60) max_int64) as [_|H]; [reflexivity|lia].
Qed.

Lemma add_int (a b : Z) :
  0 <= a -> 0 <= b -> a + b <= max_int64 ->
  add (Some (NInt a)) (Some (NInt b)) = Some (NInt (a + b)).
Proof.
  intros H0 H1 H2; unfold add, lift2, num_arith, fits_int64.
  destruct (Z.leb_spec min_int64 (a + b)) as [_|H];
    [|unfold min_int64 in H; lia].
  destruct (Z.leb_spec (a + b) max_int64) as [_|H]; [reflexivity|lia].
Qed.

Section Shapes.
Variables h m : string.
Hypothesis Hh : is_numeral h = true.
Hypothesis Hm : is_numeral m = true.

Let hours := digits_value h.
Let minutes := digits_value m.

Lemma hours_minutes_nonneg : 0 <= hours /\ 0 <= minutes.
Proof.
  split; apply digits_value_nonneg, numeral_all_digits; assumption.
Qed.

(** ["<h>h <m>m"] *)
Lemma duration_hours_minutes :
  hours * 60 + minutes <= max_int64 ->
  parse_duration (Some (h ++ "h " ++ m ++ "m"))
  = Some (NInt (hours * 60 + minutes)).
Proof.
  intros Hb; destruct hours_minutes_nonneg as [H0 M0].
  pose proof (numeral_all_digits h Hh) as Dh.
  unfold parse_duration, like; cbn [append].
  rewrite (like_percent_suffix "h %m" h (String "h" (String " " (m ++ "m"))))
    by (apply (like_percent_suffix "m" m "m"); reflexivity).
  rewrite instr_digits by exact Dh.
  rewrite substr_head by lia.
  rewrite <- (append_empty_r h) at 1.
  rewrite cast_int_numeral by (auto; fold hours; lia).
  change (h ++ String "h" (String " " (m ++ "m")))
    with (h ++ "h " ++ (m ++ "m")).
  rewrite <- (append_assoc h "h " (m ++ "m")).
  rewrite substr_tail;
    [|unfold slen; rewrite length_append; simpl; lia
     |unfold slen; rewrite !length_append; lia].
  rewrite cast_int_numeral by (auto; fold minutes; lia).
  fold hours minutes; rewrite mul_60, add_int by lia; reflexivity.
Qed.

(** ["<h>h"] *)
Lemma duration_hours :
  hours * 60 <= max_int64 ->
  parse_duration (Some (h ++ "h")) = Some (NInt (hours * 60)).
Proof.
  intros Hb; destruct hours_minutes_nonneg as [H0 _].
  pose proof (numeral_all_digits h Hh) as Dh.
  unfold parse_duration, like; cbn [append].
  rewrite (like_h_skips_digits " %m" h "h") by exact Dh.
  change (like_chars "%h %m" "h") with false; cbv iota.
  rewrite (like_percent_suffix "h" h "h") by reflexivity.
  rewrite instr_digits by exact Dh.
  rewrite substr_head by lia.
  rewrite <- (append_empty_r h) at 1.
  rewrite cast_int_numeral by (auto; fold hours; lia).
  fold hours; apply mul_60; lia.
Qed.

(** ["<m>m"] *)
Lemma duration_minutes :
  minutes <= max_int64 ->
  parse_duration (Some (m ++ "m")) = Some (NInt minutes).
Proof.
  intros Hb; pose proof (numeral_all_digits m Hm) as Dm.
  unfold parse_duration, like.
  rewrite (like_h_skips_digits " %m" m "m") by exact Dm.
  change (like_chars "%h %m" "m") with false; cbv iota.
  rewrite (like_h_skips_digits "" m "m") by exact Dm.
  change (like_chars "%h" "m") with false; cbv iota.
  rewrite replace_char, remove_char_app.
  rewrite remove_char_digits
    by (auto; intros d Hd; apply (digit_facts d Hd)).
  change (remove_char "m" "m") with EmptyString.
  rewrite cast_int_numeral by (auto; fold minutes; lia).
  reflexivity.
Qed.
End Shapes.

Lemma like_literal (c : ascii) (p s : string) :
  Ascii.eqb c "%" = false -> Ascii.eqb c "_" = false ->
  like_chars (String c p) s
  = match s with
    | EmptyString => false
    | String d s' => Ascii.eqb (to_lower c) (to_lower d) && like_chars p s'
    end.
Proof.
  intros H1 H2; cbn [like_chars]; rewrite H1, H2; destruct s; reflexivity.
Qed.

Lemma like_star (p s : string) :
  like_chars (String "%" p) s
  = like_chars p s
    || match s with
       | EmptyString => false
       | String _ s' => like_chars (String "%" p) s'
       end.
Proof. destruct s; reflexivity. Qed.

Lemma last_is_cons (c d : ascii) (s : string) :
  last_is c s = true -> last_is c (String d s) = true.
Proof.
  unfold last_is; destruct s as [|e s]; [discriminate|].
  cbn [last_char]; auto.
Qed.

(** A text matched by [%c], for a literal [c], ends with [c]. *)
Lemma like_percent_literal (c : ascii) (s : string) :
  Ascii.eqb c "%" = false -> Ascii.eqb c "_" = false ->
  like_chars (String "%" (String c EmptyString)) s = true ->
  last_is c s = true.
Proof.
  intros H1 H2; induction s as [|d s IH]; rewrite like_star, like_literal
    by assumption.
  - discriminate.
  - intros H; apply orb_true_iff in H; destruct H as [H|H].
    + apply andb_true_iff in H; destruct H as [Hd Hs].
      destruct s; [unfold last_is; simpl; exact Hd|discriminate].
    + apply last_is_cons, IH, H.
Qed.

(** A text matched by [%h %m] ends with an [m]. *)
Lemma like_hours_minutes_last (s : string) :
  like_chars "%h %m" s = true -> last_is "m" s = true.
Proof.
  induction s as [|d s IH]; rewrite like_star, like_literal by reflexivity.
  - discriminate.
  - intros H; apply orb_true_iff in H; destruct H as [H|H];
      [|apply last_is_cons, IH, H].
    apply andb_true_iff in H; destruct H as [_ H].
    rewrite like_literal in H by reflexivity.
    destruct s as [|e s]; [discriminate|].
    apply andb_true_iff in H; destruct H as [_ H].
    apply last_is_cons, last_is_cons.
    apply like_percent_literal; [reflexivity|reflexivity|exact H].
Qed.

(** A text that ends with neither [h] nor [m] and, once its [m]s are
    removed, starts no number, is read as 0 minutes. *)
Lemma unrecognised_duration_is_zero (s : string) :
  last_is "h" s = false -> last_is "m" s = false ->
  starts_no_number (remove_char "m" s) = true ->
  parse_duration (Some s) = Some (NInt 0).
Proof.
  intros Hh Hm Hs; unfold parse_duration, like.
  destruct (like_chars "%h %m" s) eqn:E1;
    [apply like_hours_minutes_last in E1; congruence|].
  destruct (like_chars "%h" s) eqn:E2;
    [apply like_percent_literal in E2; [congruence|reflexivity|reflexivity]|].
  rewrite replace_char.
  destruct (remove_char "m" s) as [|c r]; [reflexivity|].
  unfold starts_no_number in Hs; apply negb_true_iff in Hs.
  do 4 (apply orb_false_iff in Hs; destruct Hs as [Hs ?]).
  unfold cast_int; cbn [skip_spaces]; rewrite Hs; unfold split_sign.
  rewrite H2, H1; cbn [span_digits]; rewrite H0; reflexivity.
Qed.

Lemma parse_duration_total (s : string) :
  exists n, parse_duration (Some s) = Some n.
Proof.
  unfold parse_duration, mul, add, lift2.
  destruct (like s "%h %m"); [eauto|].
  destruct (like s "%h"); eauto.
Qed.

(** C1, as the code has it.  On the three shapes [parse_duration] returns
    the minutes the claim gives, as long as they fit 64 bits.  It cannot
    raise: every text yields a number, whatever its shape, and a text that
    ends with neither [h] nor [m] and starts no number yields 0. *)
Theorem parse_duration_shapes (h m : string) :
  is_numeral h = true -> is_numeral m = true ->
  digits_value h * 60 + digits_value m <= max_int64 ->
  parse_duration (Some (h ++ "h " ++ m ++ "m"))
  = Some (NInt (digits_value h * 60 + digits_value m))
  /\ parse_duration (Some (h ++ "h")) = Some (NInt (digits_value h * 60))
  /\ parse_duration (Some (m ++ "m")) = Some (NInt (digits_value m))
  /\ (forall s, exists n, parse_duration (Some s) = Some n)
  /\ (forall s, last_is "h" s = false -> last_is "m" s = false ->
                starts_no_number (replace s "m" "") = true ->
                parse_duration (Some s) = Some (NInt 0)).
Proof.
  intros Hh Hm Hb.
  destruct (hours_minutes_nonneg h m Hh Hm) as [H0 M0].
  split; [apply (duration_hours_minutes h m Hh Hm Hb)|].
  split; [apply (duration_hours h m Hh Hm); lia|].
  split; [apply (duration_minutes m Hm); lia|].
  split; [exact parse_duration_total|].
  intros s Eh Em Hs; rewrite replace_char in Hs.
  apply unrecognised_duration_is_zero; assumption.
Qed.

Lemma parse_duration_shapes_witness :
  parse_duration (Some "2h 30m") = Some (NInt 150)
  /\ parse_duration (Some "2h") = Some (NInt 120)
  /\ parse_duration (Some "30m") = Some (NInt 30)
  /\ (forall s, exists n, parse_duration (Some s) = Some n)
  /\ (forall s, last_is "h" s = false -> last_is "m" s = false ->
                starts_no_number (replace s "m" "") = true ->
                parse_duration (Some s) = Some (NInt 0)).
Proof.
  apply (parse_duration_shapes "2" "30"); [reflexivity|reflexivity|].
  vm_compute; discriminate.
Defined.

(** C1 as stated fails: a text of no recognised shape raises nothing and
    silently becomes 0 minutes. *)
Lemma parse_duration_counterexample :
  parse_duration (Some "garbage") = Some (NInt 0).
Proof. reflexivity. Qed.

(** ** Sorting and grouping *)

Section SortFacts.
Context {A : Type} (leb : A -> A -> bool).

Lemma insert_perm (x : A) (l : list A) :
  Permutation (insert leb x l) (x :: l).
Proof.
  induction l as [|y l IH]; simpl; [reflexivity|].
  destruct (leb x y); [reflexivity|].
  rewrite IH; apply perm_swap.
Qed.

Lemma sort_perm (l : list A) : Permutation (sort leb l) l.
Proof.
  induction l as [|x l IH]; simpl; [reflexivity|].
  rewrite insert_perm, IH; reflexivity.
Qed.

Lemma sort_in (x : A) (l : list A) : In x (sort leb l) <-> In x l.
Proof.
  split; apply Permutation_in; [|symmetry]; apply sort_perm.
Qed.


Hypothesis leb_total : forall a b, leb a b = true \/ leb b a = true.

Lemma insert_sorted (x : A) (l : list A) :
  Sorted (fun a b => leb a b = true) l ->
  Sorted (fun a b => leb a b = true) (insert leb x l).
Proof.
  induction 1 as [|y l Hs IH Hd]; simpl; [repeat constructor|].
  destruct (leb x y) eqn:E.
  - repeat constructor; assumption.
  - constructor; [exact IH|].
    destruct (leb_total x y) as [C|C]; [congruence|].
    destruct l as [|z l]; simpl; [repeat constructor; exact C|].
    destruct (leb x z); constructor; [exact C|].
    inversion Hd; assumption.
Qed.

Lemma sort_sorted (l : list A) :
  Sorted (fun a b => leb a b = true) (sort leb l).
Proof.
  induction l as [|x l IH]; simpl; [constructor|].
  apply insert_sorted, IH.
Qed.
End SortFacts.

(** Sorting depends on the comparison only through the elements at hand. *)
Lemma insert_ext_in {A} (f g : A -> A -> bool) (x : A) (l : list A) :
  (forall y, In y l -> f x y = g x y) -> insert f x l = insert g x l.
Proof.
  induction l as [|y l IH]; simpl; intros H; [reflexivity|].
  rewrite (H y) by auto; destruct (g x y); [reflexivity|].
  f_equal; apply IH; auto.
Qed.

Lemma sort_ext_in {A} (f g : A -> A -> bool) (l : list A) :
  (forall x y, In x l -> In y l -> f x y = g x y) -> sort f l = sort g l.
Proof.
  induction l as [|x l IH]; simpl; intros H; [reflexivity|].
  rewrite IH by auto.
  apply insert_ext_in; intros y Hy; apply H; auto.
  right; apply (sort_in g); exact Hy.
Qed.


Lemma distinct_in (k : list value) (ks : list (list value)) :
  In k (distinct ks) -> In k ks.
Proof.
  revert k; induction ks as [|k' ks IH]; simpl; intros k H; [exact H|].
  destruct H as [H|H]; [auto|].
  apply filter_In in H; destruct H; auto.
Qed.

Lemma group_rows_in {r} (key : r -> list value)
      (columns : list value -> list r -> row) (t : list r) (out : row) :
  In out (group_rows key columns t) ->
  exists x, In x t /\ out = columns (key x) (group_of key x t).
Proof.
  unfold group_rows, groups; rewrite map_map; simpl.
  intros H; apply in_map_iff in H; destruct H as (k & <- & Hk).
  apply sort_in, distinct_in, in_map_iff in Hk.
  destruct Hk as (x & <- & Hx); exists x; split; [exact Hx|reflexivity].
Qed.

Lemma apply_limit_in (limit : option nat) (rows : list row) (out : row) :
  In out (apply_limit limit rows) -> In out rows.
Proof.
  destruct limit as [n|]; simpl; [|auto].
  intros H; rewrite <- (firstn_skipn n rows); apply in_or_app; auto.
Qed.

(** Every row a grouped statement returns describes the group of some row
    of the table. *)
Lemma run_group_in {r} (key : r -> list value)
      (columns : list value -> list r -> row)
      (order_by : list (nat * direction)) (limit : option nat)
      (t : list r) (out : row) :
  In out (run (GroupBy key columns order_by limit) t) ->
  exists x, In x t /\ out = columns (key x) (group_of key x t).
Proof.
  simpl; intros H; apply apply_limit_in in H.
  unfold order_rows in H; apply sort_in in H.
  apply (group_rows_in key columns t out H).
Qed.

(** ** Averages *)


(** The filter keeps no row whose price or duration is undefined, so the
    table the catalog reads has none. *)
Lemma kept_rows_defined (spec : filter_spec) (r : cleaned_record) (hour : Z) :
  keep spec r hour = true ->
  Price_Float r <> None /\ Duration_Minutes r <> None.
Proof.
  unfold keep; intros H.
  repeat (apply andb_true_iff in H; destruct H as [H ?]).
  split; intros E.
  - rewrite E in *; discriminate.
  - rewrite E in *; discriminate.
Qed.




















(** ** Groups of one text key *)


Lemma string_compare_refl (s : string) : String.compare s s = Eq.
Proof.
  induction s as [|c s IH]; simpl; [reflexivity|].
  unfold Ascii.compare; rewrite N.compare_refl; exact IH.
Qed.

Lemma string_leb_refl (s : string) : String.leb s s = true.
Proof. unfold String.leb; rewrite string_compare_refl; reflexivity. Qed.

Lemma string_compare_trans (s1 s2 s3 : string) :
  String.compare s1 s2 <> Gt -> String.compare s2 s3 <> Gt ->
  String.compare s1 s3 <> Gt.
Proof.
  revert s2 s3; induction s1 as [|a s1 IH]; intros [|b s2] [|c s3];
    simpl; try congruence.
  unfold Ascii.compare.
  destruct (N.compare_spec (N_of_ascii a) (N_of_ascii b)) as [E1|L1|G1];
    destruct (N.compare_spec (N_of_ascii b) (N_of_ascii c)) as [E2|L2|G2];
    try congruence; intros H1 H2.
  - rewrite E1, E2, N.compare_refl; eauto.
  - rewrite E1; destruct (N.compare_spec (N_of_ascii b) (N_of_ascii c));
      try lia; discriminate.
  - rewrite <- E2; destruct (N.compare_spec (N_of_ascii a) (N_of_ascii b));
      try lia; discriminate.
  - destruct (N.compare_spec (N_of_ascii a) (N_of_ascii c)); try lia;
      discriminate.
Qed.

Lemma string_leb_ne_gt (a b : string) :
  String.leb a b = true <-> String.compare a b <> Gt.
Proof.
  unfold String.leb; destruct (String.compare a b); split; congruence.
Qed.


(** When equal keys are the same key, [distinct] loses none. *)
Lemma distinct_complete (ks : list (list value)) :
  (forall a b, In a ks -> In b ks -> key_eqb a b = true -> a = b) ->
  forall k, In k ks -> In k (distinct ks).
Proof.
  induction ks as [|k0 ks IH]; simpl; intros Heq k Hk; [exact Hk|].
  destruct (key_eqb k k0) eqn:E.
  - left; symmetry; apply Heq; auto.
  - destruct Hk as [->|Hk].
    + left; reflexivity.
    + right; apply filter_In; split; [apply IH; auto|rewrite E; reflexivity].
Qed.

Lemma distinct_nodup (ks : list (list value)) :
  (forall k, In k ks -> key_eqb k k = true) -> NoDup (distinct ks).
Proof.
  induction ks as [|k ks IH]; simpl; intros H; constructor.
  - intros Hin; apply filter_In in Hin; destruct Hin as [_ Hk].
    rewrite (H k) in Hk by auto; discriminate.
  - apply NoDup_filter, IH; auto.
Qed.

Section TextKey.
Variable kf : cleaned_record -> option string.
Variable key : cleaned_record -> list value.
Hypothesis key_cell : forall r, key r = [of_text (kf r)].
Variable tail : list cleaned_record -> row.
Variable columns : list value -> list cleaned_record -> row.
Hypothesis columns_key : forall k g, columns k g = (k ++ tail g)%list.
Variable t : list cleaned_record.







End TextKey.





(** Three rows of one airline, one of them without a price: the average is
    that of the other two, 150, neither undefined nor 100. *)
Example average_of_three_rows :
  df_viz "Average Price per Airline" three_prices
  = Ok [[VText "IndiGo"; VReal (inject_Z 150)]].
Proof. reflexivity. Qed.

(** ** Busiest airports *)

Lemma departures_order (a b : row) (na nb : Z) :
  col 1 a = VInt na -> col 1 b = VInt nb ->
  not_after (order_compare [(1%nat, DESC)] a b) = more_departures a b.
Proof.
  intros Ha Hb; unfold more_departures, departures, order_compare,
    term_compare; simpl fst; simpl snd; rewrite Ha, Hb.
  unfold value_compare, num_Q, Qcompare, inject_Z, Qnum, Qden.
  rewrite !Z.mul_1_r; unfold Z.leb.
  destruct (nb ?= na); reflexivity.
Qed.

Lemma more_departures_total (a b : row) :
  more_departures a b = true \/ more_departures b a = true.
Proof. unfold more_departures; lia. Qed.


Lemma sorted_by_departures (l : list row) :
  StronglySorted (fun a b => departures b <= departures a)
                 (sort more_departures l).
Proof.
  apply Sorted_StronglySorted; [intros a b c; lia|].
  pose proof (sort_sorted more_departures more_departures_total l) as H.
  induction H as [|a l' Hs IH Hd]; constructor; [exact IH|].
  destruct Hd as [|b l'' Hb]; constructor.
  unfold more_departures in Hb; lia.
Qed.



(** On that table the entry lists the 15 origins with 20 down to 6
    departures, not the first 15 origins of the table. *)
Example busiest_of_twenty_origins :
  exists rows,
    df_viz "Busiest Airports (Top 15)" twenty_airports = Ok rows
    /\ map departures rows
       = [20; 19; 18; 17; 16; 15; 14; 13; 12; 11; 10; 9; 8; 7; 6]
    /\ map (col 0) rows
       = map VText ["TRV"; "PNQ"; "PAT"; "NAG"; "MAA"; "LKO"; "JAI"; "IXC";
                    "IDR"; "HYD"; "GOI"; "GAU"; "DEL"; "COK"; "CCU"].
Proof.
  eexists; split; [vm_compute; reflexivity|].
  split; vm_compute; reflexivity.
Qed.

(** ** Dates *)

Lemma Qtrunc_nonneg (n : Z) (d : positive) :
  0 <= n -> Qtrunc (n # d) = n / Z.pos d.
Proof.
  intros H; unfold Qtrunc, Qle_bool; simpl.
  destruct (Z.leb_spec 0 (n * 1)); [reflexivity|lia].
Qed.

Lemma computeJD_bounds (y m d : Z) :
  0 <= y <= 9999 -> 1 <= m <= 12 -> 1 <= d <= 31 ->
  0 <= computeJD (y, m, d) <= 464269060799999.
Proof.
  intros Hy Hm Hd; unfold computeJD.
  destruct (Z.leb_spec m 2).
  - destruct (Z.eq_dec y 0) as [->|Hy0].
    + change (Z.quot (0 - 1) 100) with 0; change (Z.quot 0 4) with 0.
      rewrite !Z.quot_div_nonneg by lia.
      Z.div_mod_to_equations; lia.
    + rewrite !Z.quot_div_nonneg; try lia; try (apply Z.div_pos; lia).
      Z.div_mod_to_equations; lia.
  - rewrite !Z.quot_div_nonneg; try lia; try (apply Z.div_pos; lia).
    Z.div_mod_to_equations; lia.
Qed.

Lemma computeJD_shift (y m d : Z) :
  1 <= y -> 1 <= m ->
  computeJD (y + 400, m, d) = computeJD (y, m, d) + period.
Proof.
  intros Hy Hm; unfold computeJD, period.
  destruct (m <=? 2);
    (rewrite !Z.quot_div_nonneg; try lia; try (apply Z.div_pos; lia);
     Z.div_mod_to_equations; lia).
Qed.

Lemma alpha_Z (z : Z) :
  0 <= z ->
  Qtrunc ((inject_Z z + (3204475 # 100)) / (3652425 # 100))
  = (4 * z + 128179) / 146097.
Proof.
  intros Hz.
  change ((inject_Z z + (3204475 # 100)) / (3652425 # 100))%Q
    with (((z * 100 + 3204475 * 1) * 100) # (1 * 100 * 3652425)).
  rewrite Qtrunc_nonneg by lia.
  Z.div_mod_to_equations; lia.
Qed.

Lemma c_Z (b : Z) :
  123 <= b ->
  Qtrunc ((inject_Z b - (1221 # 10)) / (36525 # 100))
  = (20 * b - 2442) / 7305.
Proof.
  intros Hb.
  change ((inject_Z b - (1221 # 10)) / (36525 # 100))%Q
    with (((b * 10 + -1221 * 1) * 100) # (1 * 10 * 36525)).
  rewrite Qtrunc_nonneg by lia.
  Z.div_mod_to_equations; lia.
Qed.

Lemma e_Z (x : Z) :
  0 <= x -> Qtrunc (inject_Z x / (306001 # 10000)) = (10000 * x) / 306001.
Proof.
  intros Hx.
  change (inject_Z x / (306001 # 10000))%Q
    with ((x * 10000) # (1 * 306001)).
  rewrite Qtrunc_nonneg by lia.
  f_equal; lia.
Qed.

Lemma x1_Z (e : Z) :
  0 <= e -> Qtrunc ((306001 # 10000) * inject_Z e) = (306001 * e) / 10000.
Proof.
  intros He.
  change ((306001 # 10000) * inject_Z e)%Q
    with ((306001 * e) # (10000 * 1)).
  rewrite Qtrunc_nonneg by lia.
  reflexivity.
Qed.

Lemma land_32767 (c : Z) : 0 <= c < 32768 -> Z.land c 32767 = c.
Proof.
  intros H; change 32767 with (Z.ones 15).
  rewrite Z.land_ones by lia; apply Z.mod_small; exact H.
Qed.

Lemma computeYMD_integer (jd : Z) :
  0 <= jd <= 464269060799999 -> computeYMD jd = computeYMD_Z jd.
Proof.
  intros Hjd; unfold computeYMD, computeYMD_Z.
  rewrite (Z.quot_div_nonneg (jd + 43200000)) by lia.
  set (z := (jd + 43200000) / 86400000).
  assert (Hz : 0 <= z <= 5373484)
    by (unfold z; Z.div_mod_to_equations; lia).
  clearbody z; cbv zeta.
  rewrite alpha_Z by lia.
  set (alpha := (4 * z + 128179) / 146097 - 52).
  assert (Ha : -52 <= alpha <= 96)
    by (unfold alpha; Z.div_mod_to_equations; lia).
  clearbody alpha.
  rewrite (Z.quot_div_nonneg (alpha + 100)) by lia.
  set (b := z + 1 + alpha - (alpha + 100) / 4 + 25 + 1524).
  assert (Hb : 1486 <= b <= 5375300)
    by (unfold b; Z.div_mod_to_equations; lia).
  clearbody b.
  rewrite c_Z by lia.
  set (c := (20 * b - 2442) / 7305).
  assert (Hc : 3 <= c <= 14716 /\ 0 <= b - 36525 * c / 100 <= 500)
    by (unfold c; Z.div_mod_to_equations; lia).
  clearbody c.
  rewrite land_32767 by lia.
  rewrite (Z.quot_div_nonneg (36525 * c)) by lia.
  set (d := 36525 * c / 100) in *; clearbody d.
  rewrite e_Z by lia.
  set (e := 10000 * (b - d) / 306001).
  assert (He : 0 <= e) by (unfold e; apply Z.div_pos; lia).
  clearbody e.
  rewrite x1_Z by lia.
  reflexivity.
Qed.

Lemma computeYMD_Z_shift (jd : Z) :
  0 <= jd ->
  computeYMD_Z (jd + period)
  = let '(y, m, d) := computeYMD_Z jd in (y + 400, m, d).
Proof.
  intros Hjd; unfold computeYMD_Z, period.
  replace ((jd + 146097 * 86400000 + 43200000) / 86400000)
    with ((jd + 43200000) / 86400000 + 146097)
    by (Z.div_mod_to_equations; lia).
  set (z := (jd + 43200000) / 86400000); clearbody z; cbv zeta.
  replace ((4 * (z + 146097) + 128179) / 146097 - 52)
    with ((4 * z + 128179) / 146097 - 52 + 4)
    by (Z.div_mod_to_equations; lia).
  set (alpha := (4 * z + 128179) / 146097 - 52); clearbody alpha.
  replace (z + 146097 + 1 + (alpha + 4) - (alpha + 4 + 100) / 4 + 25 + 1524)
    with (z + 1 + alpha - (alpha + 100) / 4 + 25 + 1524 + 146100)
    by (Z.div_mod_to_equations; lia).
  set (b := z + 1 + alpha - (alpha + 100) / 4 + 25 + 1524); clearbody b.
  replace ((20 * (b + 146100) - 2442) / 7305)
    with ((20 * b - 2442) / 7305 + 400)
    by (Z.div_mod_to_equations; lia).
  set (c := (20 * b - 2442) / 7305); clearbody c.
  replace (36525 * (c + 400) / 100) with (36525 * c / 100 + 146100)
    by (Z.div_mod_to_equations; lia).
  set (d := 36525 * c / 100); clearbody d.
  replace (b + 146100 - (d + 146100)) with (b - d) by lia.
  set (e := 10000 * (b - d) / 306001); clearbody e.
  destruct (e <? 14);
    [destruct (2 <? e - 1)|destruct (2 <? e - 13)]; f_equal; f_equal; lia.
Qed.

Lemma roundtrip_first_period :
  forallb roundtrip_ok (map Z.of_nat (seq 0 401)) = true.
Proof. vm_compute; reflexivity. Qed.

Lemma triple_eqb_eq (a b : Z * Z * Z) : triple_eqb a b = true -> a = b.
Proof.
  destruct a as [[a1 a2] a3], b as [[b1 b2] b3]; simpl; intros H.
  apply andb_true_iff in H; destruct H as [H H3].
  apply andb_true_iff in H; destruct H as [H1 H2].
  apply Z.eqb_eq in H1, H2, H3; congruence.
Qed.

Lemma days_in_month_shift (y m : Z) :
  days_in_month (y + 400) m = days_in_month y m.
Proof.
  unfold days_in_month, is_leap.
  replace ((y + 400) mod 4) with (y mod 4)
    by (Z.div_mod_to_equations; lia).
  replace ((y + 400) mod 100) with (y mod 100)
    by (Z.div_mod_to_equations; lia).
  replace ((y + 400) mod 400) with (y mod 400)
    by (Z.div_mod_to_equations; lia).
  reflexivity.
Qed.

Lemma days_in_month_le_31 (y m : Z) : days_in_month y m <= 31.
Proof.
  unfold days_in_month.
  destruct (m =? 2); [destruct (is_leap y); lia|].
  destruct ((m =? 4) || (m =? 6) || (m =? 9) || (m =? 11)); lia.
Qed.

Lemma roundtrip_small (y m d : Z) :
  0 <= y <= 400 -> 1 <= m <= 12 -> 29 <= d <= days_in_month y m ->
  computeYMD_Z (computeJD (y, m, d)) = (y, m, d).
Proof.
  intros Hy Hm Hd.
  pose proof roundtrip_first_period as H.
  rewrite forallb_forall in H.
  assert (Hin : In y (map Z.of_nat (seq 0 401))).
  { rewrite <- (Z2Nat.id y) by lia; apply in_map, in_seq; lia. }
  specialize (H y Hin); unfold roundtrip_ok in H.
  rewrite forallb_forall in H.
  assert (Hmin : In m [1; 2; 3; 4; 5; 6; 7; 8; 9; 10; 11; 12])
    by (simpl; lia).
  specialize (H m Hmin); rewrite forallb_forall in H.
  pose proof (days_in_month_le_31 y m).
  assert (Hdin : In d [29; 30; 31]) by (simpl; lia).
  specialize (H d Hdin).
  destruct (Z.leb_spec d (days_in_month y m)); [|lia].
  apply triple_eqb_eq; exact H.
Qed.

Lemma roundtrip_periods (n : nat) (y m d : Z) :
  0 <= y <= 400 + 400 * Z.of_nat n -> y <= 9999 ->
  1 <= m <= 12 -> 29 <= d <= days_in_month y m ->
  computeYMD_Z (computeJD (y, m, d)) = (y, m, d).
Proof.
  revert y; induction n as [|n IH]; intros y Hy Hmax Hm Hd.
  - apply roundtrip_small; lia.
  - destruct (Z_le_gt_dec y (400 + 400 * Z.of_nat n)) as [Hle|Hgt];
      [apply IH; lia|].
    replace y with (y - 400 + 400) in * by lia.
    rewrite days_in_month_shift in Hd.
    pose proof (days_in_month_le_31 (y - 400) m).
    rewrite computeJD_shift by lia.
    rewrite computeYMD_Z_shift
      by (apply (computeJD_bounds (y - 400) m d); lia).
    rewrite IH by lia; reflexivity.
Qed.

Lemma roundtrip (y m d : Z) :
  0 <= y <= 9999 -> 1 <= m <= 12 -> 29 <= d <= days_in_month y m ->
  computeYMD (computeJD (y, m, d)) = (y, m, d).
Proof.
  intros Hy Hm Hd; pose proof (days_in_month_le_31 y m).
  rewrite computeYMD_integer by (apply computeJD_bounds; lia).
  apply (roundtrip_periods 24); lia.
Qed.

Lemma pad_num_4 (z : Z) :
  pad_num 4 z
  = String (digit_char (z / 10 / 10 / 10))
      (String (digit_char (z / 10 / 10))
         (String (digit_char (z / 10)) (String (digit_char z) EmptyString))).
Proof. reflexivity. Qed.

Lemma get_digits_2 (lo hi z : Z) :
  0 <= z <= 99 ->
  get_digits 2 lo hi (pad_num 2 z)
  = if (lo <=? z) && (z <=? hi) then Some z else None.
Proof.
  intros Hz; rewrite pad_num_2; unfold get_digits.
  destruct (digit_char_val (z / 10)) as [Ha Hav].
  destruct (digit_char_val z) as [Hb Hbv].
  cbn [substring String.length Nat.eqb all_digits andb].
  rewrite Ha, Hb; cbn [andb].
  unfold digits_value; cbn [digits_value_from]; rewrite Hav, Hbv.
  replace (10 * (10 * 0 + (z / 10) mod 10) + z mod 10) with z
    by (Z.div_mod_to_equations; lia).
  reflexivity.
Qed.

Lemma get_digits_4 (z : Z) (rest : string) :
  0 <= z <= 9999 ->
  get_digits 4 0 9999 (pad_num 4 z ++ rest) = Some z.
Proof.
  intros Hz; rewrite pad_num_4; unfold get_digits.
  destruct (digit_char_val (z / 10 / 10 / 10)) as [Ha Hav].
  destruct (digit_char_val (z / 10 / 10)) as [Hb Hbv].
  destruct (digit_char_val (z / 10)) as [Hc Hcv].
  destruct (digit_char_val z) as [Hd Hdv].
  cbn [append substring]; rewrite substring_0_0.
  cbn [String.length Nat.eqb all_digits andb].
  rewrite Ha, Hb, Hc, Hd; cbn [andb].
  unfold digits_value; cbn [digits_value_from];
    rewrite Hav, Hbv, Hcv, Hdv.
  replace (10 * (10 * (10 * (10 * 0 + (z / 10 / 10 / 10) mod 10)
                       + (z / 10 / 10) mod 10) + (z / 10) mod 10)
           + z mod 10) with z
    by (Z.div_mod_to_equations; lia).
  destruct (Z.leb_spec 0 z); [|lia].
  destruct (Z.leb_spec z 9999); [reflexivity|lia].
Qed.

(** The text assembled from a day-month-year text is the year-month-day
    text. *)
Lemma reordered_padded (y m d : Z) :
  reordered_date (pad_num 2 d ++ "-" ++ pad_num 2 m ++ "-" ++ pad_num 4 y)
  = pad_num 4 y ++ "-" ++ pad_num 2 m ++ "-" ++ pad_num 2 d.
Proof. reflexivity. Qed.

Lemma parse_ymd_padded (y m d : Z) :
  0 <= y <= 9999 -> 0 <= m <= 99 -> 0 <= d <= 99 ->
  parse_ymd (pad_num 4 y ++ "-" ++ pad_num 2 m ++ "-" ++ pad_num 2 d)
  = if (1 <=? m) && (m <=? 12) && ((1 <=? d) && (d <=? 31))
    then Some (y, m, d) else None.
Proof.
  intros Hy Hm Hd; unfold parse_ymd.
  rewrite get_digits_4 by exact Hy.
  replace (substring 5 2 (pad_num 4 y ++ "-" ++ pad_num 2 m ++ "-" ++ pad_num 2 d))
    with (pad_num 2 m) by reflexivity.
  replace (substring 8 2 (pad_num 4 y ++ "-" ++ pad_num 2 m ++ "-" ++ pad_num 2 d))
    with (pad_num 2 d) by reflexivity.
  rewrite !get_digits_2 by assumption.
  replace (String.length (pad_num 4 y ++ "-" ++ pad_num 2 m ++ "-" ++ pad_num 2 d)
           =? 10)%nat with true by reflexivity.
  replace (substring 4 1 (pad_num 4 y ++ "-" ++ pad_num 2 m ++ "-" ++ pad_num 2 d)
           =? "-")%string with true by reflexivity.
  replace (substring 7 1 (pad_num 4 y ++ "-" ++ pad_num 2 m ++ "-" ++ pad_num 2 d)
           =? "-")%string with true by reflexivity.
  cbn [andb].
  destruct ((1 <=? m) && (m <=? 12)); [|reflexivity].
  destruct ((1 <=? d) && (d <=? 31)); reflexivity.
Qed.

Lemma valid_julian_day (y m d : Z) :
  0 <= y <= 9999 -> 1 <= m <= 12 -> 1 <= d <= 31 ->
  validJulianDay (computeJD (y, m, d)) = true.
Proof.
  intros Hy Hm Hd; pose proof (computeJD_bounds y m d Hy Hm Hd) as H.
  unfold validJulianDay; apply andb_true_iff; split; apply Z.leb_le; lia.
Qed.

Lemma iso_not_minus_zero (y : Z) (rest : string) :
  minus_zero (pad_num 4 y ++ rest) = false.
Proof.
  rewrite pad_num_4; cbn [append]; unfold minus_zero; cbn [skip_spaces].
  destruct (digit_char_val (y / 10 / 10 / 10)) as [Hd _].
  destruct (digit_facts _ Hd) as (Hs & Hm & _).
  rewrite Hs, Hm; reflexivity.
Qed.

(** C9, as the code has it.  A calendar date written day-month-year comes
    back as the same date in ISO order.  A month outside 1..12 or a day
    outside 1..31 gives NULL.  A day up to 31 that the month does not have
    is not rejected: a date comes back all the same. *)
Theorem parse_date_reorders (normalize_dates : bool) (y m d : Z) :
  0 <= y <= 9999 -> 0 <= m <= 99 -> 0 <= d <= 99 ->
  (1 <= m <= 12 -> 1 <= d <= days_in_month y m ->
   parse_date normalize_dates (Some (dmy d m y)) = Some (iso y m d))
  /\ (m < 1 \/ 12 < m \/ d < 1 \/ 31 < d ->
      parse_date normalize_dates (Some (dmy d m y)) = None)
  /\ (1 <= m <= 12 -> days_in_month y m < d <= 31 ->
      exists text, parse_date normalize_dates (Some (dmy d m y)) = Some text).
Proof.
  intros Hy Hm Hd.
  assert (E : parse_date normalize_dates (Some (dmy d m y))
              = date normalize_dates (iso y m d)) by reflexivity.
  rewrite E; clear E; unfold date, iso.
  rewrite parse_ymd_padded by assumption.
  pose proof (days_in_month_le_31 y m) as Hdim.
  split; [|split].
  - intros Hm' Hd'.
    destruct (Z.leb_spec 1 m), (Z.leb_spec m 12), (Z.leb_spec 1 d),
      (Z.leb_spec d 31); try lia; cbn [andb].
    rewrite valid_julian_day by lia.
    destruct (normalize_dates && (28 <? d)) eqn:N; [|reflexivity].
    apply andb_true_iff in N; destruct N as [_ N]; apply Z.ltb_lt in N.
    rewrite roundtrip by lia; reflexivity.
  - intros H; rewrite iso_not_minus_zero.
    destruct (Z.leb_spec 1 m), (Z.leb_spec m 12), (Z.leb_spec 1 d),
      (Z.leb_spec d 31); try lia; reflexivity.
  - intros Hm' Hd'.
    destruct (Z.leb_spec 1 m), (Z.leb_spec m 12), (Z.leb_spec 1 d),
      (Z.leb_spec d 31); try lia; cbn [andb].
    + rewrite valid_julian_day by lia.
      destruct (if normalize_dates && (28 <? d)
                then computeYMD (computeJD (y, m, d)) else (y, m, d))
        as [[y' m'] d'].
      eexists; reflexivity.
    + unfold days_in_month in Hd'.
      destruct (m =? 2); [destruct (is_leap y)|
        destruct ((m =? 4) || (m =? 6) || (m =? 9) || (m =? 11))]; lia.
Qed.

Lemma parse_date_reorders_witness :
  parse_date true (Some "05-03-2024") = Some "2024-03-05".
Proof.
  apply (proj1 (parse_date_reorders true 2024 3 5
                  ltac:(lia) ltac:(lia) ltac:(lia)));
    [lia|vm_compute; split; discriminate].
Defined.

(** C9 as stated fails: the text reassembled from 31 February is no
    calendar date, yet [parse_date] does not fail on it; it returns 3 March,
    or 31 February itself where SQLite does not normalise. *)
Lemma parse_date_counterexample :
  days_in_month 2023 2 = 28
  /\ parse_date true (Some "31-02-2023") = Some "2023-03-03"
  /\ parse_date false (Some "31-02-2023") = Some "2023-02-31".
Proof. repeat split. Qed.

(** * Further properties of the program *)

(** ** Minimum, maximum and the slider bounds *)

Lemma non_null_in {A} (col : list (option A)) (x : A) :
  In x (non_null col) <-> In (Some x) col.
Proof.
  induction col as [|[y|] col IH]; simpl; [tauto| |].
  - rewrite IH; split; intros [H|H]; auto; left; congruence.
  - rewrite IH; split; [auto|intros [H|H]; [discriminate|auto]].
Qed.

Section Extremum.
Context {A : Type} (better : A -> A -> bool) (le : A -> A -> Prop).
Hypothesis le_refl : forall a, le a a.
Hypothesis le_trans : forall a b c, le a b -> le b c -> le a c.
Hypothesis better_le : forall a b, better a b = true -> le a b.
Hypothesis worse_le : forall a b, better a b = false -> le b a.

Lemma fold_extremum (xs : list A) (x : A) :
  let m := fold_left (fun m y => if better y m then y else m) xs x in
  In m (x :: xs) /\ forall y, In y (x :: xs) -> le m y.
Proof.
  revert x; induction xs as [|z xs IH]; intros x; cbn [fold_left].
  - split; [left; reflexivity|intros y [<-|[]]; apply le_refl].
  - destruct (IH (if better z x then z else x)) as [Hin Hle].
    split.
    + destruct Hin as [Hin|Hin]; [|right; right; exact Hin].
      rewrite <- Hin; destruct (better z x); simpl; auto.
    + intros y [<-|[<-|Hy]].
      * eapply le_trans; [apply Hle; left; reflexivity|].
        destruct (better z x) eqn:E; [apply better_le, E|apply le_refl].
      * eapply le_trans; [apply Hle; left; reflexivity|].
        destruct (better z x) eqn:E; [apply le_refl|apply worse_le, E].
      * apply Hle; right; exact Hy.
Qed.

(** [reduce] returns a value of the column that stands before every
    other. *)
Lemma reduce_extremum (col : list (option A)) (m : A) :
  reduce better col = Some m ->
  In (Some m) col /\ forall y, In (Some y) col -> le m y.
Proof.
  unfold reduce; destruct (non_null col) as [|x xs] eqn:E; [discriminate|].
  intros H; injection H as <-.
  destruct (fold_extremum xs x) as [Hin Hle].
  split; [apply non_null_in; rewrite E; exact Hin|].
  intros y Hy; apply Hle; rewrite <- E; apply non_null_in; exact Hy.
Qed.

Lemma reduce_some (col : list (option A)) (x : A) :
  In (Some x) col -> exists m, reduce better col = Some m.
Proof.
  intros H; apply non_null_in in H; unfold reduce.
  destruct (non_null col); [contradiction|eauto].
Qed.
End Extremum.

Lemma num_lt_le (a b : num) : num_lt a b = true -> num_le a b.
Proof.
  unfold num_lt, num_le; intros H; apply negb_true_iff in H.
  apply Qlt_le_weak, Qnot_le_lt; intros C.
  apply Qle_bool_iff in C; congruence.
Qed.

Lemma num_not_lt_le (a b : num) : num_lt a b = false -> num_le b a.
Proof.
  unfold num_lt, num_le; intros H; apply negb_false_iff in H.
  apply Qle_bool_iff; exact H.
Qed.

Lemma num_min_spec (col : list (option num)) (m : num) :
  num_min col = Some m ->
  In (Some m) col /\ forall y, In (Some y) col -> num_le m y.
Proof.
  apply (reduce_extremum num_lt num_le).
  - intros a; apply Qle_refl.
  - intros a b c; apply Qle_trans.
  - apply num_lt_le.
  - apply num_not_lt_le.
Qed.

Lemma num_max_spec (col : list (option num)) (m : num) :
  num_max col = Some m ->
  In (Some m) col /\ forall y, In (Some y) col -> num_le y m.
Proof.
  apply (reduce_extremum (fun a b => num_lt b a) (fun a b => num_le b a)).
  - intros a; apply Qle_refl.
  - intros a b c H1 H2; exact (Qle_trans _ _ _ H2 H1).
  - intros a b; apply num_lt_le.
  - intros a b; apply num_not_lt_le.
Qed.

Lemma Qtrunc_mono (p q : Q) : (p <= q)%Q -> Qtrunc p <= Qtrunc q.
Proof.
  intros H; unfold Qtrunc.
  destruct (Qle_bool 0 p) eqn:Ep, (Qle_bool 0 q) eqn:Eq.
  - apply Qfloor_resp_le, H.
  - apply Qle_bool_iff in Ep.
    assert (C : Qle_bool 0 q = true)
      by (apply Qle_bool_iff; exact (Qle_trans _ _ _ Ep H)).
    congruence.
  - apply Qle_bool_iff in Eq.
    apply Z.le_trans with 0.
    + assert (Hp : (p <= 0)%Q).
      { apply Qlt_le_weak, Qnot_le_lt; intros C.
        apply Qle_bool_iff in C; congruence. }
      apply Qceiling_resp_le in Hp.
      change (Qceiling 0) with 0 in Hp; exact Hp.
    + apply Qfloor_resp_le in Eq; exact Eq.
  - apply Qceiling_resp_le, H.
Qed.

Lemma Qtrunc_Z (z : Z) : Qtrunc (inject_Z z) = z.
Proof.
  unfold Qtrunc; destruct (Qle_bool 0 (inject_Z z));
    [apply Qfloor_Z|apply Qceiling_Z].
Qed.

Lemma int_of_num_trunc (n : num) : int_of_num n = Qtrunc (num_Q n).
Proof. destruct n; simpl; [symmetry; apply Qtrunc_Z|reflexivity]. Qed.

Lemma int_of_num_mono (a b : num) : num_le a b -> int_of_num a <= int_of_num b.
Proof. rewrite !int_of_num_trunc; apply Qtrunc_mono. Qed.

(** What [derive_bounds] returns when it returns. *)
(** A whole number between two numbers is between their truncations. *)
Lemma whole_between (lo hi n : num) (z : Z) :
  num_le lo n -> num_le n hi -> (num_Q n == inject_Z z)%Q ->
  Qle_bool (inject_Z (int_of_num lo)) (num_Q n) = true
  /\ Qle_bool (num_Q n) (inject_Z (int_of_num hi)) = true.
Proof.
  intros Hlo Hhi Hz; unfold num_le in *.
  rewrite !int_of_num_trunc.
  rewrite Hz in Hlo, Hhi.
  apply Qtrunc_mono in Hlo, Hhi; rewrite Qtrunc_Z in Hlo, Hhi.
  split; apply Qle_bool_iff; rewrite Hz, <- Zle_Qle; assumption.
Qed.

Lemma derive_bounds_ok (df : list cleaned_record) (b : bounds) :
  derive_bounds df = Ok b ->
  exists p0 p1 d0 d1,
    num_min (map Price_Float df) = Some p0
    /\ num_max (map Price_Float df) = Some p1
    /\ num_min (map Duration_Minutes df) = Some d0
    /\ num_max (map Duration_Minutes df) = Some d1
    /\ min_price b = int_of_num p0 /\ max_price b = int_of_num p1
    /\ min_duration b = int_of_num d0 /\ max_duration b = int_of_num d1.
Proof.
  unfold derive_bounds.
  destruct (int_of_str_stat (str_min (map Departure_Hour df))); [|discriminate].
  destruct (int_of_str_stat (str_max (map Departure_Hour df))); [|discriminate].
  destruct (num_min (map Price_Float df)) as [p0|]; [|discriminate].
  destruct (num_max (map Price_Float df)) as [p1|]; [|discriminate].
  destruct (num_min (map Duration_Minutes df)) as [d0|]; [|discriminate].
  destruct (num_max (map Duration_Minutes df)) as [d1|]; [|discriminate].
  simpl; intros H; injection H as <-.
  exists p0, p1, d0, d1; repeat split.
Qed.

(** X1.  Whenever the slider bounds are derived, the price and duration
    sliders get a lower bound that does not exceed the upper one. *)
Theorem bounds_are_ordered (df : list cleaned_record) (b : bounds) :
  derive_bounds df = Ok b ->
  min_price b <= max_price b /\ min_duration b <= max_duration b.
Proof.
  intros H; apply derive_bounds_ok in H.
  destruct H as (p0 & p1 & d0 & d1 & P0 & P1 & D0 & D1 & -> & -> & -> & ->).
  apply num_min_spec in P0, D0; apply num_max_spec in P1, D1.
  destruct P0 as [I0 L0], P1 as [I1 L1], D0 as [J0 K0], D1 as [J1 K1].
  split; apply int_of_num_mono; auto.
Qed.

Lemma bounds_are_ordered_witness :
  exists b, derive_bounds (df_cleaned true unpadded_flights) = Ok b
            /\ min_price b <= max_price b /\ min_duration b <= max_duration b.
Proof.
  eexists; split; [reflexivity|].
  apply (bounds_are_ordered (df_cleaned true unpadded_flights)); reflexivity.
Defined.

(** X2.  The derived price and duration ranges admit every row whose value
    is a whole number: the defaults of the two sliders drop no such row. *)
Theorem bounds_admit_whole_numbers
        (df : list cleaned_record) (b : bounds) (r : cleaned_record) :
  derive_bounds df = Ok b -> In r df ->
  (forall n z, Price_Float r = Some n -> (num_Q n == inject_Z z)%Q ->
     ge_cell (Price_Float r) (min_price b) = true
     /\ le_cell (Price_Float r) (max_price b) = true)
  /\ (forall n z, Duration_Minutes r = Some n -> (num_Q n == inject_Z z)%Q ->
        ge_cell (Duration_Minutes r) (min_duration b) = true
        /\ le_cell (Duration_Minutes r) (max_duration b) = true).
Proof.
  intros H Hr; apply derive_bounds_ok in H.
  destruct H as (p0 & p1 & d0 & d1 & P0 & P1 & D0 & D1 & -> & -> & -> & ->).
  apply num_min_spec in P0, D0; apply num_max_spec in P1, D1.
  destruct P0 as [_ L0], P1 as [_ L1], D0 as [_ K0], D1 as [_ K1].
  split; intros n z Hn Hz; rewrite Hn; simpl.
  - apply (whole_between p0 p1 n z); auto.
    + apply L0; rewrite <- Hn; apply in_map; exact Hr.
    + apply L1; rewrite <- Hn; apply in_map; exact Hr.
  - apply (whole_between d0 d1 n z); auto.
    + apply K0; rewrite <- Hn; apply in_map; exact Hr.
    + apply K1; rewrite <- Hn; apply in_map; exact Hr.
Qed.

Lemma bounds_admit_whole_numbers_witness :
  exists b r,
    derive_bounds (df_cleaned true unpadded_flights) = Ok b
    /\ In r (df_cleaned true unpadded_flights)
    /\ ge_cell (Price_Float r) (min_price b) = true
    /\ le_cell (Price_Float r) (max_price b) = true.
Proof.
  eexists; exists (query_cleaned true (flight_at "09:00")).
  split; [reflexivity|]. split; [left; reflexivity|].
  apply (proj1 (bounds_admit_whole_numbers
                  (df_cleaned true unpadded_flights) _
                  (query_cleaned true (flight_at "09:00"))
                  eq_refl (or_introl eq_refl))
           (NReal (inject_Z 4500)) 4500 eq_refl (Qeq_refl _)).
Defined.

Lemma Qtrunc_comp (p q : Q) : (p == q)%Q -> Qtrunc p = Qtrunc q.
Proof.
  intros H; apply Z.le_antisymm; apply Qtrunc_mono; rewrite H;
    apply Qle_refl.
Qed.

(** X3.  The upper bound of the price slider is the largest price cut down
    to a whole number.  When the largest price is positive and has a
    fractional part, the row that carries it fails the default range, so
    the unfiltered view already leaves it out. *)
Theorem fractional_maximum_is_dropped
        (df : list cleaned_record) (b : bounds) (r : cleaned_record)
        (n : num) (spec : filter_spec) (hour : Z) :
  derive_bounds df = Ok b -> In r df -> Price_Float r = Some n ->
  (forall y, In (Some y) (map Price_Float df) -> num_le y n) ->
  (inject_Z (Qfloor (num_Q n)) < num_Q n)%Q -> (0 <= num_Q n)%Q ->
  snd (price_range spec) = max_price b ->
  keep spec r hour = false.
Proof.
  intros H Hr Hn Hmax Hfrac Hpos Hspec; apply derive_bounds_ok in H.
  destruct H as (p0 & p1 & d0 & d1 & _ & P1 & _ & _ & _ & E & _ & _).
  apply num_max_spec in P1; destruct P1 as [I1 L1].
  assert (Heq : (num_Q p1 == num_Q n)%Q).
  { apply Qle_antisym; [apply Hmax, I1|].
    apply L1; rewrite <- Hn; apply in_map; exact Hr. }
  assert (Hle : le_cell (Price_Float r) (snd (price_range spec)) = false).
  { rewrite Hspec, E, Hn, int_of_num_trunc, (Qtrunc_comp _ _ Heq).
    unfold le_cell, Qtrunc.
    apply Qle_bool_iff in Hpos; rewrite Hpos.
    destruct (Qle_bool (num_Q n) (inject_Z (Qfloor (num_Q n)))) eqn:C;
      [|reflexivity].
    apply Qle_bool_iff in C; exact (False_ind _ (Qlt_not_le _ _ Hfrac C)). }
  unfold keep; rewrite Hle.
  repeat rewrite ?andb_false_r, ?andb_false_l; reflexivity.
Qed.

Lemma fractional_maximum_is_dropped_witness :
  keep {| selected_airlines := ["IndiGo"];
          selected_cabin_classes := ["Economy"];
          selected_origins := ["DEL"];
          selected_destinations := ["BOM"];
          departure_hour_range := (9, 9);
          price_range := (4500, 4500);
          duration_range := (130, 130) |}
       (priced "IndiGo" (Some "4,500.50")) 9 = false.
Proof.
  apply (fractional_maximum_is_dropped
           [priced "IndiGo" (Some "4,500.50")]
           {| min_hour := 9; max_hour := 9; min_price := 4500;
              max_price := 4500; min_duration := 130; max_duration := 130 |}
           _ (NReal (9001 # 2))).
  - reflexivity.
  - left; reflexivity.
  - reflexivity.
  - intros y [H|[]]; injection H as <-; apply Qle_refl.
  - reflexivity.
  - discriminate.
  - reflexivity.
Defined.

(** ** The filter *)

Lemma filter_combine_hours
      (spec : filter_spec) (df : list cleaned_record) (hours : list Z) :
  astype_int (map Departure_Hour df) = Ok hours ->
  map fst (filter (fun x => keep spec (fst x) (snd x)) (combine df hours))
  = filter (passes spec) df.
Proof.
  unfold astype_int; revert hours.
  induction df as [|r df IH]; intros hours H; [reflexivity|].
  cbn [map mapM] in H; cbn [filter].
  destruct (int_of_object (Departure_Hour r)) as [h|e] eqn:Eh;
    [|discriminate].
  cbn [bind] in H.
  destruct (mapM int_of_object (map Departure_Hour df)) as [hs|e] eqn:Ehs;
    [|discriminate].
  cbn [bind] in H; injection H as <-.
  cbn [combine filter fst snd].
  replace (passes spec r) with (keep spec r h) by (unfold passes; rewrite Eh; reflexivity).
  destruct (keep spec r h); cbn [map fst]; rewrite (IH hs eq_refl);
    reflexivity.
Qed.

(** What [df_filtered] returns when it returns: the rows that pass, in the
    order of the cleaned relation. *)
Lemma df_filtered_ok
      (df : list cleaned_record) (spec : filter_spec)
      (kept : list cleaned_record) :
  df_filtered df spec = Ok kept -> kept = filter (passes spec) df.
Proof.
  unfold df_filtered.
  destruct (astype_int (map Departure_Hour df)) as [hours|e] eqn:E;
    [|discriminate].
  cbn [bind]; intros H; injection H as <-.
  apply filter_combine_hours, E.
Qed.

Lemma passes_hour (spec : filter_spec) (r : cleaned_record) :
  passes spec r = true ->
  exists h, int_of_object (Departure_Hour r) = Ok h /\ keep spec r h = true.
Proof.
  unfold passes; destruct (int_of_object (Departure_Hour r)) as [h|e];
    [eauto|discriminate].
Qed.

Lemma cell_in_range (x : option num) (lo hi : Z) :
  ge_cell x lo = true -> le_cell x hi = true ->
  exists n, x = Some n
            /\ (inject_Z lo <= num_Q n)%Q /\ (num_Q n <= inject_Z hi)%Q.
Proof.
  destruct x as [n|]; [|discriminate]; simpl; intros H1 H2.
  exists n; repeat split; apply Qle_bool_iff; assumption.
Qed.

Lemma isin_in (x : option string) (values : list string) :
  isin x values = true <-> exists s, x = Some s /\ In s values.
Proof.
  destruct x as [s|]; simpl.
  - rewrite existsb_exists; split.
    + intros (y & Hy & E); apply String.eqb_eq in E; subst; eauto.
    + intros (y & E & Hy); injection E as <-.
      exists s; split; [exact Hy|apply String.eqb_refl].
  - split; [discriminate|intros (s & E & _); discriminate].
Qed.

(** X4.  The filtered relation is a selection of the cleaned relation in
    its original order, and a row is in it exactly when its four
    categorical values are selected, its departure hour converts to an
    integer of the hour range, and its price and duration are defined and
    within their ranges, bounds included. *)
Theorem filtered_rows
        (df : list cleaned_record) (spec : filter_spec)
        (kept : list cleaned_record) :
  df_filtered df spec = Ok kept ->
  kept = filter (passes spec) df
  /\ forall r,
      In r kept <->
      In r df
      /\ (exists a, Company (raw r) = Some a /\ In a (selected_airlines spec))
      /\ (exists c, Cabin_Class (raw r) = Some c
                    /\ In c (selected_cabin_classes spec))
      /\ (exists o, Origin (raw r) = Some o /\ In o (selected_origins spec))
      /\ (exists d, Destination (raw r) = Some d
                    /\ In d (selected_destinations spec))
      /\ (exists h, int_of_object (Departure_Hour r) = Ok h
                    /\ fst (departure_hour_range spec) <= h
                       <= snd (departure_hour_range spec))
      /\ (exists p, Price_Float r = Some p
                    /\ (inject_Z (fst (price_range spec)) <= num_Q p)%Q
                    /\ (num_Q p <= inject_Z (snd (price_range spec)))%Q)
      /\ (exists m, Duration_Minutes r = Some m
                    /\ (inject_Z (fst (duration_range spec)) <= num_Q m)%Q
                    /\ (num_Q m <= inject_Z (snd (duration_range spec)))%Q).
Proof.
  intros H; apply df_filtered_ok in H; split; [exact H|].
  intros r; rewrite H, filter_In; clear H.
  split.
  - intros [Hin Hp]; split; [exact Hin|].
    apply passes_hour in Hp; destruct Hp as (h & Eh & Hk).
    unfold keep in Hk.
    repeat (apply andb_true_iff in Hk; destruct Hk as [Hk ?]).
    repeat split; try (apply isin_in; assumption).
    + exists h; split; [exact Eh|lia].
    + apply cell_in_range; assumption.
    + apply cell_in_range; assumption.
  - intros (Hin & Ha & Hc & Ho & Hd & (h & Eh & Hh) & (p & Ep & P0 & P1)
            & (m & Em & M0 & M1)).
    split; [exact Hin|].
    unfold passes; rewrite Eh; unfold keep.
    apply isin_in in Ha, Hc, Ho, Hd; rewrite Ha, Hc, Ho, Hd, Ep, Em.
    cbn [andb ge_cell le_cell].
    apply Qle_bool_iff in P0, P1, M0, M1; rewrite P0, P1, M0, M1.
    destruct (Z.leb_spec (fst (departure_hour_range spec)) h); [|lia].
    destruct (Z.leb_spec h (snd (departure_hour_range spec))); [|lia].
    reflexivity.
Qed.

Lemma filter_idempotent {A} (p : A -> bool) (l : list A) :
  filter p (filter p l) = filter p l.
Proof.
  induction l as [|x l IH]; simpl; [reflexivity|].
  destruct (p x) eqn:E; simpl; rewrite ?E, IH; reflexivity.
Qed.

(** X5.  Filtering is idempotent: applied to its own result with the same
    selection it raises nothing and returns that result. *)
Theorem filter_is_idempotent
        (df : list cleaned_record) (spec : filter_spec)
        (kept : list cleaned_record) :
  df_filtered df spec = Ok kept -> df_filtered kept spec = Ok kept.
Proof.
  intros H; apply df_filtered_ok in H.
  destruct (mapM_all_ok int_of_object (map Departure_Hour kept))
    as [hours Eh].
  { intros x Hx; apply in_map_iff in Hx; destruct Hx as (r & <- & Hr).
    rewrite H in Hr; apply filter_In in Hr; destruct Hr as [_ Hp].
    apply passes_hour in Hp; destruct Hp as (h & -> & _); eauto. }
  unfold df_filtered; fold (astype_int (map Departure_Hour kept)) in Eh.
  rewrite Eh; cbn [bind]; f_equal.
  rewrite (filter_combine_hours spec kept hours Eh), H.
  apply filter_idempotent.
Qed.

Lemma classic_hours (df : list cleaned_record) :
  (forall r, In r df -> exists h, int_of_object (Departure_Hour r) = Ok h)
  \/ exists r e, In r df /\ int_of_object (Departure_Hour r) = Raise e.
Proof.
  induction df as [|r df [IH|(r' & e & Hr & He)]].
  - left; intros r [].
  - destruct (int_of_object (Departure_Hour r)) as [h|e] eqn:E.
    + left; intros x [<-|Hx]; eauto.
    + right; exists r, e; simpl; auto.
  - right; exists r', e; simpl; auto.
Qed.

(** X6.  Whether the filter raises does not depend on the selection: it
    raises exactly when some departure hour of the cleaned relation does
    not convert to an integer. *)
Theorem filter_raises_iff (df : list cleaned_record) (spec : filter_spec) :
  (exists e, df_filtered df spec = Raise e)
  <-> exists r e, In r df /\ int_of_object (Departure_Hour r) = Raise e.
Proof.
  split.
  - intros [e H].
    destruct (classic_hours df) as [Hall|Hbad]; [|exact Hbad].
    destruct (mapM_all_ok int_of_object (map Departure_Hour df))
      as [hours Eh].
    { intros x Hx; apply in_map_iff in Hx; destruct Hx as (r & <- & Hr).
      apply Hall, Hr. }
    unfold df_filtered, astype_int in H; rewrite Eh in H; discriminate.
  - intros (r & e & Hr & He).
    exact (filter_raises_on_bad_hour df spec r e Hr He).
Qed.

Lemma filtered_rows_witness :
  df_cleaned true [flight_at "09:00"; flight_at "23:45"]
  = filter (passes select_all)
           (df_cleaned true [flight_at "09:00"; flight_at "23:45"]).
Proof.
  exact (proj1 (filtered_rows
                  (df_cleaned true [flight_at "09:00"; flight_at "23:45"])
                  select_all _ eq_refl)).
Defined.

Lemma filter_is_idempotent_witness :
  df_filtered (df_cleaned true [flight_at "09:00"; flight_at "23:45"])
              select_all
  = Ok (df_cleaned true [flight_at "09:00"; flight_at "23:45"]).
Proof.
  exact (filter_is_idempotent
           (df_cleaned true [flight_at "09:00"; flight_at "23:45"])
           select_all _ eq_refl).
Defined.

(** ** Filter options *)

Lemma options_in (col : list (option string)) (s : string) :
  In s (options col) <-> In (Some s) col.
Proof. unfold options; rewrite sort_in, nodup_In; apply non_null_in. Qed.

Lemma options_nodup (col : list (option string)) : NoDup (options col).
Proof.
  apply (Permutation_NoDup (l := nodup string_dec (non_null col)));
    [symmetry; apply sort_perm|apply NoDup_nodup].
Qed.

(** X7.  The options offered for a categorical attribute are the values
    present in the column, each once, in ascending order; missing values
    are not offered. *)
Theorem options_are_sorted_distinct_values (col : list (option string)) :
  Sorted (fun a b => String.leb a b = true) (options col)
  /\ NoDup (options col)
  /\ forall s, In s (options col) <-> In (Some s) col.
Proof.
  split; [apply sort_sorted, String.leb_total|].
  split; [apply options_nodup|apply options_in].
Qed.

Lemma nodup_singleton {A} (l : list A) (c : A) :
  NoDup l -> In c l -> (forall x, In x l -> x = c) -> l = [c].
Proof.
  intros Hn Hc Hall; destruct l as [|x l]; [contradiction|].
  rewrite (Hall x (or_introl eq_refl)) in *.
  destruct l as [|y l]; [reflexivity|].
  apply NoDup_cons_iff in Hn; destruct Hn as [Hn _].
  exfalso; apply Hn; left; apply Hall; right; left; reflexivity.
Qed.

(** X8.  The cabin-class selection: with no class present in the cleaned
    relation the script raises [IndexError]; with a single class it selects
    that class, whatever the widget would hold; with two or more it takes
    the widget's selection. *)
Theorem selected_classes_cases
        (df : list cleaned_record) (widget : list string) :
  ((forall r, In r df -> Cabin_Class (raw r) = None) ->
   selected_classes df widget = Raise IndexError)
  /\ (forall c,
        (exists r, In r df /\ Cabin_Class (raw r) = Some c) ->
        (forall r c', In r df -> Cabin_Class (raw r) = Some c' -> c' = c) ->
        selected_classes df widget = Ok [c])
  /\ (forall r1 r2 c1 c2,
        In r1 df -> In r2 df ->
        Cabin_Class (raw r1) = Some c1 -> Cabin_Class (raw r2) = Some c2 ->
        c1 <> c2 -> selected_classes df widget = Ok widget).
Proof.
  unfold selected_classes.
  set (col := map (fun r => Cabin_Class (raw r)) df).
  pose proof (options_nodup col) as Hn.
  pose proof (options_in col) as Hin.
  assert (Hcol : forall c, In (Some c) col
                           <-> exists r, In r df /\ Cabin_Class (raw r) = Some c).
  { intros c; unfold col; rewrite in_map_iff; split;
      intros (r & H1 & H2); eauto. }
  split; [|split].
  - intros Hnone.
    destruct (options col) as [|c l] eqn:E; [reflexivity|].
    assert (H : In (Some c) col) by (apply Hin; left; reflexivity).
    apply Hcol in H; destruct H as (r & Hr & Hc).
    rewrite (Hnone r Hr) in Hc; discriminate.
  - intros c Hex Hall.
    rewrite (nodup_singleton (options col) c Hn); [reflexivity| |].
    + apply Hin, Hcol, Hex.
    + intros x Hx; apply Hin, Hcol in Hx; destruct Hx as (r & Hr & Hc).
      exact (Hall r x Hr Hc).
  - intros r1 r2 c1 c2 H1 H2 E1 E2 Hne.
    assert (I1 : In c1 (options col)) by (apply Hin, Hcol; eauto).
    assert (I2 : In c2 (options col)) by (apply Hin, Hcol; eauto).
    destruct (options col) as [|x [|y l]]; [contradiction| |reflexivity].
    destruct I1 as [<-|[]], I2 as [<-|[]]; contradiction.
Qed.

(** ** Values of the cleaned relation *)

Lemma map_snd_combine_le {A B} (l : list A) (l' : list B) :
  (List.length l' <= List.length l)%nat -> map snd (combine l l') = l'.
Proof.
  revert l; induction l' as [|y l' IH]; intros [|x l] H; simpl in *;
    try reflexivity; try lia.
  f_equal; apply IH; lia.
Qed.

Lemma df_cleaned_numeric (normalize_dates : bool) (flights : list raw_record) :
  map Price_Float (df_cleaned normalize_dates flights)
  = numeric_column
      (map Price_Float (map (query_cleaned normalize_dates) flights))
  /\ map Duration_Minutes (df_cleaned normalize_dates flights)
     = numeric_column
         (map Duration_Minutes (map (query_cleaned normalize_dates) flights)).
Proof.
  unfold df_cleaned.
  set (rows := map (query_cleaned normalize_dates) flights).
  set (prices := numeric_column (map Price_Float rows)).
  set (durations := numeric_column (map Duration_Minutes rows)).
  assert (Hp : List.length prices = List.length rows)
    by (unfold prices; rewrite numeric_column_length, length_map; reflexivity).
  assert (Hd : List.length durations = List.length rows)
    by (unfold durations; rewrite numeric_column_length, length_map;
        reflexivity).
  assert (Hs : map snd (combine rows (combine prices durations))
               = combine prices durations)
    by (apply map_snd_combine_le; rewrite length_combine; lia).
  split; rewrite map_map; cbn [set_numeric Price_Float Duration_Minutes].
  - rewrite <- (map_map snd fst), Hs; apply map_fst_combine_le; lia.
  - rewrite <- (map_map snd snd), Hs; apply map_snd_combine_le; lia.
Qed.

Lemma binary64_reduced (q : Q) : Qred (binary64 q) = binary64 q.
Proof.
  unfold binary64; destruct (Z.abs (Qnum (Qred q)) =? 0); [reflexivity|].
  apply Qcanon.Qred_involutive.
Qed.

(** A numeric value that a [float64] column stores unchanged: a REAL in
    the form the casts and the arithmetic produce, or an integer of fewer
    than 54 bits. *)
Lemma to_float_value (x : option num) :
  (forall n, x = Some n -> Qred (to_real n) = num_Q n) ->
  option_map num_Q (to_float x) = option_map num_Q x.
Proof.
  destruct x as [n|]; simpl; intros H; [|reflexivity].
  rewrite (H n eq_refl); reflexivity.
Qed.

Lemma numeric_column_values (col : list (option num)) :
  (forall n, In (Some n) col -> Qred (to_real n) = num_Q n) ->
  map (option_map num_Q) (numeric_column col) = map (option_map num_Q) col.
Proof.
  intros H; unfold numeric_column; destruct (forallb is_int col);
    [reflexivity|].
  rewrite map_map; apply map_ext_in; intros x Hx.
  apply to_float_value; intros n ->; apply H, Hx.
Qed.

Lemma stored_integer (z : Z) :
  Z.abs z < 2 ^ 53 -> Qred (to_real (NInt z)) = num_Q (NInt z).
Proof.
  intros Hz; cbn [to_real num_Q].
  rewrite (binary64_whole z Hz); apply Qred_inject_Z.
Qed.

Lemma num_arith_stored (fz : Z -> Z -> Z) (fq : Q -> Q -> Q) (a b : num) :
  (forall z, num_arith fz fq a b = NInt z -> Z.abs z < 2 ^ 53) ->
  Qred (to_real (num_arith fz fq a b)) = num_Q (num_arith fz fq a b).
Proof.
  unfold num_arith; destruct a as [x|p], b as [y|q];
    try (intros _; cbn [to_real num_Q]; apply binary64_reduced).
  destruct (fits_int64 (fz x y)); intros H.
  - apply stored_integer, H; reflexivity.
  - cbn [to_real num_Q]; apply binary64_reduced.
Qed.

Lemma lift2_stored (fz : Z -> Z -> Z) (fq : Q -> Q -> Q)
      (a b : option num) (n : num) :
  lift2 (num_arith fz fq) a b = Some n ->
  (forall z, n = NInt z -> Z.abs z < 2 ^ 53) ->
  Qred (to_real n) = num_Q n.
Proof.
  destruct a, b; simpl; try discriminate.
  intros H; injection H as <-; apply num_arith_stored.
Qed.

Lemma parse_duration_stored (s : option string) (n : num) :
  parse_duration s = Some n ->
  (forall z, n = NInt z -> Z.abs z < 2 ^ 53) ->
  Qred (to_real n) = num_Q n.
Proof.
  destruct s as [x|]; [|discriminate]; unfold parse_duration.
  destruct (like x "%h %m"); [|destruct (like x "%h")]; intros H Hz.
  - exact (lift2_stored _ _ _ _ _ H Hz).
  - exact (lift2_stored _ _ _ _ _ H Hz).
  - injection H as <-; apply stored_integer, Hz; reflexivity.
Qed.

Lemma parse_price_stored (s : option string) (n : num) :
  parse_price s = Some n -> Qred (to_real n) = num_Q n.
Proof.
  destruct s as [x|]; [|discriminate]; unfold parse_price; simpl.
  intros H; injection H as <-; unfold cast_real.
  destruct (split_sign (skip_spaces (replace x "," ""))) as [neg r].
  destruct (span_digits r) as [ip r1].
  destruct (match r1 with
            | EmptyString => (EmptyString, r1)
            | String c r1' =>
                if Ascii.eqb c "." then span_digits r1' else (EmptyString, r1)
            end) as [fp r2].
  cbn [to_real num_Q]; apply binary64_reduced.
Qed.

(** X9.  Reading the query result into a data frame changes the storage
    type of a numeric column at most, not its values, as long as every
    duration is an integer of fewer than 54 bits (a larger one is rounded
    when its column is stored as [float64]): every derived cell of the
    cleaned relation is then the field parser applied to the raw cell of
    its row. *)
Theorem cleaned_values (normalize_dates : bool) (flights : list raw_record) :
  (forall f z, In f flights ->
     parse_duration (Duration_Time f) = Some (NInt z) -> Z.abs z < 2 ^ 53) ->
  map (fun r => option_map num_Q (Price_Float r))
      (df_cleaned normalize_dates flights)
  = map (fun f => option_map num_Q (parse_price (Flight_Price f))) flights
  /\ map (fun r => option_map num_Q (Duration_Minutes r))
         (df_cleaned normalize_dates flights)
     = map (fun f => option_map num_Q (parse_duration (Duration_Time f)))
           flights
  /\ map Travel_Date (df_cleaned normalize_dates flights)
     = map (fun f => parse_date normalize_dates (Date f)) flights
  /\ map Departure_Hour (df_cleaned normalize_dates flights)
     = map (fun f => parse_departure_hour (Departure_Time f)) flights.
Proof.
  intros Hsmall.
  destruct (df_cleaned_numeric normalize_dates flights) as [Hp Hd].
  split; [|split; [|split]].
  - rewrite <- (map_map Price_Float (option_map num_Q)), Hp.
    rewrite numeric_column_values, !map_map; [reflexivity|].
    intros n Hn; rewrite map_map in Hn; apply in_map_iff in Hn.
    destruct Hn as (f & Hn & _); exact (parse_price_stored _ _ Hn).
  - rewrite <- (map_map Duration_Minutes (option_map num_Q)), Hd.
    rewrite numeric_column_values, !map_map; [reflexivity|].
    intros n Hn; rewrite map_map in Hn; apply in_map_iff in Hn.
    destruct Hn as (f & Hn & Hf); cbn [Duration_Minutes query_cleaned] in Hn.
    apply (parse_duration_stored _ _ Hn).
    intros z ->; exact (Hsmall f z Hf Hn).
  - rewrite df_cleaned_untouched by reflexivity.
    rewrite map_map; reflexivity.
  - apply df_cleaned_hours.
Qed.

Lemma cleaned_values_witness :
  map (fun r => option_map num_Q (Price_Float r))
      (df_cleaned true [flight_at "09:00"; flight_without_duration])
  = map (fun f => option_map num_Q (parse_price (Flight_Price f)))
        [flight_at "09:00"; flight_without_duration]
  /\ map (fun r => option_map num_Q (Duration_Minutes r))
         (df_cleaned true [flight_at "09:00"; flight_without_duration])
     = [Some (inject_Z 130); None]
  /\ map Travel_Date
         (df_cleaned true [flight_at "09:00"; flight_without_duration])
     = map (fun f => parse_date true (Date f))
           [flight_at "09:00"; flight_without_duration]
  /\ map Departure_Hour
         (df_cleaned true [flight_at "09:00"; flight_without_duration])
     = map (fun f => parse_departure_hour (Departure_Time f))
           [flight_at "09:00"; flight_without_duration].
Proof.
  apply (cleaned_values true [flight_at "09:00"; flight_without_duration]).
  intros f z [<-|[<-|[]]] H; [|discriminate].
  injection H as <-; reflexivity.
Defined.

(** ** Order and counts of the catalog *)

Lemma value_compare_antisym (a b : value) :
  value_compare b a = CompOpp (value_compare a b).
Proof.
  destruct a as [|x|s], b as [|y|u]; simpl; try reflexivity.
  - symmetry; apply Qcompare_antisym.
  - apply String.compare_antisym.
Qed.

Lemma order_compare_antisym (ts : list (nat * direction)) (a b : row) :
  order_compare ts b a = CompOpp (order_compare ts a b).
Proof.
  induction ts as [|[i d] ts IH]; simpl; [reflexivity|].
  unfold term_compare; simpl; destruct d;
    rewrite (value_compare_antisym (col i a) (col i b));
    destruct (value_compare (col i a) (col i b)); simpl; auto;
    rewrite (value_compare_antisym (col i b) (col i a));
    destruct (value_compare (col i b) (col i a)); simpl; auto.
Qed.

Lemma order_total (ts : list (nat * direction)) (a b : row) :
  not_after (order_compare ts a b) = true
  \/ not_after (order_compare ts b a) = true.
Proof.
  rewrite (order_compare_antisym ts a b).
  destruct (order_compare ts a b); simpl; auto.
Qed.

Lemma sorted_impl_in {A} (R T : A -> A -> Prop) (l : list A) :
  (forall a b, In a l -> In b l -> R a b -> T a b) ->
  Sorted R l -> Sorted T l.
Proof.
  intros H S; induction S as [|a l S IH Hd]; constructor.
  - apply IH; intros x y Hx Hy; apply H; right; assumption.
  - destruct Hd as [|b l Hb]; constructor.
    apply H; [left; reflexivity|right; left; reflexivity|exact Hb].
Qed.

Lemma text_before_trans (a b c : value) :
  text_before a b -> text_before b c -> text_before a c.
Proof.
  destruct a as [|x|x], b as [|y|y], c as [|z|z]; simpl; try tauto.
  rewrite !string_leb_ne_gt; apply string_compare_trans.
Qed.

(** The rows of an entry that counts the rows of each group and orders the
    groups by that count, largest first. *)
Lemma counts_descend (kf : cleaned_record -> option string) (name : string)
      (t : list cleaned_record) :
  getitem queries name
  = Ok (GroupBy (fun r => [of_text (kf r)])
                (fun k g => (k ++ [count g])%list)
                [(1%nat, DESC)] None) ->
  exists rows, df_viz name t = Ok rows /\ descending_counts 1 rows.
Proof.
  intros Hq; unfold df_viz; rewrite Hq; cbn [bind].
  set (key := fun r : cleaned_record => [of_text (kf r)]).
  set (columns := fun (k : list value) (g : list cleaned_record) =>
                    (k ++ [count g])%list).
  set (all := group_rows key columns t).
  exists (order_rows [(1%nat, DESC)] all); split; [reflexivity|].
  assert (Hrow : forall out, In out all -> exists n, col 1 out = VInt n).
  { intros out H; apply group_rows_in in H; destruct H as (x & _ & ->).
    eexists; reflexivity. }
  replace (order_rows [(1%nat, DESC)] all) with (sort more_departures all).
  - exact (sorted_by_departures all).
  - symmetry; apply sort_ext_in; intros a b Ha Hb.
    destruct (Hrow a Ha) as [na Ea], (Hrow b Hb) as [nb Eb].
    exact (departures_order a b na nb Ea Eb).
Qed.

(** X10.  The three entries that rank groups by their number of flights
    return them in descending order of that number, and the price trend
    returns its dates in ascending order, the flights without a date
    first. *)
Theorem ranking_entries_are_ordered (t : list cleaned_record) :
  (exists rows,
      df_viz "Flight Count per Route" t = Ok rows
      /\ descending_counts 1 rows)
  /\ (exists rows,
        df_viz "Flights per Airline" t = Ok rows
        /\ descending_counts 1 rows)
  /\ (exists rows,
        df_viz "Departure Hour Popularity" t = Ok rows
        /\ descending_counts 1 rows)
  /\ exists rows,
      df_viz "Price Trends Over Time" t = Ok rows
      /\ ascending_texts 0 rows.
Proof.
  split; [|split; [|split]].
  - apply (counts_descend Route); reflexivity.
  - apply (counts_descend (fun r => Company (raw r))); reflexivity.
  - apply (counts_descend Hour); reflexivity.
  - set (key := fun r : cleaned_record => [of_text (Travel_Date r)]).
    set (columns := fun (k : list value) (g : list cleaned_record) =>
           (k ++ [of_num (round (avg (map Price_Float g)) 2)])%list).
    set (all := group_rows key columns t).
    exists (order_rows [(0%nat, ASC)] all); split; [reflexivity|].
    assert (Hrow : forall out, In out all ->
                     exists c, col 0 out = of_text c).
    { intros out H; apply group_rows_in in H; destruct H as (x & _ & ->).
      eexists; reflexivity. }
    apply Sorted_StronglySorted.
    { intros a b c; apply text_before_trans. }
    apply (sorted_impl_in
             (fun a b =>
                not_after (order_compare [(0%nat, ASC)] a b) = true)).
    + intros a b Ha Hb; apply sort_in in Ha, Hb.
      destruct (Hrow a Ha) as [ca Ea], (Hrow b Hb) as [cb Eb].
      unfold order_compare, term_compare; cbn [fst snd]; rewrite Ea, Eb.
      destruct ca as [x|], cb as [y|]; simpl; try tauto; try discriminate.
      unfold String.leb; destruct (String.compare x y); auto.
    + apply sort_sorted, order_total.
Qed.

(** On the table of twenty origins the routes come out by 20 down to 1
    flights. *)
Lemma ranking_entries_are_ordered_witness :
  ((exists rows,
       df_viz "Flight Count per Route" twenty_airports = Ok rows
       /\ descending_counts 1 rows)
   /\ (exists rows,
         df_viz "Flights per Airline" twenty_airports = Ok rows
         /\ descending_counts 1 rows)
   /\ (exists rows,
         df_viz "Departure Hour Popularity" twenty_airports = Ok rows
         /\ descending_counts 1 rows)
   /\ exists rows,
       df_viz "Price Trends Over Time" twenty_airports = Ok rows
       /\ ascending_texts 0 rows)
  /\ exists rows,
      df_viz "Flight Count per Route" twenty_airports = Ok rows
      /\ map (count_at 1) rows
         = [20; 19; 18; 17; 16; 15; 14; 13; 12; 11; 10; 9; 8; 7; 6; 5; 4; 3;
            2; 1].
Proof.
  split; [apply (ranking_entries_are_ordered twenty_airports)|].
  eexists; split; vm_compute; reflexivity.
Defined.

Lemma text_keys_eqb (a b : list (option string)) :
  key_eqb (map of_text a) (map of_text b) = true <-> a = b.
Proof.
  unfold key_eqb; revert b; induction a as [|x a IH]; intros [|y b]; simpl;
    try (split; [discriminate|discriminate]); [tauto|].
  destruct x as [x|], y as [y|]; simpl;
    try (split; [discriminate|discriminate]).
  - destruct (String.compare x y) eqn:E.
    + apply String.compare_eq_iff in E; subst.
      rewrite IH; split; congruence.
    + split; [discriminate|intros H; injection H as -> _].
      rewrite string_compare_refl in E; discriminate.
    + split; [discriminate|intros H; injection H as -> _].
      rewrite string_compare_refl in E; discriminate.
  - rewrite IH; split; congruence.
Qed.

Lemma filter_one {A} (f : A -> bool) (c : A) (l : list A) :
  NoDup l -> In c l -> (forall k, In k l -> (f k = true <-> k = c)) ->
  List.length (filter f l) = 1%nat.
Proof.
  induction l as [|k l IH]; intros Hn Hc Hf; [contradiction|].
  apply NoDup_cons_iff in Hn; destruct Hn as [Hk Hn]; simpl.
  destruct (f k) eqn:E.
  - apply (Hf k (or_introl eq_refl)) in E; subst k; simpl; f_equal.
    rewrite filter_none; [reflexivity|].
    intros x Hx; destruct (f x) eqn:Ex; [|reflexivity].
    apply (Hf x (or_intror Hx)) in Ex; subst x; contradiction.
  - destruct Hc as [->|Hc].
    + rewrite (proj2 (Hf c (or_introl eq_refl)) eq_refl) in E; discriminate.
    + apply IH; auto; intros x Hx; apply Hf; right; exact Hx.
Qed.

Lemma total_perm (i : nat) (l l' : list row) :
  Permutation l l' -> total i l = total i l'.
Proof.
  unfold total; induction 1; simpl; lia.
Qed.

Section Partition.
Variable fields : cleaned_record -> list (option string).

Let key (r : cleaned_record) : list value := map of_text (fields r).

Lemma group_sizes_cons (ks : list (list value)) (x : cleaned_record)
      (t : list cleaned_record) :
  group_sizes key ks (x :: t)
  = (List.length (filter (fun k => key_eqb (key x) k) ks)
     + group_sizes key ks t)%nat.
Proof.
  induction ks as [|k ks IH]; simpl; [reflexivity|].
  rewrite IH; destruct (key_eqb (key x) k); simpl; lia.
Qed.

Lemma group_sizes_nil (ks : list (list value)) :
  group_sizes key ks [] = 0%nat.
Proof. induction ks; simpl; auto. Qed.

(** The groups partition the table. *)
Lemma group_sizes_total (ks : list (list value)) (t : list cleaned_record) :
  NoDup ks -> (forall k, In k ks -> exists r, k = key r) ->
  (forall x, In x t -> In (key x) ks) ->
  group_sizes key ks t = List.length t.
Proof.
  intros Hn Hk; induction t as [|x t IH]; intros Hin;
    [apply group_sizes_nil|].
  rewrite group_sizes_cons, IH by (intros y Hy; apply Hin; right; exact Hy).
  rewrite (filter_one _ (key x)); [reflexivity|exact Hn| |].
  - apply Hin; left; reflexivity.
  - intros k Hks; destruct (Hk k Hks) as (r & ->); split; intros E.
    + apply text_keys_eqb in E; unfold key; rewrite E; reflexivity.
    + rewrite E; apply text_keys_eqb; reflexivity.
Qed.

Lemma total_groups (i : nat) (ks : list (list value))
      (t : list cleaned_record) :
  (forall k, In k ks -> List.length k = i) ->
  total i (map (fun k =>
                  (k ++ [count (filter (fun x => key_eqb (key x) k) t)])%list)
               ks)
  = Z.of_nat (group_sizes key ks t).
Proof.
  induction ks as [|k ks IH]; intros Hl; [reflexivity|].
  cbn [map group_sizes]; unfold total in *; cbn [map fold_right].
  rewrite IH by (intros k' Hk'; apply Hl; right; exact Hk').
  unfold count_at, col; rewrite <- (Hl k (or_introl eq_refl)), nth_middle.
  unfold count; lia.
Qed.

Variable i : nat.
Hypothesis fields_length : forall r, List.length (fields r) = i.

Lemma count_entry (order_by : list (nat * direction)) (name : string)
      (t : list cleaned_record) :
  getitem queries name
  = Ok (GroupBy key (fun k g => (k ++ [count g])%list) order_by None) ->
  counts_rows i name t.
Proof.
  intros H; unfold counts_rows, df_viz; rewrite H; cbn [bind].
  unfold run_query.
  set (ks := sort key_leb (distinct (map key t))).
  assert (Hks : forall k, In k ks -> exists r, In r t /\ k = key r).
  { intros k Hk; apply sort_in, distinct_in, in_map_iff in Hk.
    destruct Hk as (r & <- & Hr); eauto. }
  assert (Hrun : run (GroupBy key (fun k g => (k ++ [count g])%list)
                              order_by None) t
                 = sort (fun a b => not_after (order_compare order_by a b))
                     (map (fun k =>
                             (k ++ [count (filter (fun x => key_eqb (key x) k)
                                                  t)])%list)
                          ks)).
  { simpl; unfold order_rows, groups; rewrite map_map; reflexivity. }
  rewrite Hrun; clear Hrun.
  eexists; split; [reflexivity|].
  split.
  - rewrite (total_perm i _ _ (sort_perm _ _)), total_groups.
    + f_equal; apply group_sizes_total.
      * apply (Permutation_NoDup (l := distinct (map key t)));
          [symmetry; apply sort_perm|].
        apply distinct_nodup; intros k Hk; apply in_map_iff in Hk.
        destruct Hk as (r & <- & _); apply text_keys_eqb; reflexivity.
      * intros k Hk; destruct (Hks k Hk) as (r & _ & ->); eauto.
      * intros x Hx; apply sort_in, distinct_complete;
          [|apply in_map; exact Hx].
        intros a b Ha Hb E; apply in_map_iff in Ha, Hb.
        destruct Ha as (ra & <- & _), Hb as (rb & <- & _).
        apply text_keys_eqb in E; unfold key; rewrite E; reflexivity.
    + intros k Hk; destruct (Hks k Hk) as (r & _ & ->).
      unfold key; rewrite length_map; apply fields_length.
  - apply Forall_forall; intros out Hout.
    apply sort_in, in_map_iff in Hout; destruct Hout as (k & <- & Hk).
    destruct (Hks k Hk) as (r & Hr & ->).
    unfold count_at, col.
    replace i with (List.length (key r))
      by (unfold key; rewrite length_map; apply fields_length).
    rewrite nth_middle; unfold count.
    assert (Hin : In r (filter (fun x => key_eqb (key x) (key r)) t)).
    { apply filter_In; split; [exact Hr|apply text_keys_eqb; reflexivity]. }
    destruct (filter (fun x => key_eqb (key x) (key r)) t);
      [contradiction|simpl; lia].
Qed.
End Partition.

(** X11.  In each of the five counting entries the groups partition the
    table: every row returned counts at least one flight, and the counts
    add up to the number of rows of the filtered relation. *)
Theorem count_entries_partition (t : list cleaned_record) :
  counts_rows 1 "Flight Count per Route" t
  /\ counts_rows 1 "Cabin Class Share" t
  /\ counts_rows 1 "Flights per Airline" t
  /\ counts_rows 1 "Departure Hour Popularity" t
  /\ counts_rows 2 "Cabin Class per Airline" t.
Proof.
  split; [|split; [|split; [|split]]].
  - apply (count_entry (fun r => [Route r]) 1 (fun _ => eq_refl)
             [(1%nat, DESC)]); reflexivity.
  - apply (count_entry (fun r => [Cabin_Class (raw r)]) 1 (fun _ => eq_refl)
             []); reflexivity.
  - apply (count_entry (fun r => [Company (raw r)]) 1 (fun _ => eq_refl)
             [(1%nat, DESC)]); reflexivity.
  - apply (count_entry (fun r => [Hour r]) 1 (fun _ => eq_refl)
             [(1%nat, DESC)]); reflexivity.
  - apply (count_entry (fun r => [Company (raw r); Cabin_Class (raw r)]) 2
             (fun _ => eq_refl) [(0%nat, ASC); (2%nat, DESC)]); reflexivity.
Qed.

(** ** Charts *)

(** X12.  Every name of the catalog has a query, a title and a branch of
    the chart dispatch: for such a name the script raises nothing and
    hands over a figure titled from [chart_titles] that carries exactly the
    rows of the query. *)
Theorem catalog_names_are_plotted
        (chart_option : string) (t : list cleaned_record) :
  In chart_option catalog_names ->
  exists rows text f,
    df_viz chart_option t = Ok rows
    /\ getitem chart_titles chart_option = Ok text
    /\ plot chart_option t = Ok f
    /\ data f = rows /\ title f = Some text
    /\ kind f <> annotation "Chart type not implemented yet.".
Proof.
  intros H; simpl in H.
  repeat (destruct H as [<-|H];
          [do 3 eexists; repeat split; try reflexivity; discriminate|]).
  contradiction.
Qed.

Lemma catalog_names_are_plotted_witness :
  exists rows text f,
    df_viz "Cabin Class Share" twenty_airports = Ok rows
    /\ getitem chart_titles "Cabin Class Share" = Ok text
    /\ plot "Cabin Class Share" twenty_airports = Ok f
    /\ data f = rows /\ title f = Some text
    /\ kind f <> annotation "Chart type not implemented yet.".
Proof.
  apply (catalog_names_are_plotted "Cabin Class Share" twenty_airports).
  simpl; auto 10.
Defined.

(** ** More on durations *)

Lemma instr_from_absent (c : ascii) (s : string) (pos : Z) :
  has_char c s = false -> instr_from pos s (String c EmptyString) = 0.
Proof.
  revert pos; induction s as [|d s IH]; intros pos H; [reflexivity|].
  cbn [has_char] in H; apply orb_false_iff in H; destruct H as [Hd Hs].
  cbn [instr_from]; rewrite prefix_char, Hd; apply IH, Hs.
Qed.

Lemma has_char_app (c : ascii) (a b : string) :
  has_char c (a ++ b) = has_char c a || has_char c b.
Proof.
  induction a as [|d a IH]; cbn [append has_char]; [reflexivity|].
  rewrite IH; apply orb_assoc.
Qed.

Lemma digits_have_no_h (d : string) :
  all_digits d = true -> has_char "h" d = false.
Proof.
  induction d as [|c d IH]; cbn [has_char all_digits]; [reflexivity|].
  intros H; apply andb_true_iff in H; destruct H as [Hc Hd].
  destruct (digit_facts c Hc) as (_ & _ & _ & _ & _ & Hh & _).
  rewrite Hh, (IH Hd); reflexivity.
Qed.

Lemma substr_rest (c : ascii) (rest : string) (z : Z) :
  slen rest <= z -> substr (String c rest) 2 z = rest.
Proof.
  intros Hz; change (String c rest) with (String c EmptyString ++ rest).
  apply substr_tail; [reflexivity|exact Hz].
Qed.

Lemma cast_int_digits (d r : string) :
  all_digits d = true -> ends_digits r = true ->
  (d = EmptyString -> starts_no_number r = true) ->
  digits_value d <= max_int64 ->
  cast_int (d ++ r) = digits_value d.
Proof.
  intros Hd Hr He Hb; destruct d as [|c d].
  - simpl append; specialize (He eq_refl).
    destruct r as [|c r]; [reflexivity|].
    unfold starts_no_number in He; apply negb_true_iff in He.
    do 4 (apply orb_false_iff in He; destruct He as [He ?]).
    unfold cast_int; cbn [skip_spaces]; rewrite He; unfold split_sign.
    rewrite H2, H1; cbn [span_digits]; rewrite H0; reflexivity.
  - apply cast_int_numeral; auto.
Qed.

(** X13.  LIKE ignores the case of the unit letters but INSTR does not:
    on ["<h>H <m>M"] the hours are looked for before an [h] that is not
    there, so the text yields what is left of the hours after their first
    digit, as minutes: ["2H 30M"] gives 0 and ["12H 30M"] gives 2. *)
Theorem uppercase_units_lose_the_duration (c : ascii) (h m : string) :
  is_digit c = true -> all_digits h = true -> is_numeral m = true ->
  digits_value h <= max_int64 ->
  parse_duration (Some (String c h ++ "H " ++ m ++ "M"))
  = Some (NInt (digits_value h)).
Proof.
  intros Hc Hh Hm Hb.
  pose proof (digits_value_nonneg h Hh) as H0.
  unfold parse_duration, like; cbn [append].
  change (String c (h ++ String "H" (String " " (m ++ "M"))))
    with (String c h ++ String "H" (String " " (m ++ "M"))).
  rewrite (like_percent_suffix "h %m" (String c h)
             (String "H" (String " " (m ++ "M"))))
    by (apply (like_percent_suffix "m" m "M"); reflexivity).
  assert (Hi : instr (String c h ++ String "H" (String " " (m ++ "M"))) "h"
               = 0).
  { apply instr_from_absent.
    rewrite has_char_app, (digits_have_no_h (String c h))
      by (cbn [all_digits]; rewrite Hc; exact Hh).
    change (String "H" (String " " (m ++ "M"))) with ("H " ++ m ++ "M").
    rewrite !has_char_app, (digits_have_no_h m (numeral_all_digits m Hm)).
    reflexivity. }
  rewrite Hi; cbn [append].
  replace (substr (String c (h ++ String "H" (String " " (m ++ "M")))) 1 (0 - 1))
    with EmptyString
    by reflexivity.
  rewrite substr_rest by (unfold slen; simpl String.length; lia).
  rewrite cast_int_digits; auto.
  change (cast_int "") with 0.
  rewrite mul_60, add_int by (unfold max_int64 in *; lia).
  do 2 f_equal; lia.
Qed.

Lemma uppercase_units_lose_the_duration_witness :
  parse_duration (Some "12H 30M") = Some (NInt 2).
Proof.
  apply (uppercase_units_lose_the_duration "1" "2" "30");
    try reflexivity.
  vm_compute; discriminate.
Defined.

(** X14.  The ELSE branch reads the digits that lead the text once every
    [m] is removed.  A text [d ++ r] that begins with a numeral [d], ends
    with neither [h] nor [m], and in which no digit follows [d] when the
    letters [m] of [r] are dropped, is read as [d] minutes: ["45"] gives
    45, and ["1h 5"], which lacks the final [m], gives 1. *)
Theorem leading_numeral_is_minutes (d r : string) :
  is_numeral d = true -> ends_digits (remove_char "m" r) = true ->
  last_is "h" (d ++ r) = false -> last_is "m" (d ++ r) = false ->
  digits_value d <= max_int64 ->
  parse_duration (Some (d ++ r)) = Some (NInt (digits_value d)).
Proof.
  intros Hd Hr Lh Lm Hb; unfold parse_duration, like.
  destruct (like_chars "%h %m" (d ++ r)) eqn:E1;
    [apply like_hours_minutes_last in E1; congruence|].
  destruct (like_chars "%h" (d ++ r)) eqn:E2;
    [apply like_percent_literal in E2; [congruence|reflexivity|reflexivity]|].
  rewrite replace_char, remove_char_app.
  rewrite remove_char_digits;
    [|intros c Hc; apply (digit_facts c Hc)|apply numeral_all_digits, Hd].
  rewrite cast_int_numeral; auto.
Qed.

Lemma leading_numeral_is_minutes_witness :
  parse_duration (Some "1h 5") = Some (NInt 1).
Proof.
  apply (leading_numeral_is_minutes "1" "h 5"); try reflexivity.
  vm_compute; discriminate.
Defined.

(** A digit that follows a dropped [m] joins the numeral. *)
Example digits_join_across_m :
  parse_duration (Some "1m5") = Some (NInt 15)
  /\ parse_duration (Some "90m30s") = Some (NInt 9030).
Proof. split; reflexivity. Qed.

(** ** More on dates *)

Lemma substring_length_le (n m : nat) (s : string) :
  (String.length (substring n m s) <= m)%nat.
Proof.
  revert n m; induction s as [|c s IH]; intros [|n] [|m]; simpl;
    try lia; try apply IH.
  specialize (IH 0%nat m); lia.
Qed.

Lemma substr_length_le (s : string) (y z : Z) :
  0 < y -> 0 <= z -> (String.length (substr s y z) <= Z.to_nat z)%nat.
Proof.
  intros Hy Hz; unfold substr.
  destruct (Z.ltb_spec y 0); [lia|].
  destruct (Z.ltb_spec 0 y); [|lia].
  destruct (Z.ltb_spec z 0); [lia|]; cbv iota beta.
  rewrite Z.abs_eq by lia; apply substring_length_le.
Qed.

(** X15.  Whatever the raw date, the text handed to [DATE] has at most ten
    characters: nothing that follows the tenth character of the raw date,
    such as a time of day, reaches the date parser. *)
Theorem reordered_date_is_short (x : string) :
  (String.length (reordered_date x) <= 10)%nat.
Proof.
  unfold reordered_date; rewrite !length_append.
  pose proof (substr_length_le x 7 4 ltac:(lia) ltac:(lia)).
  pose proof (substr_length_le x 4 2 ltac:(lia) ltac:(lia)).
  pose proof (substr_length_le x 1 2 ltac:(lia) ltac:(lia)).
  simpl String.length; lia.
Qed.

Lemma date_of_iso (normalize_dates : bool) (y m d : Z) :
  0 <= y <= 9999 -> 1 <= m <= 12 -> 1 <= d <= days_in_month y m ->
  date normalize_dates (iso y m d) = Some (iso y m d).
Proof.
  intros Hy Hm Hd; pose proof (days_in_month_le_31 y m) as Hdim.
  unfold date, iso; rewrite parse_ymd_padded by lia.
  destruct (Z.leb_spec 1 m), (Z.leb_spec m 12), (Z.leb_spec 1 d),
    (Z.leb_spec d 31); try lia; cbn [andb].
  rewrite valid_julian_day by lia.
  destruct (normalize_dates && (28 <? d)) eqn:N; [|reflexivity].
  apply andb_true_iff in N; destruct N as [_ N]; apply Z.ltb_lt in N.
  rewrite roundtrip by lia; reflexivity.
Qed.

(** X16.  [parse_date] reads fixed positions: day, month and year are the
    characters 1-2, 4-5 and 7-10, the two characters between them may be
    anything, and what follows the year is ignored.  So ["05/03/2024
    18:30"] is read like ["05-03-2024"]. *)
Theorem parse_date_is_positional
        (normalize_dates : bool) (y m d : Z) (s1 s2 : ascii) (rest : string) :
  0 <= y <= 9999 -> 1 <= m <= 12 -> 1 <= d <= days_in_month y m ->
  parse_date normalize_dates
    (Some (pad_num 2 d ++ String s1 (pad_num 2 m ++ String s2
                                       (pad_num 4 y ++ rest))))
  = Some (iso y m d).
Proof.
  intros Hy Hm Hd.
  rewrite <- (date_of_iso normalize_dates y m d Hy Hm Hd).
  unfold parse_date; f_equal.
  destruct rest; reflexivity.
Qed.

Lemma parse_date_is_positional_witness :
  parse_date true (Some "05/03/2024 18:30") = Some "2024-03-05".
Proof.
  apply (parse_date_is_positional true 2024 3 5 "/" "/" " 18:30");
    [lia|lia|vm_compute; split; discriminate].
Defined.

(** ** The untouched sidebar *)

Lemma str_min_spec (col : list (option string)) (m : string) :
  str_min col = Some m ->
  In (Some m) col /\ forall y, In (Some y) col -> String.leb m y = true.
Proof.
  apply (reduce_extremum String.ltb (fun a b => String.leb a b = true)).
  - apply string_leb_refl.
  - intros a b c; rewrite !string_leb_ne_gt; apply string_compare_trans.
  - intros a b; unfold String.ltb, String.leb.
    destruct (String.compare a b); auto.
  - intros a b; unfold String.ltb, String.leb.
    rewrite (String.compare_antisym b a).
    destruct (String.compare a b); simpl; intros; congruence.
Qed.

Lemma str_max_spec (col : list (option string)) (m : string) :
  str_max col = Some m ->
  In (Some m) col /\ forall y, In (Some y) col -> String.leb y m = true.
Proof.
  apply (reduce_extremum (fun a b => String.ltb b a)
           (fun a b => String.leb b a = true)).
  - apply string_leb_refl.
  - intros a b c H1 H2; rewrite string_leb_ne_gt in *.
    exact (string_compare_trans _ _ _ H2 H1).
  - intros a b; unfold String.ltb, String.leb.
    destruct (String.compare b a); auto.
  - intros a b; unfold String.ltb, String.leb.
    rewrite (String.compare_antisym a b).
    destruct (String.compare b a); simpl; intros; congruence.
Qed.

Lemma digit_char_code (z : Z) :
  N_of_ascii (digit_char z) = Z.to_N (48 + z mod 10).
Proof.
  assert (H : 0 <= z mod 10 < 10) by (apply Z.mod_pos_bound; lia).
  unfold digit_char; apply N_ascii_embedding.
  apply N2Z.inj_lt; rewrite Z2N.id by lia; simpl; lia.
Qed.

(** On zero-padded hours the order of strings is the order of numbers. *)
Lemma padded_leb (a b : Z) :
  0 <= a <= 99 -> 0 <= b <= 99 ->
  String.leb (pad_num 2 a) (pad_num 2 b) = true -> a <= b.
Proof.
  intros Ha Hb; rewrite !pad_num_2, string_leb_ne_gt; simpl.
  unfold Ascii.compare; rewrite !digit_char_code.
  rewrite !Z2N.inj_compare by (Z.div_mod_to_equations; lia).
  destruct (Z.compare_spec (48 + (a / 10) mod 10) (48 + (b / 10) mod 10));
    [|Z.div_mod_to_equations; lia|congruence].
  destruct (Z.compare_spec (48 + a mod 10) (48 + b mod 10));
    try congruence; intros _; Z.div_mod_to_equations; lia.
Qed.

Lemma derive_bounds_hours (df : list cleaned_record) (b : bounds) :
  derive_bounds df = Ok b ->
  exists s0 s1,
    str_min (map Departure_Hour df) = Some s0
    /\ str_max (map Departure_Hour df) = Some s1
    /\ int_of_str s0 = Ok (min_hour b) /\ int_of_str s1 = Ok (max_hour b).
Proof.
  unfold derive_bounds.
  destruct (str_min (map Departure_Hour df)) as [s0|];
    [|cbn; discriminate].
  destruct (str_max (map Departure_Hour df)) as [s1|];
    [|cbn [int_of_str_stat]; destruct (int_of_str s0); cbn; discriminate].
  cbn [int_of_str_stat].
  destruct (int_of_str s0) as [h0|] eqn:E0; [|cbn; discriminate].
  destruct (int_of_str s1) as [h1|] eqn:E1; [|cbn; discriminate].
  cbn [bind].
  destruct (int_of_num_stat (num_min (map Price_Float df)));
    [|cbn; discriminate].
  destruct (int_of_num_stat (num_max (map Price_Float df)));
    [|cbn; discriminate].
  destruct (int_of_num_stat (num_min (map Duration_Minutes df)));
    [|cbn; discriminate].
  destruct (int_of_num_stat (num_max (map Duration_Minutes df)));
    [|cbn; discriminate].
  cbn [bind]; intros H; injection H as <-.
  exists s0, s1; auto.
Qed.

Lemma isin_options {A} (field : A -> option string) (df : list A) (r : A) :
  In r df -> field r <> None -> isin (field r) (options (map field df)) = true.
Proof.
  intros Hr Hf; destruct (field r) as [s|] eqn:E; [|congruence].
  apply isin_in; exists s; split; [reflexivity|].
  apply options_in; rewrite <- E.
  apply in_map; exact Hr.
Qed.

(** X18.  With the sidebar left untouched (every multiselect holding all
    its options, every slider spanning the derived bounds) and every
    departure hour a zero-padded hour from 00 to 23, the filter returns a
    relation that holds every row whose four categorical cells are defined
    and whose price and duration are whole numbers. *)
Theorem untouched_sidebar_keeps_rows
        (df : list cleaned_record) (b : bounds) :
  derive_bounds df = Ok b ->
  (forall x, In x df ->
     exists h, 0 <= h <= 23 /\ Departure_Hour x = Some (pad_num 2 h)) ->
  exists kept,
    df_filtered df (default_spec df b) = Ok kept
    /\ forall r,
        In r df ->
        Company (raw r) <> None -> Cabin_Class (raw r) <> None ->
        Origin (raw r) <> None -> Destination (raw r) <> None ->
        whole (Price_Float r) -> whole (Duration_Minutes r) ->
        In r kept.
Proof.
  intros Hb Hh.
  assert (Hconv : forall x, In x df ->
                    exists h, 0 <= h <= 23
                              /\ Departure_Hour x = Some (pad_num 2 h)
                              /\ int_of_object (Departure_Hour x) = Ok h).
  { intros x Hx; destruct (Hh x Hx) as (h & Hr & E); exists h.
    repeat split; try tauto.
    rewrite E; apply int_of_two_digits; lia. }
  destruct (mapM_all_ok int_of_object (map Departure_Hour df))
    as [hours Eh].
  { intros y Hy; apply in_map_iff in Hy; destruct Hy as (x & <- & Hx).
    destruct (Hconv x Hx) as (h & _ & _ & E); eauto. }
  exists (filter (passes (default_spec df b)) df); split.
  { unfold df_filtered; fold (astype_int (map Departure_Hour df)).
    unfold astype_int at 1; rewrite Eh; cbn [bind]; f_equal.
    apply filter_combine_hours, Eh. }
  intros r Hr Ha Hc Ho Hd (p & zp & Ep & Hp) (m & zm & Em & Hm).
  apply filter_In; split; [exact Hr|].
  destruct (Hconv r Hr) as (h & Hrange & Epad & Eint).
  unfold passes; rewrite Eint; unfold keep, default_spec.
  cbn [selected_airlines selected_cabin_classes selected_origins
       selected_destinations departure_hour_range price_range
       duration_range fst snd].
  rewrite (isin_options (fun r => Company (raw r)) df r Hr Ha).
  rewrite (isin_options (fun r => Cabin_Class (raw r)) df r Hr Hc).
  rewrite (isin_options (fun r => Origin (raw r)) df r Hr Ho).
  rewrite (isin_options (fun r => Destination (raw r)) df r Hr Hd).
  cbn [andb].
  (* the hour lies between the least and the greatest hour string *)
  destruct (derive_bounds_hours df b Hb) as (s0 & s1 & M0 & M1 & I0 & I1).
  apply str_min_spec in M0; apply str_max_spec in M1.
  destruct M0 as [In0 Le0], M1 as [In1 Le1].
  apply in_map_iff in In0, In1.
  destruct In0 as (x0 & E0 & Hx0), In1 as (x1 & E1 & Hx1).
  destruct (Hconv x0 Hx0) as (h0 & R0 & P0 & C0).
  destruct (Hconv x1 Hx1) as (h1 & R1 & P1 & C1).
  rewrite E0 in P0, C0; rewrite E1 in P1, C1.
  injection P0 as ->; injection P1 as ->.
  cbn [int_of_object] in C0, C1.
  assert (min_hour b = h0) by congruence.
  assert (max_hour b = h1) by congruence.
  assert (L0 : h0 <= h).
  { apply padded_leb; try lia.
    apply Le0; rewrite <- Epad; apply in_map; exact Hr. }
  assert (L1 : h <= h1).
  { apply padded_leb; try lia.
    apply Le1; rewrite <- Epad; apply in_map; exact Hr. }
  destruct (Z.leb_spec (min_hour b) h); [|lia].
  destruct (Z.leb_spec h (max_hour b)); [|lia].
  cbn [andb].
  (* price and duration lie between the truncated extrema *)
  apply derive_bounds_ok in Hb.
  destruct Hb as (p0 & p1 & d0 & d1 & Q0 & Q1 & D0 & D1 & -> & -> & -> & ->).
  apply num_min_spec in Q0, D0; apply num_max_spec in Q1, D1.
  destruct Q0 as [_ Lp0], Q1 as [_ Lp1], D0 as [_ Ld0], D1 as [_ Ld1].
  rewrite Ep, Em; cbn [ge_cell le_cell].
  destruct (whole_between p0 p1 p zp) as [-> ->]; auto.
  { apply Lp0; rewrite <- Ep; apply in_map; exact Hr. }
  { apply Lp1; rewrite <- Ep; apply in_map; exact Hr. }
  destruct (whole_between d0 d1 m zm) as [-> ->]; auto.
  { apply Ld0; rewrite <- Em; apply in_map; exact Hr. }
  { apply Ld1; rewrite <- Em; apply in_map; exact Hr. }
Qed.

Lemma untouched_sidebar_keeps_rows_witness :
  exists kept,
    df_filtered (df_cleaned true padded_flights)
      (default_spec (df_cleaned true padded_flights)
         {| min_hour := 9; max_hour := 23; min_price := 4500;
            max_price := 4500; min_duration := 130; max_duration := 130 |})
    = Ok kept
    /\ forall r,
        In r (df_cleaned true padded_flights) ->
        Company (raw r) <> None -> Cabin_Class (raw r) <> None ->
        Origin (raw r) <> None -> Destination (raw r) <> None ->
        whole (Price_Float r) -> whole (Duration_Minutes r) ->
        In r kept.
Proof.
  apply (untouched_sidebar_keeps_rows
           (df_cleaned true padded_flights)).
  - reflexivity.
  - unfold padded_flights; intros x [<-|[<-|[]]]; [exists 9|exists 23]; split;
      (lia || reflexivity).
Defined.

(** ** The filter and the catalog together *)

Lemma run_shows_airline (i : nat) (q : select cleaned_record)
      (t : list cleaned_record) (out : row) :
  shows_airline i q -> In out (run q t) ->
  exists x, In x t /\ col i out = of_text (Company (raw x)).
Proof.
  destruct q as [columns|key columns order_by limit]; intros Hq Hout.
  - simpl in Hout; apply in_map_iff in Hout.
    destruct Hout as (x & <- & Hx); exists x; split; [exact Hx|apply Hq].
  - apply run_group_in in Hout; destruct Hout as (x & Hx & ->).
    exists x; split; [exact Hx|apply Hq].
Qed.

Lemma airline_entries_show (name : string) (i : nat) :
  In (name, i) airline_entries ->
  exists q, getitem queries name = Ok q /\ shows_airline i q.
Proof.
  intros H; repeat (destruct H as [H|H]; [injection H as <- <-|]);
    [..|destruct H];
    (eexists; split; [reflexivity|]); simpl; intros; reflexivity.
Qed.

(** X19.  The five entries that return the airline show selected airlines
    only: run on the filtered relation, each of their rows carries in its
    airline column an airline of the multiselect, never NULL. *)
Theorem charts_show_selected_airlines
        (df kept : list cleaned_record) (spec : filter_spec)
        (name : string) (i : nat) :
  df_filtered df spec = Ok kept ->
  In (name, i) airline_entries ->
  exists rows,
    df_viz name kept = Ok rows
    /\ forall out, In out rows ->
         exists a, col i out = VText a /\ In a (selected_airlines spec).
Proof.
  intros Hf Hn; apply df_filtered_ok in Hf.
  destruct (airline_entries_show name i Hn) as (q & Eq & Hq).
  unfold df_viz; rewrite Eq; cbn [bind]; eexists; split; [reflexivity|].
  intros out Hout; unfold run_query in Hout.
  destruct (run_shows_airline i q kept out Hq Hout) as (x & Hx & ->).
  rewrite Hf in Hx; apply filter_In in Hx; destruct Hx as [_ Hp].
  apply passes_hour in Hp; destruct Hp as (h & _ & Hk).
  unfold keep in Hk.
  repeat (apply andb_true_iff in Hk; destruct Hk as [Hk ?]).
  apply isin_in in Hk; destruct Hk as (a & -> & Ha).
  exists a; split; [reflexivity|exact Ha].
Qed.

Lemma charts_show_selected_airlines_witness :
  exists rows,
    df_viz "Flights per Airline" (df_cleaned true padded_flights) = Ok rows
    /\ forall out, In out rows ->
         exists a, col 0 out = VText a /\ In a (selected_airlines select_all).
Proof.
  apply (charts_show_selected_airlines (df_cleaned true padded_flights)
           (df_cleaned true padded_flights) select_all
           "Flights per Airline" 0).
  - reflexivity.
  - right; left; reflexivity.
Defined.

Lemma isin_incl (x : option string) (l1 l2 : list string) :
  incl l1 l2 -> isin x l1 = true -> isin x l2 = true.
Proof.
  rewrite !isin_in; intros Hi (s & E & Hs); exists s; auto.
Qed.

Lemma ge_cell_mono (x : option num) (lo lo' : Z) :
  lo' <= lo -> ge_cell x lo = true -> ge_cell x lo' = true.
Proof.
  destruct x as [n|]; [|discriminate]; simpl; intros H.
  rewrite !Qle_bool_iff; intros Hn.
  apply Qle_trans with (inject_Z lo); [rewrite <- Zle_Qle|]; assumption.
Qed.

Lemma le_cell_mono (x : option num) (hi hi' : Z) :
  hi <= hi' -> le_cell x hi = true -> le_cell x hi' = true.
Proof.
  destruct x as [n|]; [|discriminate]; simpl; intros H.
  rewrite !Qle_bool_iff; intros Hn.
  apply Qle_trans with (inject_Z hi); [|rewrite <- Zle_Qle]; assumption.
Qed.

Lemma keep_narrower (s1 s2 : filter_spec) (r : cleaned_record) (h : Z) :
  narrower s1 s2 -> keep s1 r h = true -> keep s2 r h = true.
Proof.
  intros (Ha & Hc & Ho & Hd & H0 & H1 & P0 & P1 & D0 & D1); unfold keep.
  rewrite !andb_true_iff, !Z.leb_le.
  intros [[[[[[[[[? ?] ?] ?] ?] ?] ?] ?] ?] ?].
  repeat split; eauto using isin_incl, ge_cell_mono, le_cell_mono; lia.
Qed.

Lemma filter_filter_narrow {A} (p q : A -> bool) (l : list A) :
  (forall x, p x = true -> q x = true) ->
  filter p (filter q l) = filter p l.
Proof.
  intros H; induction l as [|x l IH]; simpl; [reflexivity|].
  destruct (q x) eqn:Eq; simpl.
  - rewrite IH; reflexivity.
  - destruct (p x) eqn:Ep; [rewrite (H x Ep) in Eq; discriminate|exact IH].
Qed.

(** X20.  Narrowing a selection is the same as filtering again: when the
    filter returns for a selection, it returns for every wider one, and
    filtering the wider result with the narrower selection gives the
    narrower result, whose rows are all in the wider one. *)
Theorem narrowing_filters_again
        (df k1 : list cleaned_record) (s1 s2 : filter_spec) :
  narrower s1 s2 -> df_filtered df s1 = Ok k1 ->
  exists k2,
    df_filtered df s2 = Ok k2
    /\ df_filtered k2 s1 = Ok k1
    /\ incl k1 k2.
Proof.
  intros Hn H1.
  assert (Hp : forall r, passes s1 r = true -> passes s2 r = true).
  { intros r; unfold passes.
    destruct (int_of_object (Departure_Hour r)); [|discriminate].
    apply keep_narrower, Hn. }
  assert (Hok : forall (t : list cleaned_record) (s : filter_spec),
             (forall r, In r t ->
                exists h, int_of_object (Departure_Hour r) = Ok h) ->
             df_filtered t s = Ok (filter (passes s) t)).
  { intros t s Hall.
    destruct (mapM_all_ok int_of_object (map Departure_Hour t))
      as [hours Eh].
    { intros y Hy; apply in_map_iff in Hy; destruct Hy as (x & <- & Hx).
      apply Hall, Hx. }
    unfold df_filtered; fold (astype_int (map Departure_Hour t)) in Eh.
    rewrite Eh; cbn [bind]; f_equal.
    apply filter_combine_hours, Eh. }
  assert (Hall : forall r, In r df ->
                   exists h, int_of_object (Departure_Hour r) = Ok h).
  { destruct (classic_hours df) as [Hall|(r & e & Hr & He)]; [exact Hall|].
    destruct (filter_raises_on_bad_hour df s1 r e Hr He) as [e' E].
    rewrite E in H1; discriminate. }
  apply df_filtered_ok in H1; subst k1.
  exists (filter (passes s2) df); split; [apply Hok, Hall|split].
  - rewrite Hok.
    + f_equal; apply filter_filter_narrow, Hp.
    + intros r Hr; apply filter_In in Hr; apply Hall, Hr.
  - intros r Hr; apply filter_In in Hr; apply filter_In.
    split; [tauto|apply Hp; tauto].
Qed.

Lemma narrowing_filters_again_witness :
  exists k2,
    df_filtered (df_cleaned true padded_flights) select_all = Ok k2
    /\ df_filtered k2 select_no_airline = Ok []
    /\ incl [] k2.
Proof.
  apply (narrowing_filters_again (df_cleaned true padded_flights) []
           select_no_airline select_all).
  - unfold narrower, incl; simpl; repeat split; try lia; tauto.
  - reflexivity.
Defined.

(** ** The colour map *)

Lemma comparable_texts (cells : list (option string)) :
  (forall c, In c cells -> c <> None) ->
  mapM comparable cells = Ok (non_null cells)
  /\ map Some (non_null cells) = cells.
Proof.
  induction cells as [|[s|] cells IH]; intros H.
  - split; reflexivity.
  - destruct IH as [E1 E2]; [intros c Hc; apply H; right; exact Hc|].
    cbn [mapM comparable bind non_null map]; rewrite E1, E2.
    split; reflexivity.
  - exfalso; apply (H None); [left|]; reflexivity.
Qed.

Lemma sorted_texts (cells : list (option string)) :
  (forall c, In c cells -> c <> None) ->
  exists texts,
    sorted cells = Ok (map Some texts)
    /\ Permutation texts (non_null cells).
Proof.
  intros H; destruct (comparable_texts cells H) as [E1 E2].
  destruct cells as [|c [|c' cells]].
  - exists []; split; [reflexivity|constructor].
  - exists (non_null [c]); split; [rewrite E2|]; reflexivity.
  - exists (sort String.leb (non_null (c :: c' :: cells))); split.
    + unfold sorted; rewrite E1; reflexivity.
    + apply sort_perm.
Qed.

Lemma enumerate_from_in {A C} (f : nat -> C) (l : list A) (a : A) (s : nat) :
  In a l ->
  exists i, In (a, f i)
               (map (fun ia => (snd ia, f (fst ia)))
                    (combine (seq s (List.length l)) l)).
Proof.
  revert s; induction l as [|x l IH]; intros s; [intros []|].
  intros [->|Ha]; cbn [List.length seq combine map fst snd].
  - exists s; left; reflexivity.
  - destruct (IH (S s) Ha) as [i Hi]; exists i; right; exact Hi.
Qed.

Lemma enumerate_from_fst {A C} (f : nat -> C) (l : list A) (s : nat) :
  map fst (map (fun ia => (snd ia, f (fst ia)))
               (combine (seq s (List.length l)) l)) = l.
Proof.
  revert s; induction l as [|x l IH]; intros s; [reflexivity|].
  cbn [List.length seq combine map fst snd]; rewrite IH; reflexivity.
Qed.

Lemma enumerate_from_snd {A C} (f : nat -> C) (l : list A) (s : nat) :
  map snd (map (fun ia => (snd ia, f (fst ia)))
               (combine (seq s (List.length l)) l))
  = map f (seq s (List.length l)).
Proof.
  revert s; induction l as [|x l IH]; intros s; [reflexivity|].
  cbn [List.length seq combine map fst snd]; rewrite IH; reflexivity.
Qed.

Lemma nodup_map_some {A} (l : list A) : NoDup (map Some l) <-> NoDup l.
Proof.
  split; [apply NoDup_map_inv|].
  induction 1 as [|x l Hx Hn IH]; simpl; constructor; [|exact IH].
  intros H; apply in_map_iff in H; destruct H as (y & E & Hy).
  injection E as ->; contradiction.
Qed.

(** The colour at rank [i]. *)
Lemma color_map_items
      (first_color : string) (more_colors : list string)
      (t : list cleaned_record) (airlines : list (option string)) :
  unique_airlines t = Ok airlines ->
  exists m,
    airline_color_map first_color more_colors t = Ok m
    /\ map fst m = airlines
    /\ map snd m
       = map (fun i =>
                nth (Nat.modulo i
                       (List.length (color_palette first_color more_colors)))
                    (color_palette first_color more_colors) first_color)
             (seq 0 (List.length airlines))
    /\ forall a, In a airlines ->
         exists c, In (a, c) m
                   /\ In c (color_palette first_color more_colors).
Proof.
  intros E; unfold airline_color_map; rewrite E; cbn [bind].
  set (f := fun i : nat =>
              nth (Nat.modulo i
                     (List.length (color_palette first_color more_colors)))
                  (color_palette first_color more_colors) first_color).
  eexists; split; [reflexivity|]; unfold enumerate.
  split; [exact (enumerate_from_fst f airlines 0%nat)|].
  split; [exact (enumerate_from_snd f airlines 0%nat)|].
  intros a Ha.
  destruct (enumerate_from_in f airlines a 0 Ha) as [i Hi].
  exists (f i); split; [exact Hi|].
  apply nth_In, Nat.mod_upper_bound; discriminate.
Qed.

(** The airlines of a filtered relation are texts of the multiselect. *)
Lemma kept_airline (df kept : list cleaned_record) (spec : filter_spec)
      (r : cleaned_record) :
  df_filtered df spec = Ok kept -> In r kept ->
  exists a, Company (raw r) = Some a /\ In a (selected_airlines spec).
Proof.
  intros Hf Hr; apply df_filtered_ok in Hf.
  rewrite Hf in Hr; apply filter_In in Hr; destruct Hr as [_ Hp].
  apply passes_hour in Hp; destruct Hp as (h & _ & Hk).
  unfold keep in Hk.
  repeat (apply andb_true_iff in Hk; destruct Hk as [Hk ?]).
  apply isin_in, Hk.
Qed.

(** X21.  Every airline of the filtered relation gets a colour: building
    the colour map raises nothing, its keys are pairwise distinct airlines
    of the multiselect, and every filtered row finds its airline in it with
    a colour of the palette. *)
Theorem kept_airlines_have_colors
        (first_color : string) (more_colors : list string)
        (df kept : list cleaned_record) (spec : filter_spec) :
  df_filtered df spec = Ok kept ->
  exists m,
    airline_color_map first_color more_colors kept = Ok m
    /\ NoDup (map fst m)
    /\ (forall k c, In (k, c) m ->
          exists a, k = Some a /\ In a (selected_airlines spec))
    /\ (forall r, In r kept ->
          exists c, In (Company (raw r), c) m
                    /\ In c (color_palette first_color more_colors)).
Proof.
  intros Hf.
  set (cells := nodup cell_eq_dec (map (fun r => Company (raw r)) kept)).
  assert (Hcells : forall c, In c cells ->
                     exists r, In r kept /\ Company (raw r) = c).
  { intros c Hc; apply nodup_In, in_map_iff in Hc.
    destruct Hc as (r & E & Hr); eauto. }
  destruct (sorted_texts cells) as (texts & Es & Hperm).
  { intros c Hc; destruct (Hcells c Hc) as (r & Hr & <-).
    destruct (kept_airline df kept spec r Hf Hr) as (a & -> & _).
    discriminate. }
  assert (Htexts : forall a, In a texts <-> In (Some a) cells).
  { intros a; rewrite <- non_null_in; split; apply Permutation_in;
      [exact Hperm|symmetry; exact Hperm]. }
  destruct (color_map_items first_color more_colors kept (map Some texts))
    as (m & Em & Hfst & _ & Hcol).
  { unfold unique_airlines; fold cells; exact Es. }
  exists m; split; [exact Em|].
  split; [|split].
  - rewrite Hfst; apply nodup_map_some.
    apply (Permutation_NoDup (l := non_null cells));
      [symmetry; exact Hperm|].
    apply nodup_map_some.
    replace (map Some (non_null cells)) with cells; [apply NoDup_nodup|].
    symmetry; apply comparable_texts.
    intros c Hc; destruct (Hcells c Hc) as (r & Hr & <-).
    destruct (kept_airline df kept spec r Hf Hr) as (a & -> & _).
    discriminate.
  - intros k c Hk.
    apply (in_map fst) in Hk; rewrite Hfst in Hk; cbn [fst] in Hk.
    apply in_map_iff in Hk; destruct Hk as (a & <- & Ha).
    exists a; split; [reflexivity|].
    apply Htexts in Ha; destruct (Hcells _ Ha) as (r & Hr & E).
    destruct (kept_airline df kept spec r Hf Hr) as (a' & E' & Ha').
    congruence.
  - intros r Hr; apply Hcol.
    destruct (kept_airline df kept spec r Hf Hr) as (a & E & _).
    rewrite E; apply in_map, Htexts, nodup_In.
    rewrite <- E; apply (in_map (fun r => Company (raw r))), Hr.
Qed.

Lemma kept_airlines_have_colors_witness :
  exists m,
    airline_color_map "#636EFA" ["#EF553B"] (df_cleaned true padded_flights)
    = Ok m
    /\ NoDup (map fst m)
    /\ (forall k c, In (k, c) m ->
          exists a, k = Some a /\ In a (selected_airlines select_all))
    /\ (forall r, In r (df_cleaned true padded_flights) ->
          exists c, In (Company (raw r), c) m
                    /\ In c (color_palette "#636EFA" ["#EF553B"])).
Proof.
  apply (kept_airlines_have_colors "#636EFA" ["#EF553B"]
           (df_cleaned true padded_flights)).
  reflexivity.
Defined.

Lemma cyclic_nodup {A} (palette : list A) (d : A) (k : nat) :
  NoDup palette -> palette <> [] ->
  NoDup (map (fun i => nth (Nat.modulo i (List.length palette)) palette d)
             (seq 0 k))
  <-> (k <= List.length palette)%nat.
Proof.
  intros Hn Hne.
  assert (Hpos : (0 < List.length palette)%nat)
    by (destruct palette; simpl; [congruence|lia]).
  set (n := List.length palette) in *.
  set (f := fun i => nth (Nat.modulo i n) palette d).
  assert (Hnth : forall i, (i < k)%nat -> nth i (map f (seq 0 k)) d = f i).
  { intros i Hi.
    rewrite (nth_indep _ d (f 0%nat)) by (rewrite length_map, length_seq; exact Hi).
    rewrite map_nth, seq_nth by exact Hi; reflexivity. }
  split.
  - intros H.
    destruct (Nat.le_gt_cases k n) as [Hle|Hgt]; [exact Hle|exfalso].
    rewrite (NoDup_nth _ d) in H.
    rewrite length_map, length_seq in H.
    assert (E : 0%nat = n).
    { apply H; try lia.
      rewrite !Hnth by lia; unfold f.
      rewrite Nat.Div0.mod_same, Nat.mod_small by lia; reflexivity. }
    lia.
  - intros Hle; apply (NoDup_nth _ d).
    rewrite length_map, length_seq; intros i j Hi Hj.
    rewrite !Hnth by assumption; unfold f.
    rewrite !Nat.mod_small by lia.
    apply (NoDup_nth palette d); [exact Hn|fold n; lia|fold n; lia].
Qed.

(** X22.  With a palette of pairwise distinct colours, the airlines of the
    colour map get pairwise distinct colours exactly when there are at most
    as many airlines as colours; beyond that colours repeat. *)
Theorem colors_distinct_up_to_palette
        (first_color : string) (more_colors : list string)
        (t : list cleaned_record) (m : list (option string * string)) :
  NoDup (color_palette first_color more_colors) ->
  airline_color_map first_color more_colors t = Ok m ->
  NoDup (map snd m)
  <-> (List.length m
       <= List.length (color_palette first_color more_colors))%nat.
Proof.
  intros Hn H.
  destruct (unique_airlines t) as [airlines|e] eqn:E;
    [|unfold airline_color_map in H; rewrite E in H; discriminate].
  destruct (color_map_items first_color more_colors t airlines E)
    as (m' & Em & Hfst & Hsnd & _).
  assert (m' = m) by congruence; subst m'.
  rewrite Hsnd, <- Hfst, length_map.
  apply cyclic_nodup; [exact Hn|discriminate].
Qed.

Lemma colors_distinct_up_to_palette_witness :
  (NoDup (map snd [(Some "AirAsia", "#636EFA"); (Some "IndiGo", "#EF553B");
                   (Some "Vistara", "#636EFA")])
   <-> (List.length [(Some "AirAsia", "#636EFA"); (Some "IndiGo", "#EF553B");
                     (Some "Vistara", "#636EFA")]
        <= List.length (color_palette "#636EFA" ["#EF553B"]))%nat)
  /\ (NoDup (map snd [(Some "AirAsia", "#636EFA"); (Some "IndiGo", "#EF553B")])
      <-> (List.length [(Some "AirAsia", "#636EFA");
                        (Some "IndiGo", "#EF553B")]
           <= List.length (color_palette "#636EFA" ["#EF553B"]))%nat).
Proof.
  split.
  - apply (colors_distinct_up_to_palette "#636EFA" ["#EF553B"]
             three_airlines).
    + repeat constructor; simpl; intuition discriminate.
    + reflexivity.
  - apply (colors_distinct_up_to_palette "#636EFA" ["#EF553B"]
             (firstn 2 three_airlines)).
    + repeat constructor; simpl; intuition discriminate.
    + reflexivity.
Defined.
